(** * mxpp: the Matrix/XMPP bridge bot, [mxpp/main.py]

    A shallow embedding of class [BridgeBot] and of the properties its
    specification states about it.

    The bot is a Python object whose methods mutate its attributes and call
    two client libraries (matrix_client and sleekxmpp).  The embedding is a
    state-and-exception monad over one record holding the bot's attributes,
    the part of the two clients the bot reads, and the list of calls issued
    to them.  A Python exception leaves the mutations done so far in place,
    so a computation returns its outcome together with the state reached. *)

From Stdlib Require Import String Ascii List Bool Arith PeanoNat Lia.
Import ListNotations.
Open Scope string_scope.
Open Scope list_scope.

(* ================================================================== *)
(** * Python strings *)
(* ================================================================== *)

Module Py.

(** A Python [str] is held as its UTF-8 encoding, one [ascii] per byte:
    a prefix, a suffix and the character [@] are then the same on the
    bytes as on the characters. *)

(** [c in s] for a one-character [c]. *)
Fixpoint contains_char (c : ascii) (s : string) : bool :=
  match s with
  | EmptyString => false
  | String c' s' => if Ascii.eqb c c' then true else contains_char c s'
  end.

(** [s.startswith(p)]. *)
Definition startswith (s p : string) : bool := String.prefix p s.

(** [s[n:]], with [n] in bytes.  The code takes it with the length of a
    prefix of [s], where to drop the characters of the prefix is to drop
    its bytes. *)
Fixpoint slice_from (n : nat) (s : string) : string :=
  match n, s with
  | O, _ => s
  | S _, EmptyString => EmptyString
  | S n', String _ s' => slice_from n' s'
  end.

(** [c.isspace()] for a character of the ASCII range: tab, line feed,
    vertical tab, form feed, carriage return, the four separators 28..31
    and the blank. *)
Definition is_space (c : ascii) : bool :=
  let n := nat_of_ascii c in
  (Nat.leb 9 n && Nat.leb n 13) || (Nat.leb 28 n && Nat.leb n 31) || Nat.eqb n 32.

(** The blanks of [str.isspace] and [str.split] beyond the ASCII range.
    On two bytes: U+0085 (194 133) and U+00A0 (194 160). *)
Definition is_space2 (a b : ascii) : bool :=
  let a := nat_of_ascii a in
  let b := nat_of_ascii b in
  Nat.eqb a 194 && (Nat.eqb b 133 || Nat.eqb b 160).

(** On three bytes: U+1680 (225 154 128), U+2000..U+200A (226 128
    128..138), U+2028 and U+2029 (226 128 168, 169), U+202F (226 128 175),
    U+205F (226 129 159) and U+3000 (227 128 128). *)
Definition is_space3 (a b c : ascii) : bool :=
  let a := nat_of_ascii a in
  let b := nat_of_ascii b in
  let c := nat_of_ascii c in
  (Nat.eqb a 225 && Nat.eqb b 154 && Nat.eqb c 128) ||
  (Nat.eqb a 226 && Nat.eqb b 128 &&
   ((Nat.leb 128 c && Nat.leb c 138) || Nat.eqb c 168 || Nat.eqb c 169 ||
    Nat.eqb c 175)) ||
  (Nat.eqb a 226 && Nat.eqb b 129 && Nat.eqb c 159) ||
  (Nat.eqb a 227 && Nat.eqb b 128 && Nat.eqb c 128).

(** The number of bytes of the blank [s] starts with, 0 when it starts
    with none. *)
Definition blank_width (s : string) : nat :=
  match s with
  | EmptyString => 0
  | String a s1 =>
      if is_space a then 1
      else
        match s1 with
        | EmptyString => 0
        | String b s2 =>
            if is_space2 a b then 2
            else
              match s2 with
              | EmptyString => 0
              | String c _ => if is_space3 a b c then 3 else 0
              end
        end
  end.

(** [s.split()]: the maximal runs of non-blank characters, in order.
    [skip] counts the bytes still to pass of the blank being read. *)
Fixpoint split_from (skip : nat) (word : string) (s : string) : list string :=
  match s with
  | EmptyString => match word with EmptyString => [] | _ => [word] end
  | String c s' =>
      match skip with
      | S k => split_from k word s'
      | O =>
          match blank_width s with
          | O => split_from 0 (word ++ String c EmptyString) s'
          | S k =>
              match word with
              | EmptyString => split_from k EmptyString s'
              | _ => word :: split_from k EmptyString s'
              end
          end
      end
  end.

Definition split (s : string) : list string := split_from 0 EmptyString s.

(** [s.lower()] on the ASCII range; the bytes of the other characters are
    kept.  The result is only compared with the four command words, and
    there the two agree: beyond the ASCII range, only U+0130 and the
    Kelvin sign U+212A have an ASCII letter in their lower case, the
    former with a combining dot after it, the latter a [k], which no
    command word has. *)
Definition lower_char (c : ascii) : ascii :=
  let n := nat_of_ascii c in
  if Nat.leb 65 n && Nat.leb n 90 then ascii_of_nat (n + 32) else c.

Fixpoint lower (s : string) : string :=
  match s with
  | EmptyString => EmptyString
  | String c s' => String (lower_char c) (lower s')
  end.

(** [x in l] for a list (or set) of strings. *)
Definition mem (x : string) (l : list string) : bool :=
  existsb (String.eqb x) l.

End Py.

(* ================================================================== *)
(** * Python dictionaries

    A [dict] iterates in insertion order and assigning to a key that is
    present keeps its place, so a dictionary is an association list with
    at most one entry per key. *)
(* ================================================================== *)

Module Dict.
Section WithKey.
Context {K V : Type}.
Variable eqb : K -> K -> bool.

Fixpoint get (k : K) (d : list (K * V)) : option V :=
  match d with
  | [] => None
  | (k', v) :: d' => if eqb k k' then Some v else get k d'
  end.

Definition mem (k : K) (d : list (K * V)) : bool :=
  match get k d with Some _ => true | None => false end.

(** [d[k] = v] *)
Fixpoint set (k : K) (v : V) (d : list (K * V)) : list (K * V) :=
  match d with
  | [] => [(k, v)]
  | (k', v') :: d' =>
      if eqb k k' then (k', v) :: d' else (k', v') :: set k v d'
  end.

(** [del d[k]] for a key that is present *)
Fixpoint remove (k : K) (d : list (K * V)) : list (K * V) :=
  match d with
  | [] => []
  | (k', v') :: d' => if eqb k k' then d' else (k', v') :: remove k d'
  end.

Definition keys (d : list (K * V)) : list K := map fst d.
Definition values (d : list (K * V)) : list V := map snd d.
End WithKey.
End Dict.

Abbreviation sget := (Dict.get String.eqb).
Abbreviation sset := (Dict.set String.eqb).
Abbreviation smem := (Dict.mem String.eqb).
Abbreviation sremove := (Dict.remove String.eqb).

(* ================================================================== *)
(** * The objects the bot works on *)
(* ================================================================== *)

(** A [matrix_client] room object.  Room identities are opaque tokens the
    homeserver allocates; they are numbered here in order of allocation.
    [topic] and [name] are the attributes cached on the object, which
    [update_room_topic] and [update_room_name] refresh from the server's
    values; a fresh object has neither.  [joined_members] is what
    [get_joined_members] answers: the identities of the joined users.
    [in_client] says whether the object is still listed by
    [client.get_rooms()]; [leave] takes it off that list, while references
    held elsewhere keep denoting the object. *)
Record MatrixRoom := mkRoom {
  room_id : nat;
  topic : option string;
  name : option string;
  server_topic : option string;
  server_name : option string;
  joined_members : list string;
  in_client : bool
}.

(** What a value of [topic_room_id_map] can be.  The attribute is declared
    [Dict[str, str]] and [map_rooms_by_topic] stores [room.room_id], but
    [create_mapped_room] stores the room object itself. *)
Inductive room_ref :=
| RoomId (rid : nat)
| RoomObj (rid : nat).

(** The listeners the bot registers on rooms and on the XMPP client. *)
Inductive handler :=
| h_matrix_control_message
| h_matrix_all_chat_message
| h_matrix_message
| h_xmpp_roster_update
| h_xmpp_message
| h_xmpp_presence_available
| h_xmpp_presence_unavailable
| h_xmpp_groupchat_message.

(** Calls issued to the two networks, in the order they are made. *)
Inductive call :=
| CreateRoom (rid : nat)
| SetRoomTopic (rid : nat) (t : string)
| SetRoomName (rid : nat) (n : string)
| SendText (rid : nat) (body : string)
| SendNotice (rid : nat) (body : string)
| InviteUser (rid : nat) (user : string)
| LeaveRoom (rid : nat)
| AddListener (rid : nat) (h : handler)
| AddEventHandler (ev : string) (h : handler)
| XmppConnect
| XmppProcess
| SendPresence (pto : option string) (ptype : option string)
| GetRoster
| SendMessage (mto mbody mtype : string)
| JoinMUC (room_jid nick : string)
| LeaveMUC (room_jid : string) (nick : option string).

Inductive level := DEBUG | INFO | WARNING | ERROR.

(** An entry of an XMPP roster; the bot reads its ['name']. *)
Record RosterItem := mkItem { item_name : string }.

(** The attributes of the bot that [load_config] and the head of
    [__init__] set and no handler assigns. *)
Record Settings := mkSettings {
  special_room_names : list (string * string);
  groupchat_flag : string;
  restore_room_topic : bool;
  users_to_invite : list string;
  bot_id : string;                       (* matrix_login['username'] *)
  xmpp_login_jid : string;               (* xmpp_login['jid'] *)
  xmpp_groupchat_nick : string;
  send_messages_to_all_chat : bool;
  disable_all_chat_room : bool;
  send_presences_to_control : bool;
  groupchat_mute_own_nick : bool;
  disabled_jids : list string
}.

(** Modelled from the spec: [mxpp.client_xmpp.ClientXMPP] is not part of the
    sources at hand.  The bot reads and writes its attribute [jid_nick_map],
    the roster snapshot, "a mapping address -> display name": a plain
    dictionary.  [roster] is sleekxmpp's table of rosters, one per own
    address, and [roster_dict] the copy the bot stores. *)
Record State := mkState {
  settings : Settings;
  topic_room_id_map : list (string * room_ref);
  special_rooms : list (string * option nat);
  groupchat_jids : list string;
  (* matrix client *)
  rooms : list MatrixRoom;
  next_room_id : nat;
  (* xmpp client *)
  jid_nick_map : list (string * string);
  roster : list (string * list (string * RosterItem));
  roster_dict : list (string * RosterItem);
  (* the outside world *)
  calls : list call;
  logs : list (level * string)
}.

Definition with_settings (x : Settings) (s : State) : State :=
  mkState x (topic_room_id_map s) (special_rooms s) (groupchat_jids s)
    (rooms s) (next_room_id s) (jid_nick_map s) (roster s) (roster_dict s)
    (calls s) (logs s).

Definition with_topic_room_id_map (x : list (string * room_ref)) (s : State) : State :=
  mkState (settings s) x (special_rooms s) (groupchat_jids s)
    (rooms s) (next_room_id s) (jid_nick_map s) (roster s) (roster_dict s)
    (calls s) (logs s).

Definition with_special_rooms (x : list (string * option nat)) (s : State) : State :=
  mkState (settings s) (topic_room_id_map s) x (groupchat_jids s)
    (rooms s) (next_room_id s) (jid_nick_map s) (roster s) (roster_dict s)
    (calls s) (logs s).

Definition with_groupchat_jids (x : list string) (s : State) : State :=
  mkState (settings s) (topic_room_id_map s) (special_rooms s) x
    (rooms s) (next_room_id s) (jid_nick_map s) (roster s) (roster_dict s)
    (calls s) (logs s).

Definition with_rooms (x : list MatrixRoom) (n : nat) (s : State) : State :=
  mkState (settings s) (topic_room_id_map s) (special_rooms s) (groupchat_jids s)
    x n (jid_nick_map s) (roster s) (roster_dict s)
    (calls s) (logs s).

Definition with_jid_nick_map (x : list (string * string)) (s : State) : State :=
  mkState (settings s) (topic_room_id_map s) (special_rooms s) (groupchat_jids s)
    (rooms s) (next_room_id s) x (roster s) (roster_dict s)
    (calls s) (logs s).

Definition with_roster_dict (x : list (string * RosterItem)) (s : State) : State :=
  mkState (settings s) (topic_room_id_map s) (special_rooms s) (groupchat_jids s)
    (rooms s) (next_room_id s) (jid_nick_map s) (roster s) x
    (calls s) (logs s).

Definition with_calls (x : list call) (s : State) : State :=
  mkState (settings s) (topic_room_id_map s) (special_rooms s) (groupchat_jids s)
    (rooms s) (next_room_id s) (jid_nick_map s) (roster s) (roster_dict s)
    x (logs s).

Definition with_logs (x : list (level * string)) (s : State) : State :=
  mkState (settings s) (topic_room_id_map s) (special_rooms s) (groupchat_jids s)
    (rooms s) (next_room_id s) (jid_nick_map s) (roster s) (roster_dict s)
    (calls s) x.

(* ================================================================== *)
(** * Computations: state and Python exceptions *)
(* ================================================================== *)

(** [ReferenceError] is what reading an attribute through a reference to
    no object gives; the bot only holds references to objects it was handed
    by the client, so it does not arise from a state the bot builds. *)
Inductive exn :=
| KeyError
| IndexError
| AttributeError
| ReferenceError
| Exception (msg : string).

Inductive outcome (A : Type) :=
| Ok (a : A)
| Raise (e : exn).
Arguments Ok {A} a.
Arguments Raise {A} e.

Definition M (A : Type) : Type := State -> outcome A * State.

Definition ret {A} (a : A) : M A := fun s => (Ok a, s).

Definition raise {A} (e : exn) : M A := fun s => (Raise e, s).

Definition bind {A B} (m : M A) (k : A -> M B) : M B :=
  fun s =>
    match m s with
    | (Ok a, s') => k a s'
    | (Raise e, s') => (Raise e, s')
    end.

Definition gets {A} (f : State -> A) : M A := fun s => (Ok (f s), s).

Definition modify (f : State -> State) : M unit := fun s => (Ok tt, f s).

Declare Scope py_scope.
Delimit Scope py_scope with py.
Notation "x <- m ;; k" := (bind m (fun x => k))
  (at level 61, m at next level, right associativity) : py_scope.
Notation "m ;; k" := (bind m (fun _ => k))
  (at level 61, right associativity) : py_scope.
Open Scope py_scope.

(** [for x in l: body] *)
Fixpoint for_each {A} (l : list A) (body : A -> M unit) : M unit :=
  match l with
  | [] => ret tt
  | x :: l' => body x ;; for_each l' body
  end.

(** A list comprehension whose element expression can raise. *)
Fixpoint map_m {A B} (f : A -> M B) (l : list A) : M (list B) :=
  match l with
  | [] => ret []
  | x :: l' => y <- f x ;; ys <- map_m f l' ;; ret (y :: ys)
  end.

(** [if c: body] with no [else]. *)
Definition when (c : bool) (body : M unit) : M unit :=
  if c then body else ret tt.

(** [d[k]] *)
Definition subscript {V} (d : list (string * V)) (k : string) : M V :=
  match sget k d with
  | Some v => ret v
  | None => raise KeyError
  end.

Definition emit (c : call) : M unit :=
  modify (fun s => with_calls (calls s ++ [c]) s).

(** [logging.debug], [.info], [.warning], [.error].  A record keeps the
    level and the message; arguments that are not text are left out. *)
Definition log (l : level) (msg : string) : M unit :=
  modify (fun s => with_logs (logs s ++ [(l, msg)]) s).

(* ================================================================== *)
(** * The room client ([matrix_client]) *)
(* ================================================================== *)

(** [client.get_rooms()], as the list of its values. *)
Definition get_rooms : M (list MatrixRoom) :=
  gets (fun s => filter in_client (rooms s)).

Definition room_ids (l : list MatrixRoom) : list nat := map room_id l.

Definition find_room (rid : nat) (l : list MatrixRoom) : option MatrixRoom :=
  find (fun r => Nat.eqb (room_id r) rid) l.

Definition update_room (rid : nat) (f : MatrixRoom -> MatrixRoom)
    (l : list MatrixRoom) : list MatrixRoom :=
  map (fun r => if Nat.eqb (room_id r) rid then f r else r) l.

(** Reading an attribute of the room object [rid]. *)
Definition room_attr {A} (rid : nat) (f : MatrixRoom -> A) : M A :=
  fun s =>
    match find_room rid (rooms s) with
    | Some r => (Ok (f r), s)
    | None => (Raise ReferenceError, s)
    end.

Definition mutate_room (rid : nat) (f : MatrixRoom -> MatrixRoom) : M unit :=
  modify (fun s => with_rooms (update_room rid f (rooms s)) (next_room_id s) s).

(** [client.create_room()]: the homeserver allocates the room, the bot is
    its only joined member, and the client lists the new object. *)
Definition create_room : M nat :=
  rid <- gets next_room_id ;;
  me <- gets (fun s => bot_id (settings s)) ;;
  modify (fun s =>
    with_rooms (rooms s ++ [mkRoom rid None None None None [me] true]) (S rid) s) ;;
  emit (CreateRoom rid) ;;
  ret rid.

(** What the calls that change a room do to its object. *)
Definition with_topic (t : string) (r : MatrixRoom) : MatrixRoom :=
  mkRoom (room_id r) (Some t) (name r) (Some t) (server_name r)
    (joined_members r) (in_client r).

Definition with_name (n : string) (r : MatrixRoom) : MatrixRoom :=
  mkRoom (room_id r) (topic r) (Some n) (server_topic r) (Some n)
    (joined_members r) (in_client r).

Definition refresh_topic (r : MatrixRoom) : MatrixRoom :=
  match server_topic r with
  | Some t => mkRoom (room_id r) (Some t) (name r) (server_topic r)
                (server_name r) (joined_members r) (in_client r)
  | None => r
  end.

Definition refresh_name (r : MatrixRoom) : MatrixRoom :=
  match server_name r with
  | Some n => mkRoom (room_id r) (topic r) (Some n) (server_topic r)
                (server_name r) (joined_members r) (in_client r)
  | None => r
  end.

Definition unlisted (r : MatrixRoom) : MatrixRoom :=
  mkRoom (room_id r) (topic r) (name r) (server_topic r) (server_name r)
    (joined_members r) false.

Definition set_room_topic (rid : nat) (t : string) : M unit :=
  emit (SetRoomTopic rid t) ;;
  mutate_room rid (with_topic t).

Definition set_room_name (rid : nat) (n : string) : M unit :=
  emit (SetRoomName rid n) ;;
  mutate_room rid (with_name n).

(** [room.update_room_topic()]: adopt the server's topic when it has one. *)
Definition update_room_topic (rid : nat) : M unit :=
  mutate_room rid refresh_topic.

(** [room.update_room_name()]: the same for the name. *)
Definition update_room_name (rid : nat) : M unit :=
  mutate_room rid refresh_name.

Definition get_joined_members (rid : nat) : M (list string) :=
  room_attr rid joined_members.

(** [room.topic] and [room.name] *)
Definition room_topic (rid : nat) : M (option string) := room_attr rid topic.
Definition room_name (rid : nat) : M (option string) := room_attr rid name.

Definition send_text (rid : nat) (text : string) : M unit := emit (SendText rid text).
Definition send_notice (rid : nat) (text : string) : M unit := emit (SendNotice rid text).
Definition invite_user (rid : nat) (user : string) : M unit := emit (InviteUser rid user).
Definition add_listener (rid : nat) (h : handler) : M unit := emit (AddListener rid h).

(** [room.leave()]: the client stops listing the room. *)
Definition leave (rid : nat) : M unit :=
  emit (LeaveRoom rid) ;;
  mutate_room rid unlisted.

(** [client.get_rooms()[v]] for a value [v] of [topic_room_id_map]: the
    keys are room identities, so a room object is never found. *)
Definition client_room (v : room_ref) : M nat :=
  l <- get_rooms ;;
  match v with
  | RoomId rid => if existsb (Nat.eqb rid) (room_ids l) then ret rid else raise KeyError
  | RoomObj _ => raise KeyError
  end.

(** [room_id in valid_room_ids], a string looked for in a list of values
    of [topic_room_id_map] and of room identities. *)
Definition is_room_id (rid : nat) (v : room_ref) : bool :=
  match v with
  | RoomId rid' => Nat.eqb rid rid'
  | RoomObj _ => false
  end.

(** [self.special_rooms[key]], as the object a method is then called on. *)
Definition special_room (key : string) : M nat :=
  d <- gets special_rooms ;;
  v <- subscript d key ;;
  match v with
  | Some rid => ret rid
  | None => raise AttributeError
  end.

(* ================================================================== *)
(** * Events and configuration *)
(* ================================================================== *)

(** An [m.room.message] event: ['sender'] and, under ['content'],
    ['msgtype'] and ['body']. *)
Record MatrixEvent := mkEvent {
  sender : string;
  msgtype : string;
  body : string
}.

Record JID := mkJID { full : string; bare : string }.

(** A message stanza: ['from'], ['type'], ['body'], ['mucnick']. *)
Record Message := mkMessage {
  msg_from : JID;
  msg_type : string;
  msg_body : string;
  msg_mucnick : string
}.

Record Presence := mkPresence { pres_from : JID }.

(** The keys of [config.yaml] read by [load_config].  The three that the
    code tests with [in] are optional. *)
Record Config := mkConfig {
  cfg_users_to_invite : list string;
  cfg_groupchat_flag : string;
  cfg_restore_room_topic : option bool;
  cfg_matrix_username : string;
  cfg_xmpp_jid : string;
  cfg_groupchat_nick : string;
  cfg_send_presences_to_control : bool;
  cfg_send_messages_to_all_chat : bool;
  cfg_disable_all_chat_room : option bool;
  cfg_groupchat_mute_own_nick : bool;
  cfg_disabled_jids : option (list string)
}.

(* ================================================================== *)
(** * class BridgeBot *)
(* ================================================================== *)

Definition cfg {A} (f : Settings -> A) : M A := gets (fun s => f (settings s)).

Definition get_room_for_jid (jid : string) : M nat :=
  d <- gets topic_room_id_map ;;
  room_id <- subscript d jid ;;
  client_room room_id.

Definition get_unmapped_rooms : M (list nat) :=
  specials <- gets special_rooms ;;
  special_room_ids <-
    map_m (fun r => match r with
                    | Some rid => ret rid
                    | None => raise AttributeError
                    end)
          (Dict.values specials) ;;
  d <- gets topic_room_id_map ;;
  let valid_room_ids := Dict.values d ++ map RoomId special_room_ids in
  l <- get_rooms ;;
  ret (filter (fun rid => negb (existsb (is_room_id rid) valid_room_ids))
              (room_ids l)).

Definition get_empty_rooms : M (list nat) :=
  l <- get_rooms ;;
  ret (room_ids (filter (fun r => Nat.ltb (List.length (joined_members r)) 2) l)).

Definition setup_special_room (room : nat) (topic : string) : M unit :=
  set_room_topic room topic ;;
  names <- cfg special_room_names ;;
  n <- subscript names topic ;;
  set_room_name room n ;;
  modify (fun s => with_special_rooms (sset topic (Some room) (special_rooms s)) s) ;;
  log DEBUG "Set up special room with topic {} and id".

Definition create_mapped_room (topic : string) (name0 : option string)
    : M (option nat) :=
  let name :=
    match name0 with
    | None | Some EmptyString => topic
    | Some n => n
    end in
  jids <- gets groupchat_jids ;;
  if Py.mem topic jids then
    log DEBUG ("Topic " ++ topic ++ " is a groupchat without its flag, ignoring") ;;
    ret None
  else
    d <- gets topic_room_id_map ;;
    room <-
      (if smem topic d then
         room_id <- subscript d topic ;;
         room <- client_room room_id ;;
         log DEBUG ("Room with topic " ++ topic ++ " already exists!") ;;
         ret room
       else
         room <- create_room ;;
         set_room_topic room topic ;;
         modify (fun s =>
           with_topic_room_id_map (sset topic (RoomObj room) (topic_room_id_map s)) s) ;;
         log INFO ("Created mapped room with topic " ++ topic ++ " and id {}") ;;
         set_room_name room name ;;
         ret room) ;;
    update_room_name room ;;
    restore <- cfg restore_room_topic ;;
    room_name <- room_name room ;;
    when (restore &&
          negb (match room_name with Some n => String.eqb n name | None => false end))
         (set_room_name room name) ;;
    ret (Some room).

(** The body of the loop of [map_rooms_by_topic]. *)
Definition map_room (room : nat) : M unit :=
  update_room_topic room ;;
  log DEBUG "Unmapped room {} ({}) [{}]" ;;
  t <- room_topic room ;;
  match t with
  | None => log DEBUG "Leaving it as-is (special room, topic does not contain @)"
  | Some t =>
      if negb (Py.contains_char "@" t) then
        log DEBUG "Leaving it as-is (special room, topic does not contain @)"
      else
        modify (fun s =>
          with_topic_room_id_map (sset t (RoomId room) (topic_room_id_map s)) s) ;;
        add_listener room h_matrix_message
  end.

Definition map_rooms_by_topic : M unit :=
  unmapped_rooms <- get_unmapped_rooms ;;
  for_each unmapped_rooms map_room.

Definition create_groupchat_room (room_jid : string) : M unit :=
  flag <- cfg groupchat_flag ;;
  room <- create_mapped_room (flag ++ room_jid) None ;;
  jids <- gets groupchat_jids ;;
  when (negb (Py.mem room_jid jids))
       (modify (fun s => with_groupchat_jids (groupchat_jids s ++ [room_jid]) s)) ;;
  users <- cfg users_to_invite ;;
  for_each users (fun user_id =>
    match room with
    | Some rid => invite_user rid user_id
    | None => raise AttributeError
    end).

Definition matrix_control_message (room : MatrixRoom) (event : MatrixEvent) : M unit :=
  me <- cfg bot_id ;;
  if String.eqb (sender event) me then ret tt
  else
    log DEBUG "matrix_control_message: {}  {}" ;;
    when (String.eqb (msgtype event) "m.text") (
      let message_body := body event in
      log INFO ("Matrix received control message: " ++ message_body) ;;
      match Py.split message_body with
      | [] => ret tt
      | part0 :: rest =>
          let command := Py.lower part0 in
          if String.eqb command "refresh" then
            d <- gets topic_room_id_map ;;
            for_each (Dict.keys d) (fun jid =>
              emit (SendPresence (Some jid) (Some "probe"))) ;;
            emit (SendPresence None None) ;;
            emit GetRoster
          else if String.eqb command "purge" then
            control <- special_room "control" ;;
            send_text control "Purging unused rooms" ;;
            unmapped <- get_unmapped_rooms ;;
            empty <- get_empty_rooms ;;
            for_each (unmapped ++ empty) (fun room =>
              log INFO "Leaving room {r.room_id} ({r.name}) [{r.topic}]" ;;
              t <- room_topic room ;;
              flag <- cfg groupchat_flag ;;
              match t with
              | None => raise AttributeError
              | Some t =>
                  when (Py.startswith t flag)
                       (emit (LeaveMUC (Py.slice_from (String.length flag) t) None))
              end ;;
              leave room)
          else
            match rest with
            | [] => ret tt
            | room_jid :: _ =>
                if String.eqb command "joinmuc" then
                  log INFO ("XMPP MUC join: " ++ room_jid) ;;
                  create_groupchat_room room_jid ;;
                  nick <- cfg xmpp_groupchat_nick ;;
                  emit (JoinMUC room_jid nick)
                else if String.eqb command "leavemuc" then
                  log INFO ("XMPP MUC leave: " ++ room_jid) ;;
                  nick <- cfg xmpp_groupchat_nick ;;
                  emit (LeaveMUC room_jid (Some nick)) ;;
                  flag <- cfg groupchat_flag ;;
                  room <- get_room_for_jid (flag ++ room_jid) ;;
                  leave room
                else ret tt
            end
      end).

Definition matrix_all_chat_message (room : MatrixRoom) (event : MatrixEvent) : M unit :=
  me <- cfg bot_id ;;
  if String.eqb (sender event) me then ret tt
  else
    log DEBUG "matrix_all_chat_message: {}  {}" ;;
    send_notice (room_id room) "Don't talk in here! Nobody gets your messages.".

Definition matrix_message (room : MatrixRoom) (event : MatrixEvent) : M unit :=
  me <- cfg bot_id ;;
  if String.eqb (sender event) me then ret tt
  else
    specials <- gets special_rooms ;;
    when (match topic room with Some t => smem t specials | None => false end)
         (log ERROR "matrix_message called on special channel") ;;
    log DEBUG "matrix_message: {}  {}" ;;
    when (String.eqb (msgtype event) "m.text") (
      let message_body := body event in
      flag <- cfg groupchat_flag ;;
      t <- match topic room with
           | Some t => ret t
           | None => raise AttributeError
           end ;;
      let '(jid, message_type) :=
        if Py.startswith t flag
        then (Py.slice_from (String.length flag) t, "groupchat")
        else (t, "chat") in
      nicks <- gets jid_nick_map ;;
      name <- subscript nicks jid ;;
      log INFO ("Matrix received message to " ++ jid ++ " : " ++ message_body) ;;
      emit (SendMessage jid message_body message_type) ;;
      mirror <- cfg send_messages_to_all_chat ;;
      when mirror (
        all_chat <- special_room "all_chat" ;;
        send_notice all_chat ("To " ++ name ++ " : " ++ message_body))).

Definition xmpp_message (message : Message) : M unit :=
  log INFO ("XMPP received " ++ full (msg_from message) ++ " : " ++ msg_body message) ;;
  when (String.eqb (msg_type message) "normal" || String.eqb (msg_type message) "chat") (
    let from_jid := bare (msg_from message) in
    nicks <- gets jid_nick_map ;;
    from_name <- subscript nicks from_jid ;;
    jids <- gets groupchat_jids ;;
    if Py.mem from_jid jids then
      log WARNING "Normal chat message from a groupchat, ignoring..."
    else
      room <- get_room_for_jid from_jid ;;
      send_text room (msg_body message) ;;
      mirror <- cfg send_messages_to_all_chat ;;
      when mirror (
        all_chat <- special_room "all_chat" ;;
        send_text all_chat ("From " ++ from_name ++ ": " ++ msg_body message))).

Definition xmpp_groupchat_message (message : Message) : M unit :=
  log INFO ("XMPP MUC received " ++ full (msg_from message) ++ " : " ++ msg_body message) ;;
  when (String.eqb (msg_type message) "groupchat") (
    let from_jid := bare (msg_from message) in
    let from_name := msg_mucnick message in
    mute <- cfg groupchat_mute_own_nick ;;
    nick <- cfg xmpp_groupchat_nick ;;
    if mute && String.eqb from_name nick then ret tt
    else
      flag <- cfg groupchat_flag ;;
      room <- get_room_for_jid (flag ++ from_jid) ;;
      send_text room (from_name ++ ": " ++ msg_body message) ;;
      mirror <- cfg send_messages_to_all_chat ;;
      when mirror (
        all_chat <- special_room "all_chat" ;;
        send_text all_chat
          ("Room " ++ from_jid ++ ", from " ++ from_name ++ ": " ++ msg_body message))).

Definition xmpp_presence_available (presence : Presence) : M unit :=
  log DEBUG ("XMPP received " ++ full (pres_from presence) ++ " : (available)") ;;
  let jid := bare (pres_from presence) in
  disabled <- cfg disabled_jids ;;
  if Py.mem jid disabled then ret tt
  else
    nicks <- gets jid_nick_map ;;
    if negb (Py.mem jid (Dict.keys nicks)) then
      log ERROR "JID NOT IN ROSTER!?" ;;
      emit GetRoster
    else
      relay <- cfg send_presences_to_control ;;
      when relay (
        name <- subscript nicks jid ;;
        control <- special_room "control" ;;
        send_notice control (name ++ " available (" ++ jid ++ ")")).

Definition xmpp_presence_unavailable (presence : Presence) : M unit :=
  log DEBUG ("XMPP received " ++ full (pres_from presence) ++ " : (unavailable)") ;;
  let jid := bare (pres_from presence) in
  disabled <- cfg disabled_jids ;;
  if Py.mem jid disabled then ret tt
  else
    relay <- cfg send_presences_to_control ;;
    when relay (
      nicks <- gets jid_nick_map ;;
      name <- subscript nicks jid ;;
      control <- special_room "control" ;;
      send_notice control (name ++ " unavailable (" ++ jid ++ ")")).

(** [xmpp_roster_update], in the order of its text: the snapshot of the
    roster (lines 474-480), the rooms to create (485-493), and the
    invitations (497-501). *)
Definition snapshot_roster : M (list (string * RosterItem)) :=
  rosters <- gets roster ;;
  let rjids := Dict.keys rosters in
  when (Nat.ltb 1 (List.length rjids))
       (raise (Exception "Not sure what to do with more than one roster...")) ;;
  roster0 <- match rjids with
             | [] => raise IndexError
             | rjid :: _ => subscript rosters rjid
             end ;;
  modify (with_roster_dict roster0) ;;
  gets roster_dict.

Definition create_missing_room (entry : string * RosterItem) : M unit :=
  let '(jid, info) := entry in
  if negb (Py.contains_char "@" jid) then
    log WARNING ("Skipping fake jid in roster: " ++ jid)
  else
    disabled <- cfg disabled_jids ;;
    if Py.mem jid disabled then ret tt
    else
      let name := item_name info in
      modify (fun s => with_jid_nick_map (sset jid name (jid_nick_map s)) s) ;;
      create_mapped_room jid (Some name) ;;
      ret tt.

Definition create_missing_rooms (roster : list (string * RosterItem)) : M unit :=
  for_each roster create_missing_room.

Definition invite_to_all_rooms : M unit :=
  l <- get_rooms ;;
  for_each (room_ids l) (fun room =>
    users_in_room <- get_joined_members room ;;
    users <- cfg users_to_invite ;;
    for_each users (fun user_id =>
      when (negb (Py.mem user_id users_in_room)) (invite_user room user_id))).

Definition xmpp_roster_update : M unit :=
  log DEBUG "######### ROSTER UPDATE ###########" ;;
  roster <- snapshot_roster ;;
  map_rooms_by_topic ;;
  create_missing_rooms roster ;;
  log DEBUG "Sending invitations.." ;;
  invite_to_all_rooms ;;
  log DEBUG "######## Done with roster update #######".

(** ** Construction *)

Definition set_add (x : string) (l : list string) : list string :=
  if Py.mem x l then l else l ++ [x].

Definition set_remove (x : string) (l : list string) : list string :=
  filter (fun y => negb (String.eqb x y)) l.

Definition load_config (config : Config) : M unit :=
  modify (fun s =>
    let old := settings s in
    let mirror := cfg_send_messages_to_all_chat config in
    with_settings
      (mkSettings
         (special_room_names old)
         (cfg_groupchat_flag config)
         (match cfg_restore_room_topic config with
          | Some b => b
          | None => restore_room_topic old
          end)
         (cfg_users_to_invite config)
         (cfg_matrix_username config)
         (cfg_xmpp_jid config)
         (cfg_groupchat_nick config)
         mirror
         (match negb mirror, cfg_disable_all_chat_room config with
          | true, Some b => b
          | _, _ => false
          end)
         (cfg_send_presences_to_control config)
         (cfg_groupchat_mute_own_nick config)
         (match cfg_disabled_jids config with
          | Some l =>
              if Py.mem "xmpp_login_jid" l
              then set_remove "xmpp_login_jid" (set_add (cfg_xmpp_jid config) l)
              else l
          | None => disabled_jids old
          end))
      s).

Definition with_special_room_names (x : list (string * string)) (st : Settings) : Settings :=
  mkSettings x (groupchat_flag st) (restore_room_topic st) (users_to_invite st)
    (bot_id st) (xmpp_login_jid st) (xmpp_groupchat_nick st)
    (send_messages_to_all_chat st) (disable_all_chat_room st)
    (send_presences_to_control st) (groupchat_mute_own_nick st) (disabled_jids st).

Definition with_send_messages_to_all_chat (x : bool) (st : Settings) : Settings :=
  mkSettings (special_room_names st) (groupchat_flag st) (restore_room_topic st)
    (users_to_invite st) (bot_id st) (xmpp_login_jid st) (xmpp_groupchat_nick st)
    x (disable_all_chat_room st)
    (send_presences_to_control st) (groupchat_mute_own_nick st) (disabled_jids st).

(** The class attributes, before [__init__] runs. *)
Definition class_defaults : Settings :=
  mkSettings [] "" true [] "" "" "" true false true true [].

(** A bot about to be constructed: the rooms the Matrix account is in,
    the homeserver's next room, and the XMPP account's rosters. *)
Definition new_bot (l : list MatrixRoom) (next : nat)
    (r : list (string * list (string * RosterItem))) : State :=
  mkState class_defaults [] [] [] l next [] r [] [] [].

(** [__init__], in the order of its text: the attributes (lines 52-76),
    the rooms the account is in (79-89), the special rooms (91-98), their
    invitations (101-103), and the XMPP side (106-121).  Building the two
    clients and logging in (lines 66-69) leaves no trace here: the rooms
    and the rosters they give access to are in the state the bot starts
    from. *)
Definition init_attributes (config : Config) : M unit :=
  modify (with_groupchat_jids []) ;;
  modify (with_topic_room_id_map []) ;;
  modify (with_special_rooms [("control", None); ("all_chat", None)]) ;;
  modify (fun s => with_settings
    (with_special_room_names
       [("control", "XMPP Control Room"); ("all_chat", "XMPP All Chat")]
       (settings s)) s) ;;
  load_config config ;;
  disable <- cfg disable_all_chat_room ;;
  when disable (
    modify (fun s => with_settings (with_send_messages_to_all_chat false (settings s)) s) ;;
    modify (fun s =>
      if smem "all_chat" (special_rooms s)
      then with_special_rooms (sremove "all_chat" (special_rooms s)) s else s) ;;
    modify (fun s =>
      if smem "all_chat" (special_room_names (settings s))
      then with_settings
             (with_special_room_names
                (sremove "all_chat" (special_room_names (settings s))) (settings s)) s
      else s)).

Definition recover_rooms : M unit :=
  l <- get_rooms ;;
  for_each (room_ids l) (fun room =>
    update_room_topic room ;;
    t <- room_topic room ;;
    specials <- gets special_rooms ;;
    match t with
    | Some t =>
        if smem t specials then
          log DEBUG ("Recovering special room: " ++ t) ;;
          modify (fun s => with_special_rooms (sset t (Some room) (special_rooms s)) s)
        else
          flag <- cfg groupchat_flag ;;
          when (Py.startswith t flag)
               (modify (fun s =>
                  with_groupchat_jids
                    (groupchat_jids s ++ [Py.slice_from (String.length flag) t]) s))
    | None => raise AttributeError
    end).

Definition setup_special_rooms : M unit :=
  specials <- gets special_rooms ;;
  for_each specials (fun '(topic, room) =>
    room <- match room with
            | None => create_room
            | Some rid => ret rid
            end ;;
    setup_special_room room topic) ;;
  control <- special_room "control" ;;
  add_listener control h_matrix_control_message ;;
  disable <- cfg disable_all_chat_room ;;
  when (negb disable) (
    all_chat <- special_room "all_chat" ;;
    add_listener all_chat h_matrix_all_chat_message).

Definition invite_to_special_rooms : M unit :=
  specials <- gets special_rooms ;;
  for_each (Dict.values specials) (fun room =>
    users <- cfg users_to_invite ;;
    for_each users (fun user_id =>
      match room with
      | Some rid => invite_user rid user_id
      | None => raise AttributeError
      end)).

Definition start_xmpp : M unit :=
  emit (AddEventHandler "roster_update" h_xmpp_roster_update) ;;
  emit (AddEventHandler "message" h_xmpp_message) ;;
  emit (AddEventHandler "presence_available" h_xmpp_presence_available) ;;
  emit (AddEventHandler "presence_unavailable" h_xmpp_presence_unavailable) ;;
  emit (AddEventHandler "groupchat_message" h_xmpp_groupchat_message) ;;
  emit XmppConnect ;;
  emit XmppProcess ;;
  log DEBUG "Rejoining group chats" ;;
  jids <- gets groupchat_jids ;;
  for_each jids (fun room_jid =>
    nick <- cfg xmpp_groupchat_nick ;;
    emit (JoinMUC room_jid nick)) ;;
  log DEBUG "Done with bot init".

Definition __init__ (config : Config) : M unit :=
  init_attributes config ;;
  recover_rooms ;;
  setup_special_rooms ;;
  invite_to_special_rooms ;;
  start_xmpp.

(** ** The events the two clients deliver to the bot *)

Inductive event :=
| ControlMessage (room : MatrixRoom) (e : MatrixEvent)
| AllChatMessage (room : MatrixRoom) (e : MatrixEvent)
| RoomMessage (room : MatrixRoom) (e : MatrixEvent)
| XmppMessage (m : Message)
| GroupchatMessage (m : Message)
| PresenceAvailable (p : Presence)
| PresenceUnavailable (p : Presence)
| RosterUpdate.

Definition dispatch (ev : event) : M unit :=
  match ev with
  | ControlMessage room e => matrix_control_message room e
  | AllChatMessage room e => matrix_all_chat_message room e
  | RoomMessage room e => matrix_message room e
  | XmppMessage m => xmpp_message m
  | GroupchatMessage m => xmpp_groupchat_message m
  | PresenceAvailable p => xmpp_presence_available p
  | PresenceUnavailable p => xmpp_presence_unavailable p
  | RosterUpdate => xmpp_roster_update
  end.

(** Running a computation: the outcome and the state reached. *)
Definition outcome_of {A} (m : M A) (s : State) : outcome A := fst (m s).
Definition state_after {A} (m : M A) (s : State) : State := snd (m s).

(* ================================================================== *)
(** * Sessions used as concrete inputs *)
(* ================================================================== *)

Module Scenario.

Definition config : Config :=
  mkConfig ["@admin:x"] "#" None "@bot:x" "bot@x" "bridge" true true None true None.

Definition text (from body : string) : MatrixEvent := mkEvent from "m.text" body.

Definition control_room : MatrixRoom :=
  mkRoom 0 (Some "control") (Some "XMPP Control Room") (Some "control")
    (Some "XMPP Control Room") ["@bot:x"] true.

(** The administrator types [body] into the control room. *)
Definition say (body : string) : event :=
  ControlMessage control_room (text "@admin:x" body).

Fixpoint run (evs : list event) (s : State) : State :=
  match evs with
  | [] => s
  | ev :: evs' => run evs' (state_after (dispatch ev) s)
  end.

(** A bot started on an account that is in no room yet and has one
    contact. *)
Definition started : State :=
  state_after (__init__ config)
    (new_bot [] 0 [("bot@x", [("alice@x", mkItem "Alice")])]).

(** [user] joins every room the account is in. *)
Definition joins (user : string) (s : State) : State :=
  with_rooms
    (map (fun r => mkRoom (room_id r) (topic r) (name r) (server_topic r)
                     (server_name r) (joined_members r ++ [user]) (in_client r))
         (rooms s))
    (next_room_id s) s.

(** The account is made a member, from elsewhere, of a new room with the
    given topic and members; the client starts listing it. *)
Definition appears (t : option string) (members : list string) (s : State) : State :=
  with_rooms
    (rooms s ++ [mkRoom (next_room_id s) None None t None members true])
    (S (next_room_id s)) s.

End Scenario.

Module Unmuted.
(** A bot configured with [groupchat_mute_own_nick: false] that has joined
    a group chat and synchronised its roster since. *)
Definition config : Config :=
  mkConfig ["@admin:x"] "#" None "@bot:x" "bot@x" "bridge" true false None false None.

Definition session : State :=
  Scenario.run [Scenario.say "joinmuc team@conf.x"; RosterUpdate]
    (state_after (__init__ config)
       (new_bot [] 0 [("bot@x", [("alice@x", mkItem "Alice")])])).

Definition echo : Message :=
  mkMessage (mkJID "team@conf.x/bridge" "team@conf.x") "groupchat" "hello" "bridge".
End Unmuted.

Module Purge.
(** The account is in a room with topic [bob@x] and two joined members
    when the bot starts.  The administrator then joins the two special
    rooms, the account is made a member of a room without a topic, and
    the roster is synchronised, which indexes the first room. *)
Definition bobs_room : MatrixRoom :=
  mkRoom 0 None None (Some "bob@x") (Some "Bob") ["@bot:x"; "@bob:x"] true.

Definition joins_room (user : string) (rid : nat) (s : State) : State :=
  with_rooms
    (update_room rid
       (fun r => mkRoom (room_id r) (topic r) (name r) (server_topic r)
                   (server_name r) (joined_members r ++ [user]) (in_client r))
       (rooms s))
    (next_room_id s) s.

Definition session : State :=
  Scenario.run [RosterUpdate]
    (Scenario.appears None ["@bot:x"; "@admin:x"]
       (joins_room "@admin:x" 2
          (joins_room "@admin:x" 1
             (state_after (__init__ Scenario.config)
                (new_bot [bobs_room] 1 [("bot@x", [("bob@x", mkItem "Bob")])]))))).

Definition control_room : MatrixRoom :=
  mkRoom 1 (Some "control") (Some "XMPP Control Room") (Some "control")
    (Some "XMPP Control Room") ["@bot:x"; "@admin:x"] true.

Definition purge : event :=
  ControlMessage control_room (Scenario.text "@admin:x" "purge").
End Purge.

(* ================================================================== *)
(** * The vocabulary of the properties *)
(* ================================================================== *)

(** ** Calls counted *)

(** The rooms created and the invitations sent, in order, among a list of
    calls. *)
Definition created (cs : list call) : list nat :=
  flat_map (fun c => match c with CreateRoom r => [r] | _ => [] end) cs.

Definition invitations (cs : list call) : list (nat * string) :=
  flat_map (fun c => match c with InviteUser r u => [(r, u)] | _ => [] end) cs.

Definition invite_calls (l : list (nat * string)) : list call :=
  map (fun p => InviteUser (fst p) (snd p)) l.

(** ** Frames of rooms *)

(** What of a room neither a renaming nor a refresh of the cached topic
    changes: its identity, the topic the server has, who has joined, and
    whether the client lists it. *)
Record Frame := mkFrame {
  f_id : nat;
  f_topic : option string;
  f_members : list string;
  f_listed : bool
}.

Definition frame (r : MatrixRoom) : Frame :=
  mkFrame (room_id r) (server_topic r) (joined_members r) (in_client r).

Definition frames (s : State) : list Frame := map frame (rooms s).

Definition find_frame (rid : nat) (fs : list Frame) : option Frame :=
  find (fun f => Nat.eqb (f_id f) rid) fs.

(** The rooms the client lists. *)
Definition client_ids (s : State) : list nat := room_ids (filter in_client (rooms s)).

Definition listed_ids (fs : list Frame) : list nat := map f_id (filter f_listed fs).

(** ** What [get_unmapped_rooms] computes *)

(** The identities of the special rooms, when each slot holds a room. *)
Fixpoint ids_of (l : list (option nat)) : option (list nat) :=
  match l with
  | [] => Some []
  | None :: _ => None
  | Some rid :: l' =>
      match ids_of l' with
      | Some ids => Some (rid :: ids)
      | None => None
      end
  end.

(** The values the function holds valid, and the listed rooms that are
    not among them. *)
Definition valid_refs (s : State) (specials : list nat) : list room_ref :=
  Dict.values (topic_room_id_map s) ++ map RoomId specials.

Definition unmapped_of (valid : list room_ref) (ids : list nat) : list nat :=
  filter (fun rid => negb (existsb (is_room_id rid) valid)) ids.

(** ** Well-formed states and how handlers change them *)

(** Identities come from the homeserver's counter: those of the rooms are
    distinct and, like those the index and the registry of special rooms
    refer to, were allocated before the next one. *)
Record wf (s : State) : Prop := mkWf {
  wf_nodup : NoDup (map f_id (frames s));
  wf_rooms : forall rid, In rid (map f_id (frames s)) -> rid < next_room_id s;
  wf_index : forall k rid,
      In (k, RoomId rid) (topic_room_id_map s) -> rid < next_room_id s;
  wf_specials : forall k rid,
      In (k, Some rid) (special_rooms s) -> rid < next_room_id s
}.

(** The other updates a handler can make keep the frames, the settings and
    the rest of what decides the next synchronisation, create no room and
    invite nobody. *)
Record stable (s s' : State) : Prop := mkStable {
  st_settings : settings s' = settings s;
  st_specials : special_rooms s' = special_rooms s;
  st_jids : groupchat_jids s' = groupchat_jids s;
  st_frames : frames s' = frames s;
  st_next : next_room_id s' = next_room_id s;
  st_roster : roster s' = roster s;
  st_created : created (calls s') = created (calls s);
  st_invited : invitations (calls s') = invitations (calls s)
}.

(** Two states that agree on what decides how rooms are found. *)
Record core_eq (s s' : State) : Prop := mkCore {
  ce_index : topic_room_id_map s' = topic_room_id_map s;
  ce_frames : frames s' = frames s;
  ce_specials : special_rooms s' = special_rooms s;
  ce_next : next_room_id s' = next_room_id s;
  ce_settings : settings s' = settings s;
  ce_jids : groupchat_jids s' = groupchat_jids s;
  ce_roster : roster s' = roster s
}.

(** What the creation of a room for [t] changes. *)
Record adds_room (s s' : State) (t : string) : Prop := mkAdds {
  ar_absent : sget t (topic_room_id_map s) = None;
  ar_settings : settings s' = settings s;
  ar_specials : special_rooms s' = special_rooms s;
  ar_jids : groupchat_jids s' = groupchat_jids s;
  ar_roster : roster s' = roster s;
  ar_next : next_room_id s' = S (next_room_id s);
  ar_index : topic_room_id_map s' =
             sset t (RoomObj (next_room_id s)) (topic_room_id_map s);
  ar_frames : frames s' =
              frames s ++ [mkFrame (next_room_id s) (Some t) [bot_id (settings s)] true]
}.

(** ** How an address is indexed *)

(** An address indexed by the identity of a listed room. *)
Definition by_id (s : State) (jid : string) : Prop :=
  exists r, sget jid (topic_room_id_map s) = Some (RoomId r) /\ In r (client_ids s).

(** A room no entry of the index names by identity and no special slot
    holds: [get_unmapped_rooms] lists it when the client does. *)
Definition unreferenced (s : State) (r : nat) : Prop :=
  (forall k, ~ In (k, RoomId r) (topic_room_id_map s)) /\
  (forall k, ~ In (k, Some r) (special_rooms s)).

(** An address indexed by the room object that [create_mapped_room] made
    for it. *)
Definition by_obj (s : State) (jid : string) : Prop :=
  exists r f,
    sget jid (topic_room_id_map s) = Some (RoomObj r) /\
    find_frame r (frames s) = Some f /\
    f_listed f = true /\
    f_topic f = Some jid /\
    unreferenced s r.

(** The addresses of a roster for which [create_missing_room] goes as far
    as the index. *)
Definition wanted (s : State) (jid : string) : Prop :=
  Py.contains_char "@" jid = true /\
  Py.mem jid (disabled_jids (settings s)) = false /\
  Py.mem jid (groupchat_jids s) = false.

(** What a synchronisation that returns leaves behind. *)
Definition synchronised (s : State) : Prop :=
  wf s /\
  (exists specials, ids_of (Dict.values (special_rooms s)) = Some specials) /\
  exists j R,
    roster s = [(j, R)] /\
    forall jid info, In (jid, info) R -> wanted s jid -> by_id s jid \/ by_obj s jid.

(** ** Invitations a synchronisation owes *)

(** For one room: the configured invitees who have not joined it. *)
Definition pending_in (users : list string) (f : Frame) : list (nat * string) :=
  map (fun u => (f_id f, u))
      (filter (fun u => negb (Py.mem u (f_members f))) users).

(** The invitations a synchronisation sends from state [s]: one for each
    listed room and each configured invitee who has not joined it. *)
Definition pending_invitations (s : State) : list (nat * string) :=
  flat_map (pending_in (users_to_invite (settings s)))
           (filter f_listed (frames s)).

(** ** The life of a bot *)

(** A computation that assigns neither a setting nor a slot of
    [special_rooms], however it ends. *)
Definition keeps {A} (m : M A) : Prop :=
  forall s, settings (snd (m s)) = settings s /\
            special_rooms (snd (m s)) = special_rooms s.

(** An invariant of a computation, however it ends. *)
Definition preserves (I : State -> Prop) {A} (m : M A) : Prop :=
  forall s, I s -> I (snd (m s)).

(** The states a bot built from [config] goes through: construction,
    any event handled (whether the handler returns or raises), and
    anything the two networks do meanwhile, which leaves the bot's own
    attributes alone. *)
Definition same_bot (s s' : State) : Prop :=
  settings s' = settings s /\
  topic_room_id_map s' = topic_room_id_map s /\
  special_rooms s' = special_rooms s /\
  groupchat_jids s' = groupchat_jids s.

Inductive reachable (config : Config) : State -> Prop :=
| reach_init l next r :
    reachable config (state_after (__init__ config) (new_bot l next r))
| reach_event s ev :
    reachable config s -> reachable config (state_after (dispatch ev) s)
| reach_world s s' :
    reachable config s -> same_bot s s' -> reachable config s'.


(** ** What handlers leave alone *)

(** A computation whose final state, however it ends, is related to its
    initial state by [R]. *)
Definition respects (R : State -> State -> Prop) {A} (m : M A) : Prop :=
  forall s, R s (snd (m s)).

(** Nothing is taken out of the index or of the list of group chats. *)
Definition only_grows (s s' : State) : Prop :=
  (forall k, smem k (topic_room_id_map s) = true ->
             smem k (topic_room_id_map s') = true) /\
  (forall j, Py.mem j (groupchat_jids s) = true ->
             Py.mem j (groupchat_jids s') = true).

(** The registry of special rooms is the same and the index names no
    further room by its identity. *)
Definition no_new_identity (s s' : State) : Prop :=
  special_rooms s' = special_rooms s /\
  forall k r, In (k, RoomId r) (topic_room_id_map s') ->
              In (k, RoomId r) (topic_room_id_map s).

(** No entry of the index names a special room by its identity. *)
Definition index_clear_of_specials (s : State) : Prop :=
  forall k r, In (k, RoomId r) (topic_room_id_map s) ->
              ~ In (Some r) (Dict.values (special_rooms s)).

(** The same, but for the room [x]. *)
Definition no_new_identity_but (x : nat) (s s' : State) : Prop :=
  special_rooms s' = special_rooms s /\
  forall k r, In (k, RoomId r) (topic_room_id_map s') ->
              In (k, RoomId r) (topic_room_id_map s) \/ r = x.

(** The index is the same. *)
Definition same_index (s s' : State) : Prop :=
  topic_room_id_map s' = topic_room_id_map s.

(** ** Commands and names *)

(** The token lists the control room acts on: [refresh] and [purge] with
    anything after them, [joinmuc] and [leavemuc] with an argument; the
    first token in any case. *)
Definition recognised (parts : list string) : bool :=
  match parts with
  | [] => false
  | word :: rest =>
      let command := Py.lower word in
      String.eqb command "refresh" || String.eqb command "purge" ||
      (match rest with [] => false | _ :: _ => true end &&
       (String.eqb command "joinmuc" || String.eqb command "leavemuc"))
  end.

(** The name [create_mapped_room] gives a room: the one asked for, or the
    topic when none or an empty one is. *)
Definition expected_name (topic : string) (name0 : option string) : string :=
  match name0 with
  | None | Some EmptyString => topic
  | Some n => n
  end.

(** ** Addresses left out of the bridge *)

(** The set of disabled addresses is the same. *)
Definition same_disabled (s s' : State) : Prop :=
  disabled_jids (settings s') = disabled_jids (settings s).

(** ** Names of contacts *)


(** ** What [purge] leaves *)

(** What [get_empty_rooms] computes: the listed rooms with fewer than two
    joined members. *)
Definition empty_ids (s : State) : list nat :=
  room_ids (filter (fun r => Nat.ltb (List.length (joined_members r)) 2)
                   (filter in_client (rooms s))).

(** The rooms [purge] goes through, in its order. *)
Definition purge_targets (s : State) (specials : list nat) : list nat :=
  unmapped_of (valid_refs s specials) (client_ids s) ++ empty_ids s.

(** [room.topic] for the room object [r], as cached. *)
Definition cached_topic (s : State) (r : nat) : option string :=
  match find_room r (rooms s) with
  | Some room => topic room
  | None => None
  end.

(** The calls made to leave one room: the group chat first when the
    topic carries the flag, then the room. *)
Definition leave_calls (s : State) (r : nat) : list call :=
  match cached_topic s r with
  | Some t =>
      (if Py.startswith t (groupchat_flag (settings s))
       then [LeaveMUC (Py.slice_from (String.length (groupchat_flag (settings s))) t) None]
       else [])
      ++ [LeaveRoom r]
  | None => []
  end.

(** A room object once the rooms [done] have been left. *)
Definition left (done : list nat) (r : MatrixRoom) : MatrixRoom :=
  if existsb (Nat.eqb (room_id r)) done then unlisted r else r.

(** ** Topics set on rooms *)



(** ** The registry of special rooms *)

(** The slots of the registry are those the settings ask for: [control],
    and [all_chat] unless the all-chat room is disabled. *)
Definition slots (s : State) : Prop :=
  Dict.keys (special_rooms s) =
    if disable_all_chat_room (settings s) then ["control"] else ["control"; "all_chat"].

(** Each of these slots holds a room. *)
Definition registry_complete (s : State) : Prop :=
  exists control,
    if disable_all_chat_room (settings s)
    then special_rooms s = [("control", Some control)]
    else exists all_chat,
           special_rooms s = [("control", Some control); ("all_chat", Some all_chat)].

(** ** Rooms without a topic *)

(** The room object [x] has no cached topic and the server has none to
    give. *)
Definition topicless (s : State) (x : nat) : Prop :=
  exists ro, find_room x (rooms s) = Some ro /\
             topic ro = None /\ server_topic ro = None.

(* ================================================================== *)
(** * Facts about dictionaries and the monad *)
(* ================================================================== *)

Section DictFacts.
Context {V : Type}.
Implicit Types (d : list (string * V)) (k : string) (v : V).

Lemma sget_sset_same d k v : sget k (sset k v d) = Some v.
Proof.
  induction d as [|[k' v'] d IH]; simpl.
  - now rewrite String.eqb_refl.
  - destruct (String.eqb k k') eqn:E; simpl; rewrite E; auto.
Qed.

Lemma sget_sset_other d k k' v : k' <> k -> sget k' (sset k v d) = sget k' d.
Proof.
  intros Hne. apply String.eqb_neq in Hne.
  induction d as [|[k0 v0] d IH]; simpl.
  - now rewrite Hne.
  - destruct (String.eqb k k0) eqn:E; simpl.
    + apply String.eqb_eq in E. subst k0. now rewrite Hne.
    + now rewrite IH.
Qed.

Lemma sget_none_keys d k : sget k d = None <-> Py.mem k (Dict.keys d) = false.
Proof.
  induction d as [|[k' v'] d IH]; simpl.
  - tauto.
  - destruct (String.eqb k k'); simpl; [split; discriminate | exact IH].
Qed.

Lemma sget_in d k v : sget k d = Some v -> In (k, v) d.
Proof.
  induction d as [|[k' v'] d IH]; simpl; [discriminate|].
  destruct (String.eqb k k') eqn:E.
  - apply String.eqb_eq in E. intros [= ->]. left. now subst.
  - auto.
Qed.

Lemma in_sset d k v k0 v0 :
  In (k0, v0) (sset k v d) -> In (k0, v0) d \/ (k0 = k /\ v0 = v).
Proof.
  induction d as [|[k' v'] d IH]; simpl.
  - intros [[= <- <-]|[]]. now right.
  - destruct (String.eqb k k') eqn:E; simpl.
    + apply String.eqb_eq in E. subst k'.
      intros [[= <- <-]|H]; [now right | now left; right].
    + intros [H|H]; [now left; left|].
      destruct (IH H) as [H'|H']; [now left; right | now right].
Qed.

Lemma keys_sset_present d k v : smem k d = true -> Dict.keys (sset k v d) = Dict.keys d.
Proof.
  unfold Dict.mem, Dict.keys.
  induction d as [|[k' v'] d IH]; simpl; [discriminate|].
  destruct (String.eqb k k') eqn:E; simpl; [reflexivity|].
  intros H. now rewrite IH.
Qed.
End DictFacts.

Lemma with_logs_same (s : State) : with_logs (logs s) s = s.
Proof. now destruct s. Qed.

(** Reading a field of an updated state. *)
Ltac fields :=
  cbn [settings topic_room_id_map special_rooms groupchat_jids rooms
       next_room_id jid_nick_map roster roster_dict calls logs
       with_settings with_topic_room_id_map with_special_rooms
       with_groupchat_jids with_rooms with_jid_nick_map with_roster_dict
       with_calls with_logs fst snd] in *.

(** Unfolding the monad's operations. *)
Ltac unfold_monad :=
  unfold outcome_of, state_after, cfg, when, log, emit, subscript in *;
  unfold bind, ret, raise, gets, modify in *.

(* ================================================================== *)
(** * Messages that are not text *)
(* ================================================================== *)

(** C10.  A room message whose [msgtype] is not ['m.text'] makes neither the
    control-room handler nor the mapped-room handler do anything: both
    return normally, issue no call to either network and leave the state
    as it was, log records apart. *)
Theorem non_text_message_is_ignored :
  forall (s : State) (room : MatrixRoom) (e : MatrixEvent),
    msgtype e <> "m.text" ->
    (exists l, matrix_control_message room e s = (Ok tt, with_logs l s)) /\
    (exists l, matrix_message room e s = (Ok tt, with_logs l s)).
Proof.
  intros s room e Hty. apply String.eqb_neq in Hty.
  unfold matrix_control_message, matrix_message, bind, cfg, gets, when, log, modify, ret.
  rewrite Hty.
  destruct (String.eqb (sender e) (bot_id (settings s))).
  - split; exists (logs s); now rewrite with_logs_same.
  - split; [eexists; reflexivity|].
    destruct (match topic room with Some t => smem t (special_rooms s) | None => false end);
      eexists; reflexivity.
Qed.

Lemma non_text_message_is_ignored_witness :
  (exists l, matrix_control_message Scenario.control_room
               (mkEvent "@admin:x" "m.image" "cat.png") Scenario.started
             = (Ok tt, with_logs l Scenario.started)) /\
  (exists l, matrix_message Scenario.control_room
               (mkEvent "@admin:x" "m.image" "cat.png") Scenario.started
             = (Ok tt, with_logs l Scenario.started)).
Proof.
  apply (non_text_message_is_ignored Scenario.started Scenario.control_room
           (mkEvent "@admin:x" "m.image" "cat.png")).
  discriminate.
Defined.

(* ================================================================== *)
(** * The bridge's own messages *)
(* ================================================================== *)

(** C4, as stated, fails: a group message that carries the bridge's own
    nickname is posted to the mapped room when muting is switched off. *)
Lemma own_nick_relayed_when_unmuted :
  ~ (forall (s : State) (m : Message),
       msg_type m = "groupchat" ->
       msg_mucnick m = xmpp_groupchat_nick (settings s) ->
       calls (state_after (xmpp_groupchat_message m) s) = calls s).
Proof.
  intros H.
  specialize (H Unmuted.session Unmuted.echo eq_refl eq_refl).
  vm_compute in H. discriminate H.
Qed.

(** C4, amended.  A room message sent by the bot's own Matrix identity
    makes each of the three room handlers return at once, with the state
    untouched, whatever the settings are.  A group message carrying the
    bridge's own nickname is dropped, with nothing but a log record, when
    [groupchat_mute_own_nick] is set; when it is not set, the message is
    relayed like any other: posted as "<nick>: <body>" in the room the
    index gives for the group chat, when the client lists that room. *)
Theorem own_messages_are_not_relayed :
  forall (s : State) (room : MatrixRoom) (e : MatrixEvent) (m : Message),
    (sender e = bot_id (settings s) ->
     matrix_control_message room e s = (Ok tt, s) /\
     matrix_all_chat_message room e s = (Ok tt, s) /\
     matrix_message room e s = (Ok tt, s)) /\
    (msg_mucnick m = xmpp_groupchat_nick (settings s) ->
     groupchat_mute_own_nick (settings s) = true ->
     exists l, xmpp_groupchat_message m s = (Ok tt, with_logs l s)) /\
    (msg_mucnick m = xmpp_groupchat_nick (settings s) ->
     groupchat_mute_own_nick (settings s) = false ->
     msg_type m = "groupchat" ->
     forall r,
       sget (groupchat_flag (settings s) ++ bare (msg_from m))%string
            (topic_room_id_map s) = Some (RoomId r) ->
       existsb (Nat.eqb r) (room_ids (filter in_client (rooms s))) = true ->
       exists rest,
         calls (state_after (xmpp_groupchat_message m) s) =
           calls s ++ SendText r (msg_mucnick m ++ ": " ++ msg_body m) :: rest).
Proof.
  intros s room e m. split; [|split].
  - intros Hsender.
    unfold matrix_control_message, matrix_all_chat_message, matrix_message,
      bind, cfg, gets, when, log, modify, ret.
    rewrite Hsender, String.eqb_refl. repeat split.
  - intros Hnick Hmute.
    unfold xmpp_groupchat_message, bind, cfg, gets, when, log, modify, ret.
    destruct (String.eqb (msg_type m) "groupchat"); simpl; [|eexists; reflexivity].
    rewrite Hmute, Hnick, String.eqb_refl. simpl.
    eexists; reflexivity.
  - intros _ Hmute Hty r Hidx Hlisted.
    unfold xmpp_groupchat_message, get_room_for_jid, client_room, get_rooms,
      special_room, send_text.
    unfold_monad. fields.
    rewrite Hty. cbn [String.eqb Ascii.eqb Bool.eqb]. fields.
    rewrite Hmute. cbn [andb]. fields. rewrite Hidx. fields. rewrite Hlisted. fields.
    destruct (send_messages_to_all_chat (settings s)); fields;
      [|eexists; reflexivity].
    destruct (sget "all_chat" (special_rooms s)) as [[a|]|]; fields;
      [rewrite <- app_assoc|..]; eexists; reflexivity.
Qed.

Lemma own_messages_are_not_relayed_witness :
  (matrix_control_message Scenario.control_room (Scenario.text "@bot:x" "purge")
     Scenario.started = (Ok tt, Scenario.started) /\
   matrix_all_chat_message Scenario.control_room (Scenario.text "@bot:x" "purge")
     Scenario.started = (Ok tt, Scenario.started) /\
   matrix_message Scenario.control_room (Scenario.text "@bot:x" "purge")
     Scenario.started = (Ok tt, Scenario.started)) /\
  (exists l, xmpp_groupchat_message Unmuted.echo Scenario.started
             = (Ok tt, with_logs l Scenario.started)) /\
  (exists rest,
     calls (state_after (xmpp_groupchat_message Unmuted.echo) Unmuted.session) =
       calls Unmuted.session ++
       SendText 2 (msg_mucnick Unmuted.echo ++ ": " ++ msg_body Unmuted.echo) :: rest).
Proof.
  split; [|split].
  - apply (proj1 (own_messages_are_not_relayed Scenario.started Scenario.control_room
                    (Scenario.text "@bot:x" "purge") Unmuted.echo)).
    reflexivity.
  - apply (proj1 (proj2 (own_messages_are_not_relayed Scenario.started
                           Scenario.control_room (Scenario.text "@bot:x" "purge")
                           Unmuted.echo)));
      reflexivity.
  - apply (proj2 (proj2 (own_messages_are_not_relayed Unmuted.session
                           Scenario.control_room (Scenario.text "@bot:x" "purge")
                           Unmuted.echo)));
      vm_compute; reflexivity.
Defined.

(* ================================================================== *)
(** * Presence *)
(* ================================================================== *)

(** C5.  For an address that is neither disabled nor in the roster
    snapshot, the handler of "available" logs an error and asks for the
    roster, while the handler of "unavailable" has no such test: with
    presence relay switched on it looks the name up and raises [KeyError],
    having asked for nothing. *)
Theorem presence_of_unknown_address :
  forall (s : State) (p : Presence),
    Py.mem (bare (pres_from p)) (disabled_jids (settings s)) = false ->
    Py.mem (bare (pres_from p)) (Dict.keys (jid_nick_map s)) = false ->
    send_presences_to_control (settings s) = true ->
    outcome_of (xmpp_presence_available p) s = Ok tt /\
    calls (state_after (xmpp_presence_available p) s) = calls s ++ [GetRoster] /\
    outcome_of (xmpp_presence_unavailable p) s = Raise KeyError /\
    calls (state_after (xmpp_presence_unavailable p) s) = calls s.
Proof.
  intros s p Hdis Hnew Hrelay.
  pose proof (proj2 (sget_none_keys (jid_nick_map s) _) Hnew) as Hget.
  unfold xmpp_presence_available, xmpp_presence_unavailable.
  unfold_monad. fields.
  rewrite Hdis. fields. rewrite Hnew. fields.
  rewrite Hrelay. fields. rewrite Hget. auto.
Qed.

Lemma presence_of_unknown_address_witness :
  let p := mkPresence (mkJID "carol@x/phone" "carol@x") in
  outcome_of (xmpp_presence_available p) Scenario.started = Ok tt /\
  calls (state_after (xmpp_presence_available p) Scenario.started)
    = calls Scenario.started ++ [GetRoster] /\
  outcome_of (xmpp_presence_unavailable p) Scenario.started = Raise KeyError /\
  calls (state_after (xmpp_presence_unavailable p) Scenario.started)
    = calls Scenario.started.
Proof.
  intros p.
  apply (presence_of_unknown_address Scenario.started p); reflexivity.
Defined.

(* ================================================================== *)
(** * Direct messages from a group-chat address *)
(* ================================================================== *)

(** C6.  A normal or chat message from a known group-chat address that has
    no entry in the roster snapshot is not dropped with a warning: the name
    is looked up before the group-chat test, and the handler raises
    [KeyError] with the state untouched but for the first log record. *)
Theorem direct_message_from_groupchat_raises :
  forall (s : State) (m : Message),
    msg_type m = "normal" \/ msg_type m = "chat" ->
    Py.mem (bare (msg_from m)) (groupchat_jids s) = true ->
    sget (bare (msg_from m)) (jid_nick_map s) = None ->
    xmpp_message m s =
      (Raise KeyError,
       with_logs (logs s ++ [(INFO, ("XMPP received " ++ full (msg_from m)
                                       ++ " : " ++ msg_body m)%string)]) s).
Proof.
  intros s m Hty _ Hget.
  assert (String.eqb (msg_type m) "normal" || String.eqb (msg_type m) "chat" = true)
    as Hcond by (destruct Hty as [-> | ->]; reflexivity).
  unfold xmpp_message. unfold_monad. fields.
  rewrite Hcond. fields. rewrite Hget. reflexivity.
Qed.

Lemma direct_message_from_groupchat_raises_witness :
  let s := Scenario.run [Scenario.say "joinmuc team@conf.x"] Scenario.started in
  let m := mkMessage (mkJID "team@conf.x" "team@conf.x") "chat" "hi" "" in
  xmpp_message m s =
    (Raise KeyError, with_logs (logs s ++ [(INFO, "XMPP received team@conf.x : hi")]) s).
Proof.
  intros s m.
  apply (direct_message_from_groupchat_raises s m); [right | | ]; reflexivity.
Defined.

(** The companion case: when the address does have a name in the roster
    snapshot, the message is dropped with a warning. *)
Lemma direct_message_from_groupchat_dropped :
  forall (s : State) (m : Message) (nick : string),
    msg_type m = "normal" \/ msg_type m = "chat" ->
    Py.mem (bare (msg_from m)) (groupchat_jids s) = true ->
    sget (bare (msg_from m)) (jid_nick_map s) = Some nick ->
    outcome_of (xmpp_message m) s = Ok tt /\
    calls (state_after (xmpp_message m) s) = calls s.
Proof.
  intros s m nick Hty Hmem Hget.
  assert (String.eqb (msg_type m) "normal" || String.eqb (msg_type m) "chat" = true)
    as Hcond by (destruct Hty as [-> | ->]; reflexivity).
  unfold xmpp_message. unfold_monad. fields.
  rewrite Hcond. fields. rewrite Hget. fields. rewrite Hmem. auto.
Qed.

(* ================================================================== *)
(** * Rooms and the index *)
(* ================================================================== *)

Lemma room_ids_update rid f l :
  (forall r, room_id (f r) = room_id r) ->
  room_ids (update_room rid f l) = room_ids l.
Proof.
  intros Hf. unfold room_ids, update_room. rewrite map_map.
  apply map_ext. intros r. destruct (Nat.eqb (room_id r) rid); auto.
Qed.

Lemma find_room_some rid l : In rid (room_ids l) -> exists r, find_room rid l = Some r.
Proof.
  unfold find_room, room_ids. induction l as [|r l IH]; simpl; [tauto|].
  intros [H|H].
  - subst rid. rewrite Nat.eqb_refl. eauto.
  - destruct (Nat.eqb (room_id r) rid); eauto.
Qed.

Lemma find_room_id rid l r : find_room rid l = Some r -> room_id r = rid.
Proof.
  unfold find_room. intros H. apply find_some in H. now apply Nat.eqb_eq.
Qed.

Lemma find_room_in rid l r : find_room rid l = Some r -> In r l.
Proof. unfold find_room. intros H. now apply find_some in H. Qed.

Lemma for_each_emit {A} (f : A -> call) (l : list A) (s : State) :
  for_each l (fun x s0 => (Ok tt, with_calls (calls s0 ++ [f x]) s0)) s
  = (Ok tt, with_calls (calls s ++ map f l) s).
Proof.
  revert s. induction l as [|x l IH]; intros s; simpl.
  - rewrite app_nil_r. now destruct s.
  - unfold bind. rewrite IH. fields. now rewrite <- app_assoc.
Qed.

(** A value of the index that is a room object resolves to no room. *)
Lemma get_room_for_jid_object s jid r :
  sget jid (topic_room_id_map s) = Some (RoomObj r) ->
  get_room_for_jid jid s = (Raise KeyError, s).
Proof.
  intros H. unfold get_room_for_jid, client_room, get_rooms. unfold_monad.
  now rewrite H.
Qed.

Lemma create_mapped_room_object s t nm r :
  Py.mem t (groupchat_jids s) = false ->
  sget t (topic_room_id_map s) = Some (RoomObj r) ->
  create_mapped_room t nm s = (Raise KeyError, s).
Proof.
  intros Hmem H. unfold create_mapped_room, client_room, get_rooms, Dict.mem.
  unfold_monad. rewrite Hmem, H. reflexivity.
Qed.

(* ================================================================== *)
(** * The control room *)
(* ================================================================== *)

(** C8.  On [refresh] the bot sends one probe to every key of the index,
    as it stands there, then its own presence, then the roster request.
    A group-chat room is indexed under the flag followed by its address,
    so its probe goes to that flagged text, not to the address. *)
Theorem refresh_probes_index_keys :
  forall (s : State) (room : MatrixRoom) (e : MatrixEvent) (word : string)
         (rest : list string),
    sender e <> bot_id (settings s) ->
    msgtype e = "m.text" ->
    Py.split (body e) = word :: rest ->
    Py.lower word = "refresh" ->
    outcome_of (matrix_control_message room e) s = Ok tt /\
    calls (state_after (matrix_control_message room e) s) =
      calls s
      ++ map (fun jid => SendPresence (Some jid) (Some "probe"))
             (Dict.keys (topic_room_id_map s))
      ++ [SendPresence None None; GetRoster].
Proof.
  intros s room e word rest Hsender Hty Hsplit Hword.
  apply String.eqb_neq in Hsender.
  unfold matrix_control_message. unfold_monad. fields.
  rewrite Hsender. fields. rewrite Hty. cbn [String.eqb Ascii.eqb Bool.eqb].
  fields. rewrite Hsplit, Hword. cbn [String.eqb Ascii.eqb Bool.eqb].
  fields. rewrite for_each_emit. fields.
  split; [reflexivity|]. now rewrite <- !app_assoc.
Qed.

Lemma refresh_probes_index_keys_witness :
  let s := Scenario.run [Scenario.say "joinmuc team@conf.x"] Scenario.started in
  let ev := Scenario.text "@admin:x" "refresh" in
  outcome_of (matrix_control_message Scenario.control_room ev) s = Ok tt /\
  calls (state_after (matrix_control_message Scenario.control_room ev) s) =
    calls s ++ [SendPresence (Some "#team@conf.x") (Some "probe")]
            ++ [SendPresence None None; GetRoster].
Proof.
  intros s ev.
  refine (refresh_probes_index_keys s Scenario.control_room ev "refresh" [] _ _ _ _);
    [discriminate | reflexivity ..].
Defined.

(** C7.  [leavemuc] leaves the group chat and then looks the room up in the
    index; for a room that [create_mapped_room] registered, the index holds
    the room object, the lookup raises [KeyError], and the room is not
    left. *)
Theorem leavemuc_of_created_room_raises :
  forall (s : State) (room : MatrixRoom) (e : MatrixEvent) (word addr : string)
         (rest : list string) (r : nat),
    sender e <> bot_id (settings s) ->
    msgtype e = "m.text" ->
    Py.split (body e) = word :: addr :: rest ->
    Py.lower word = "leavemuc" ->
    sget (groupchat_flag (settings s) ++ addr)%string (topic_room_id_map s)
      = Some (RoomObj r) ->
    outcome_of (matrix_control_message room e) s = Raise KeyError /\
    calls (state_after (matrix_control_message room e) s) =
      calls s ++ [LeaveMUC addr (Some (xmpp_groupchat_nick (settings s)))] /\
    rooms (state_after (matrix_control_message room e) s) = rooms s.
Proof.
  intros s room e word addr rest r Hsender Hty Hsplit Hword Hobj.
  apply String.eqb_neq in Hsender.
  unfold matrix_control_message. unfold_monad. fields.
  rewrite Hsender. fields. rewrite Hty. cbn [String.eqb Ascii.eqb Bool.eqb].
  fields. rewrite Hsplit, Hword. cbn [String.eqb Ascii.eqb Bool.eqb].
  fields.
  erewrite get_room_for_jid_object by (fields; exact Hobj).
  fields. auto.
Qed.

Lemma leavemuc_of_created_room_raises_witness :
  let s := Scenario.run [Scenario.say "joinmuc team@conf.x"] Scenario.started in
  let ev := Scenario.text "@admin:x" "leavemuc team@conf.x" in
  outcome_of (matrix_control_message Scenario.control_room ev) s = Raise KeyError /\
  calls (state_after (matrix_control_message Scenario.control_room ev) s) =
    calls s ++ [LeaveMUC "team@conf.x" (Some "bridge")] /\
  rooms (state_after (matrix_control_message Scenario.control_room ev) s) = rooms s.
Proof.
  intros s ev.
  refine (leavemuc_of_created_room_raises s Scenario.control_room ev
            "leavemuc" "team@conf.x" [] 2 _ _ _ _ _);
    [discriminate | reflexivity ..].
Defined.

(* ================================================================== *)
(** * Creating a mapped room *)
(* ================================================================== *)

Ltac unfold_client :=
  unfold create_room, set_room_topic, set_room_name, update_room_topic,
    update_room_name, room_name, room_topic, get_joined_members, room_attr,
    mutate_room, send_text, send_notice, invite_user, add_listener, leave,
    client_room, get_rooms, special_room in *.

Lemma frame_with_name n r : frame (with_name n r) = frame r.
Proof. reflexivity. Qed.

Lemma frame_refresh_name r : frame (refresh_name r) = frame r.
Proof. unfold refresh_name. now destruct (server_name r). Qed.

Lemma frame_refresh_topic r : frame (refresh_topic r) = frame r.
Proof.
  unfold refresh_topic. destruct (server_topic r) eqn:E; [|reflexivity].
  unfold frame. simpl. now rewrite E.
Qed.

Lemma room_id_refresh_name r : room_id (refresh_name r) = room_id r.
Proof. unfold refresh_name. now destruct (server_name r). Qed.

Lemma room_id_refresh_topic r : room_id (refresh_topic r) = room_id r.
Proof. unfold refresh_topic. now destruct (server_topic r). Qed.

Lemma frames_update rid f l :
  (forall r, frame (f r) = frame r) ->
  map frame (update_room rid f l) = map frame l.
Proof.
  intros Hf. unfold update_room. rewrite map_map. apply map_ext.
  intros r. destruct (Nat.eqb (room_id r) rid); auto.
Qed.

Lemma room_ids_frames l : room_ids l = map f_id (map frame l).
Proof. unfold room_ids. now rewrite map_map. Qed.

Lemma listed_frames l :
  map frame (filter in_client l) = filter f_listed (map frame l).
Proof.
  induction l as [|r l IH]; simpl; [reflexivity|].
  destruct (in_client r); simpl; now rewrite IH.
Qed.

Lemma find_room_frame rid l :
  option_map frame (find_room rid l) = find_frame rid (map frame l).
Proof.
  unfold find_room, find_frame. induction l as [|r l IH]; simpl; [reflexivity|].
  destruct (Nat.eqb (room_id r) rid); auto.
Qed.

Lemma find_frame_app_l rid fs fs' f :
  find_frame rid fs = Some f -> find_frame rid (fs ++ fs') = Some f.
Proof.
  unfold find_frame. induction fs as [|x fs IH]; simpl; [discriminate|].
  destruct (Nat.eqb (f_id x) rid); auto.
Qed.

Lemma find_frame_app_r rid fs fs' :
  ~ In rid (map f_id fs) -> find_frame rid (fs ++ fs') = find_frame rid fs'.
Proof.
  unfold find_frame. induction fs as [|x fs IH]; simpl; [reflexivity|].
  intros H. destruct (Nat.eqb (f_id x) rid) eqn:E.
  - apply Nat.eqb_eq in E. tauto.
  - apply IH. tauto.
Qed.

Lemma find_room_update rid f l r :
  (forall r, room_id (f r) = room_id r) ->
  find_room rid l = Some r ->
  find_room rid (update_room rid f l) = Some (f r).
Proof.
  intros Hf. unfold find_room, update_room.
  induction l as [|x l IH]; simpl; [discriminate|].
  destruct (Nat.eqb (room_id x) rid) eqn:E.
  - intros [= ->]. simpl. now rewrite Hf, E.
  - intros H. simpl. rewrite E. auto.
Qed.

Lemma client_ids_frames s : client_ids s = listed_ids (frames s).
Proof.
  unfold client_ids, listed_ids, frames. now rewrite room_ids_frames, listed_frames.
Qed.

Lemma client_ids_in_rooms s rid : In rid (client_ids s) -> In rid (room_ids (rooms s)).
Proof.
  unfold client_ids, room_ids. rewrite !in_map_iff.
  intros (r & <- & H). apply filter_In in H. exists r. tauto.
Qed.

Lemma existsb_eqb_in rid l : existsb (Nat.eqb rid) l = true <-> In rid l.
Proof.
  rewrite existsb_exists. split.
  - intros (x & Hx & E). apply Nat.eqb_eq in E. now subst.
  - intros H. exists rid. split; [assumption | apply Nat.eqb_refl].
Qed.

Lemma special_ids_run l s :
  map_m (fun r : option nat =>
           match r with
           | Some rid => ret rid
           | None => raise AttributeError
           end) l s
  = match ids_of l with
    | Some ids => (Ok ids, s)
    | None => (Raise AttributeError, s)
    end.
Proof.
  induction l as [|[rid|] l IH]; simpl; try reflexivity.
  unfold bind, ret at 1. rewrite IH. now destruct (ids_of l).
Qed.

Lemma get_unmapped_rooms_run s :
  get_unmapped_rooms s
  = match ids_of (Dict.values (special_rooms s)) with
    | Some specials => (Ok (unmapped_of (valid_refs s specials) (client_ids s)), s)
    | None => (Raise AttributeError, s)
    end.
Proof.
  unfold get_unmapped_rooms, bind, gets. rewrite special_ids_run.
  destruct (ids_of (Dict.values (special_rooms s))); reflexivity.
Qed.

Lemma stable_refl s : stable s s.
Proof. now constructor. Qed.

Lemma stable_trans s1 s2 s3 : stable s1 s2 -> stable s2 s3 -> stable s1 s3.
Proof.
  intros [] []. constructor; etransitivity; eassumption.
Qed.

Lemma created_app l l' : created (l ++ l') = created l ++ created l'.
Proof. unfold created. apply flat_map_app. Qed.

Lemma invitations_app l l' : invitations (l ++ l') = invitations l ++ invitations l'.
Proof. unfold invitations. apply flat_map_app. Qed.

Lemma by_id_stable s s' jid :
  stable s s' -> topic_room_id_map s' = topic_room_id_map s ->
  by_id s jid -> by_id s' jid.
Proof.
  intros Hst Hmap (r & Hget & Hin). exists r.
  rewrite Hmap, client_ids_frames, (st_frames _ _ Hst), <- client_ids_frames. auto.
Qed.

(** Proving [stable] for a state built from [s] by the setters. *)
Ltac stable_tac :=
  constructor; unfold frames; fields;
  rewrite ?created_app, ?invitations_app, ?frames_update, ?app_nil_r;
  auto using frame_with_name, frame_refresh_name, frame_refresh_topic.

(** The three ways [create_mapped_room] returns. *)
Lemma create_mapped_room_skip s t nm :
  Py.mem t (groupchat_jids s) = true ->
  exists s', create_mapped_room t nm s = (Ok None, s') /\
             stable s s' /\ topic_room_id_map s' = topic_room_id_map s.
Proof.
  intros Hmem. unfold create_mapped_room. unfold_monad. fields. rewrite Hmem.
  eexists. split; [reflexivity|]. split; [stable_tac | reflexivity].
Qed.

Lemma create_mapped_room_reuse s t nm :
  Py.mem t (groupchat_jids s) = false ->
  by_id s t ->
  exists r s', create_mapped_room t nm s = (Ok (Some r), s') /\
               stable s s' /\ topic_room_id_map s' = topic_room_id_map s.
Proof.
  intros Hmem (r & Hget & Hin).
  pose proof (proj2 (existsb_eqb_in r _) Hin) as Hex.
  destruct (find_room_some r (rooms s) (client_ids_in_rooms _ _ Hin)) as [room Hroom].
  unfold create_mapped_room, Dict.mem. unfold_client. unfold_monad. fields.
  rewrite Hmem, Hget. fields. fold (client_ids s). rewrite Hex. fields.
  rewrite (find_room_update _ _ _ _ room_id_refresh_name Hroom).
  exists r.
  match goal with |- context [if ?c then _ else _] => destruct c end;
    (eexists; split; [reflexivity|]; split; [stable_tac | reflexivity]).
Qed.

Lemma update_room_absent rid f l :
  ~ In rid (room_ids l) -> update_room rid f l = l.
Proof.
  unfold update_room, room_ids. induction l as [|r l IH]; simpl; [reflexivity|].
  intros H. destruct (Nat.eqb (room_id r) rid) eqn:E.
  - apply Nat.eqb_eq in E. tauto.
  - rewrite IH; tauto.
Qed.

Lemma update_room_app rid f l l' :
  update_room rid f (l ++ l') = update_room rid f l ++ update_room rid f l'.
Proof. unfold update_room. apply map_app. Qed.

Lemma create_mapped_room_new s t nm :
  Py.mem t (groupchat_jids s) = false ->
  sget t (topic_room_id_map s) = None ->
  exists s',
    create_mapped_room t nm s = (Ok (Some (next_room_id s)), s') /\
    settings s' = settings s /\
    special_rooms s' = special_rooms s /\
    groupchat_jids s' = groupchat_jids s /\
    roster s' = roster s /\
    next_room_id s' = S (next_room_id s) /\
    topic_room_id_map s' = sset t (RoomObj (next_room_id s)) (topic_room_id_map s) /\
    created (calls s') = created (calls s) ++ [next_room_id s] /\
    invitations (calls s') = invitations (calls s) /\
    (~ In (next_room_id s) (room_ids (rooms s)) ->
     frames s' = frames s
                 ++ [mkFrame (next_room_id s) (Some t) [bot_id (settings s)] true]).
Proof.
  intros Hmem Hget.
  unfold create_mapped_room, Dict.mem. unfold_client. unfold_monad. fields.
  rewrite Hmem, Hget. fields.
  match goal with
  | |- context [find_room ?a ?b] => destruct (find_room a b) as [room|] eqn:Hroom
  end.
  - match goal with |- context [if ?c then _ else _] => destruct c end;
      (eexists; split; [reflexivity|]; fields;
       repeat (split; [first [reflexivity
                             | rewrite !created_app; simpl; now rewrite ?app_nil_r
                             | rewrite !invitations_app; simpl; now rewrite ?app_nil_r]|]);
       intros Hfresh; unfold frames; fields;
       rewrite ?frames_update by auto using frame_with_name, frame_refresh_name;
       rewrite update_room_app, update_room_absent by assumption;
       rewrite map_app; simpl; now rewrite Nat.eqb_refl).
  - exfalso.
    match type of Hroom with
    | find_room ?a ?b = None =>
        destruct (find_room_some a b) as [x Hx]; [|congruence]
    end.
    rewrite !room_ids_update
      by (auto using room_id_refresh_name; intros; reflexivity).
    unfold room_ids. rewrite map_app, in_app_iff. right. simpl. auto.
Qed.

(** C1.  The first call of [create_mapped_room] for an address that is
    neither a group chat nor indexed creates a room and stores the room
    object in the index; the second call takes the reuse branch, looks that
    object up among the client's rooms, which are keyed by identity, and
    raises [KeyError] instead of returning the room.  It creates no room
    and changes nothing. *)
Theorem create_mapped_room_twice :
  forall (s : State) (addr : string) (nm : option string),
    Py.mem addr (groupchat_jids s) = false ->
    smem addr (topic_room_id_map s) = false ->
    exists s1,
      create_mapped_room addr nm s = (Ok (Some (next_room_id s)), s1) /\
      sget addr (topic_room_id_map s1) = Some (RoomObj (next_room_id s)) /\
      create_mapped_room addr nm s1 = (Raise KeyError, s1).
Proof.
  intros s addr nm Hmem Hnew.
  assert (sget addr (topic_room_id_map s) = None) as Hget.
  { unfold Dict.mem in Hnew. now destruct (sget addr (topic_room_id_map s)). }
  destruct (create_mapped_room_new s addr nm Hmem Hget)
    as (s1 & Hrun & _ & _ & Hjids & _ & _ & Hmap & _).
  exists s1. split; [assumption|].
  assert (sget addr (topic_room_id_map s1) = Some (RoomObj (next_room_id s))) as Hobj
    by (rewrite Hmap; apply sget_sset_same).
  split; [assumption|].
  apply create_mapped_room_object with (r := next_room_id s); [|assumption].
  now rewrite Hjids.
Qed.

Lemma create_mapped_room_twice_witness :
  exists s1,
    create_mapped_room "bob@x" None Scenario.started = (Ok (Some 2), s1) /\
    sget "bob@x" (topic_room_id_map s1) = Some (RoomObj 2) /\
    create_mapped_room "bob@x" None s1 = (Raise KeyError, s1).
Proof.
  apply (create_mapped_room_twice Scenario.started "bob@x" None); reflexivity.
Defined.

(* ================================================================== *)
(** * Purge *)
(* ================================================================== *)

(** C2.  In the situation of the scenario (a room with topic [bob@x] and
    two joined members, indexed; a room without a topic; special rooms
    with two members each) the only room to leave is the one without a
    topic, room 3.  The purge announces itself and then, reading
    [room.topic.startswith] on that room, raises [AttributeError]: no room
    is left. *)
Theorem purge_raises_on_topicless_room :
  map (fun r => (room_id r, topic r, List.length (joined_members r)))
      (rooms Purge.session)
    = [(0, Some "bob@x", 2); (1, Some "control", 2); (2, Some "all_chat", 2);
       (3, None, 2)] /\
  topic_room_id_map Purge.session = [("bob@x", RoomId 0)] /\
  outcome_of get_unmapped_rooms Purge.session = Ok [3] /\
  outcome_of get_empty_rooms Purge.session = Ok [] /\
  outcome_of (dispatch Purge.purge) Purge.session = Raise AttributeError /\
  calls (state_after (dispatch Purge.purge) Purge.session)
    = calls Purge.session ++ [SendText 1 "Purging unused rooms"] /\
  client_ids (state_after (dispatch Purge.purge) Purge.session) = [0; 1; 2; 3].
Proof. vm_compute. repeat split. Qed.

(* ================================================================== *)
(** * The all-chat room *)
(* ================================================================== *)

Lemma keeps_ret {A} (a : A) : keeps (ret a).
Proof. intros s. now split. Qed.

Lemma keeps_raise {A} (e : exn) : keeps (@raise A e).
Proof. intros s. now split. Qed.

Lemma keeps_gets {A} (f : State -> A) : keeps (gets f).
Proof. intros s. now split. Qed.

Lemma keeps_modify (f : State -> State) :
  (forall s, settings (f s) = settings s /\ special_rooms (f s) = special_rooms s) ->
  keeps (modify f).
Proof. intros H s. apply H. Qed.

Lemma keeps_bind {A B} (m : M A) (k : A -> M B) :
  keeps m -> (forall a, keeps (k a)) -> keeps (bind m k).
Proof.
  intros Hm Hk s. unfold bind. specialize (Hm s).
  destruct (m s) as [[a|e] s']; simpl in *; [|assumption].
  destruct (Hk a s') as [H1 H2]. destruct Hm as [H3 H4].
  split; congruence.
Qed.

Lemma keeps_for_each {A} (l : list A) (body : A -> M unit) :
  (forall x, keeps (body x)) -> keeps (for_each l body).
Proof.
  intros H. induction l as [|x l IH]; simpl.
  - apply keeps_ret.
  - apply keeps_bind; auto.
Qed.

Lemma keeps_map_m {A B} (f : A -> M B) (l : list A) :
  (forall x, keeps (f x)) -> keeps (map_m f l).
Proof.
  intros H. induction l as [|x l IH]; simpl.
  - apply keeps_ret.
  - apply keeps_bind; [apply H|]. intros y.
    apply keeps_bind; [apply IH|]. intros ys. apply keeps_ret.
Qed.

Lemma keeps_when (c : bool) (m : M unit) : keeps m -> keeps (when c m).
Proof. intros H. destruct c; [assumption | apply keeps_ret]. Qed.

Lemma keeps_log l msg : keeps (log l msg).
Proof. intros s. now split. Qed.

Lemma keeps_emit c : keeps (emit c).
Proof. intros s. now split. Qed.

Lemma keeps_subscript {V} (d : list (string * V)) k : keeps (subscript d k).
Proof. intros s. unfold subscript. now destruct (sget k d). Qed.

Lemma keeps_room_attr {A} rid (f : MatrixRoom -> A) : keeps (room_attr rid f).
Proof. intros s. unfold room_attr. now destruct (find_room rid (rooms s)). Qed.

Lemma keeps_mutate_room rid f : keeps (mutate_room rid f).
Proof. intros s. now split. Qed.

Ltac keeps_step :=
  match goal with
  | |- keeps (bind _ _) => apply keeps_bind; [|intros]
  | |- keeps (ret _) => apply keeps_ret
  | |- keeps (raise _) => apply keeps_raise
  | |- keeps (gets _) => apply keeps_gets
  | |- keeps (cfg _) => apply keeps_gets
  | |- keeps (log _ _) => apply keeps_log
  | |- keeps (emit _) => apply keeps_emit
  | |- keeps (when _ _) => apply keeps_when
  | |- keeps (for_each _ _) => apply keeps_for_each; intros
  | |- keeps (map_m _ _) => apply keeps_map_m; intros
  | |- keeps (subscript _ _) => apply keeps_subscript
  | |- keeps (room_attr _ _) => apply keeps_room_attr
  | |- keeps (mutate_room _ _) => apply keeps_mutate_room
  | |- keeps (modify _) => apply keeps_modify; intros; split; reflexivity
  | |- keeps (if ?c then _ else _) => destruct c
  | |- keeps (match ?x with _ => _ end) => destruct x
  | |- keeps _ => assumption
  end.

Ltac keeps_tac := repeat keeps_step.

Create HintDb keeps_db.

Lemma keeps_get_rooms : keeps get_rooms.
Proof. unfold get_rooms. keeps_tac. Qed.
Lemma keeps_create_room : keeps create_room.
Proof. unfold create_room. keeps_tac. Qed.
Lemma keeps_set_room_topic rid t : keeps (set_room_topic rid t).
Proof. unfold set_room_topic. keeps_tac. Qed.
Lemma keeps_set_room_name rid n : keeps (set_room_name rid n).
Proof. unfold set_room_name. keeps_tac. Qed.
Lemma keeps_update_room_topic rid : keeps (update_room_topic rid).
Proof. unfold update_room_topic. keeps_tac. Qed.
Lemma keeps_update_room_name rid : keeps (update_room_name rid).
Proof. unfold update_room_name. keeps_tac. Qed.
Lemma keeps_room_topic rid : keeps (room_topic rid).
Proof. unfold room_topic. keeps_tac. Qed.
Lemma keeps_room_name rid : keeps (room_name rid).
Proof. unfold room_name. keeps_tac. Qed.
Lemma keeps_get_joined_members rid : keeps (get_joined_members rid).
Proof. unfold get_joined_members. keeps_tac. Qed.
Lemma keeps_leave rid : keeps (leave rid).
Proof. unfold leave. keeps_tac. Qed.
Lemma keeps_client_room v : keeps (client_room v).
Proof. unfold client_room, get_rooms. keeps_tac. Qed.
Lemma keeps_special_room k : keeps (special_room k).
Proof. unfold special_room. keeps_tac. Qed.

#[local] Hint Resolve keeps_get_rooms keeps_create_room keeps_set_room_topic
  keeps_set_room_name keeps_update_room_topic keeps_update_room_name
  keeps_room_topic keeps_room_name keeps_get_joined_members keeps_leave
  keeps_client_room keeps_special_room : keeps_db.

Ltac keeps_auto := repeat first [keeps_step | solve [auto with keeps_db]].

Lemma keeps_send rid text : keeps (send_text rid text) /\ keeps (send_notice rid text).
Proof. split; apply keeps_emit. Qed.

Lemma keeps_get_room_for_jid jid : keeps (get_room_for_jid jid).
Proof. unfold get_room_for_jid. keeps_auto. Qed.

Lemma keeps_get_unmapped_rooms : keeps get_unmapped_rooms.
Proof. unfold get_unmapped_rooms. keeps_auto. Qed.

Lemma keeps_get_empty_rooms : keeps get_empty_rooms.
Proof. unfold get_empty_rooms. keeps_auto. Qed.

Lemma keeps_create_mapped_room t nm : keeps (create_mapped_room t nm).
Proof. unfold create_mapped_room. keeps_auto. Qed.

#[local] Hint Resolve keeps_get_room_for_jid keeps_get_unmapped_rooms
  keeps_get_empty_rooms keeps_create_mapped_room : keeps_db.

Lemma keeps_map_rooms_by_topic : keeps map_rooms_by_topic.
Proof. unfold map_rooms_by_topic, map_room, add_listener. keeps_auto. Qed.

Lemma keeps_create_groupchat_room jid : keeps (create_groupchat_room jid).
Proof. unfold create_groupchat_room, invite_user. keeps_auto. Qed.

#[local] Hint Resolve keeps_map_rooms_by_topic keeps_create_groupchat_room : keeps_db.

(** No handler assigns a setting or a slot of [special_rooms]. *)
Lemma keeps_dispatch ev : keeps (dispatch ev).
Proof.
  destruct ev; simpl;
    unfold matrix_control_message, matrix_all_chat_message, matrix_message,
      xmpp_message, xmpp_groupchat_message, xmpp_presence_available,
      xmpp_presence_unavailable, xmpp_roster_update, snapshot_roster,
      create_missing_rooms, create_missing_room, invite_to_all_rooms,
      send_text, send_notice, invite_user;
    keeps_auto.
Qed.


Lemma preserves_bind (I : State -> Prop) {A B} (m : M A) (k : A -> M B) :
  preserves I m -> (forall a, preserves I (k a)) -> preserves I (bind m k).
Proof.
  intros Hm Hk s HI. unfold bind. specialize (Hm s HI).
  destruct (m s) as [[a|e] s']; simpl in *; [|assumption].
  now apply Hk.
Qed.

Lemma preserves_gets_bind (I : State -> Prop) {A B} (f : State -> A) (k : A -> M B) :
  (forall s, I s -> I (snd (k (f s) s))) -> preserves I (bind (gets f) k).
Proof. intros H s HI. unfold bind, gets. now apply H. Qed.

Lemma preserves_for_each (I : State -> Prop) {A} (l : list A) (body : A -> M unit) :
  (forall x, preserves I (body x)) -> preserves I (for_each l body).
Proof.
  intros H. induction l as [|x l IH]; simpl.
  - intros s HI. assumption.
  - apply preserves_bind; auto.
Qed.










(* ================================================================== *)
(** * Roster synchronisation *)
(* ================================================================== *)

(** ** Loops *)

Lemma for_each_prefix_total {A} (I : list A -> State -> Prop)
    (l : list A) (body : A -> M unit) :
  (forall done x rest s, l = done ++ x :: rest -> I done s ->
     exists s', body x s = (Ok tt, s') /\ I (done ++ [x]) s') ->
  forall s, I [] s -> exists s', for_each l body s = (Ok tt, s') /\ I l s'.
Proof.
  intros Hbody.
  assert (forall rest done s, l = done ++ rest -> I done s ->
            exists s', for_each rest body s = (Ok tt, s') /\ I l s') as H.
  { induction rest as [|x rest IH]; intros done s Hl HI; simpl.
    - rewrite app_nil_r in Hl. exists s. split; [reflexivity | now rewrite Hl].
    - destruct (Hbody done x rest s Hl HI) as (s1 & Hrun & HI1).
      unfold bind. rewrite Hrun.
      apply (IH (done ++ [x])); [|assumption].
      now rewrite <- app_assoc. }
  intros s HI. now apply (H l []).
Qed.

Lemma for_each_prefix_partial {A} (I : list A -> State -> Prop)
    (l : list A) (body : A -> M unit) :
  (forall done x rest s s', l = done ++ x :: rest -> I done s ->
     body x s = (Ok tt, s') -> I (done ++ [x]) s') ->
  forall s s', I [] s -> for_each l body s = (Ok tt, s') -> I l s'.
Proof.
  intros Hbody.
  assert (forall rest done s s', l = done ++ rest -> I done s ->
            for_each rest body s = (Ok tt, s') -> I l s') as H.
  { induction rest as [|x rest IH]; intros done s s' Hl HI; simpl.
    - rewrite app_nil_r in Hl. unfold ret. intros [= <-]. now rewrite Hl.
    - unfold bind. destruct (body x s) as [[[]|e] s1] eqn:Hrun; [|discriminate].
      apply (IH (done ++ [x])); [now rewrite <- app_assoc|].
      eapply Hbody; eauto. }
  intros s s' HI. now apply (H l []).
Qed.

(** ** Invitations *)

Lemma invitations_invite_calls l : invitations (invite_calls l) = l.
Proof.
  unfold invitations, invite_calls. induction l as [|[r u] l IH]; simpl; congruence.
Qed.

Lemma created_invite_calls l : created (invite_calls l) = [].
Proof.
  unfold created, invite_calls. induction l as [|[r u] l IH]; simpl; congruence.
Qed.

Lemma invite_missing_run room members users s :
  for_each users (fun user_id =>
    when (negb (Py.mem user_id members)) (invite_user room user_id)) s
  = (Ok tt,
     with_calls
       (calls s ++ invite_calls
                     (map (fun u => (room, u))
                          (filter (fun u => negb (Py.mem u members)) users))) s).
Proof.
  unfold invite_calls.
  revert s. induction users as [|u users IH]; intros s; simpl.
  - rewrite app_nil_r. now destruct s.
  - unfold bind. destruct (negb (Py.mem u members)); simpl.
    + unfold invite_user, emit, modify. rewrite IH. fields.
      now rewrite <- app_assoc.
    + unfold ret. apply IH.
Qed.

Lemma find_room_nodup l r :
  NoDup (room_ids l) -> In r l -> find_room (room_id r) l = Some r.
Proof.
  unfold find_room, room_ids. induction l as [|x l IH]; simpl; [tauto|].
  intros Hnd [->|Hin].
  - now rewrite Nat.eqb_refl.
  - inversion Hnd as [|? ? Hnotin Hnd']; subst.
    destruct (Nat.eqb (room_id x) (room_id r)) eqn:E.
    + apply Nat.eqb_eq in E. exfalso. apply Hnotin. rewrite E.
      now apply in_map.
    + auto.
Qed.

Lemma invite_rooms_run (l : list MatrixRoom) s :
  (forall r, In r l -> find_room (room_id r) (rooms s) = Some r) ->
  for_each (room_ids l) (fun room =>
    users_in_room <- get_joined_members room ;;
    users <- cfg users_to_invite ;;
    for_each users (fun user_id =>
      when (negb (Py.mem user_id users_in_room)) (invite_user room user_id))) s
  = (Ok tt,
     with_calls
       (calls s ++ invite_calls
                     (flat_map (pending_in (users_to_invite (settings s)))
                               (map frame l))) s).
Proof.
  revert s. induction l as [|r l IH]; intros s Hfind; simpl.
  - rewrite app_nil_r. now destruct s.
  - unfold bind at 1. unfold bind at 1. unfold get_joined_members, room_attr.
    rewrite (Hfind r) by now left.
    unfold bind at 1, cfg at 1, gets at 1.
    rewrite invite_missing_run. rewrite IH by (intros; fields; apply Hfind; now right).
    fields. unfold with_calls. fields. f_equal. f_equal.
    unfold invite_calls, pending_in. rewrite <- app_assoc, map_app. reflexivity.
Qed.

Lemma invite_to_all_rooms_run s :
  NoDup (room_ids (rooms s)) ->
  invite_to_all_rooms s
  = (Ok tt, with_calls (calls s ++ invite_calls (pending_invitations s)) s).
Proof.
  intros Hnd. unfold invite_to_all_rooms, get_rooms, gets.
  unfold bind at 1.
  rewrite invite_rooms_run.
  - unfold pending_invitations, frames. now rewrite listed_frames.
  - intros r Hin. apply filter_In in Hin. now apply find_room_nodup.
Qed.

(** ** States the bot can be in *)

Lemma core_eq_refl s : core_eq s s.
Proof. now constructor. Qed.

Lemma core_eq_trans s1 s2 s3 : core_eq s1 s2 -> core_eq s2 s3 -> core_eq s1 s3.
Proof. intros [] []. constructor; etransitivity; eassumption. Qed.

Lemma stable_core_eq s s' :
  stable s s' -> topic_room_id_map s' = topic_room_id_map s -> core_eq s s'.
Proof. intros [] H. now constructor. Qed.

Lemma wf_core_eq s s' : core_eq s s' -> wf s -> wf s'.
Proof.
  intros [Hi Hf Hs Hn _ _ _] [H1 H2 H3 H4].
  constructor; rewrite ?Hi, ?Hf, ?Hs, ?Hn; assumption.
Qed.

Lemma by_id_core_eq s s' jid : core_eq s s' -> by_id s jid -> by_id s' jid.
Proof.
  intros [Hi Hf _ _ _ _ _] (r & Hget & Hin). exists r.
  rewrite Hi, client_ids_frames, Hf, <- client_ids_frames. auto.
Qed.

Lemma by_obj_core_eq s s' jid : core_eq s s' -> by_obj s jid -> by_obj s' jid.
Proof.
  intros [Hi Hf Hs _ _ _ _] (r & f & H1 & H2 & H3 & H4 & H5).
  exists r, f. unfold unreferenced. rewrite Hi, Hf, Hs. auto.
Qed.

Lemma find_frame_id rid fs f : find_frame rid fs = Some f -> f_id f = rid.
Proof. unfold find_frame. intros H. apply find_some in H. now apply Nat.eqb_eq. Qed.

Lemma find_frame_in rid fs f : find_frame rid fs = Some f -> In f fs.
Proof. unfold find_frame. intros H. now apply find_some in H. Qed.

Lemma find_frame_listed rid fs f :
  find_frame rid fs = Some f -> f_listed f = true -> In rid (listed_ids fs).
Proof.
  intros H Hl. unfold listed_ids. rewrite <- (find_frame_id _ _ _ H).
  apply in_map, filter_In. split; [eapply find_frame_in; eauto | assumption].
Qed.

Lemma listed_ids_in fs rid : In rid (listed_ids fs) -> In rid (map f_id fs).
Proof.
  unfold listed_ids. rewrite !in_map_iff. intros (f & <- & H).
  apply filter_In in H. exists f. tauto.
Qed.

Lemma values_in {V} (d : list (string * V)) v :
  In v (Dict.values d) -> exists k, In (k, v) d.
Proof.
  unfold Dict.values. rewrite in_map_iff. intros ([k v'] & <- & H). now exists k.
Qed.

Lemma ids_of_in l ids rid : ids_of l = Some ids -> In rid ids -> In (Some rid) l.
Proof.
  revert ids. induction l as [|[x|] l IH]; simpl; intros ids.
  - intros [= <-] [].
  - destruct (ids_of l) as [ids'|]; [|discriminate].
    intros [= <-] [->|H]; [now left | right; eauto].
  - discriminate.
Qed.

Lemma unreferenced_unmapped s r specials :
  ids_of (Dict.values (special_rooms s)) = Some specials ->
  unreferenced s r ->
  existsb (is_room_id r) (valid_refs s specials) = false.
Proof.
  intros Hids [Hindex Hspecial].
  destruct (existsb (is_room_id r) (valid_refs s specials)) eqn:E; [|reflexivity].
  exfalso. apply existsb_exists in E. destruct E as (v & Hin & Hv).
  destruct v as [rid|rid]; [|discriminate]. simpl in Hv. apply Nat.eqb_eq in Hv.
  subst rid. unfold valid_refs in Hin. apply in_app_iff in Hin.
  destruct Hin as [Hin|Hin].
  - apply values_in in Hin. destruct Hin as [k Hk]. now apply (Hindex k).
  - apply in_map_iff in Hin. destruct Hin as (x & [= ->] & Hx).
    apply (ids_of_in _ _ _ Hids), values_in in Hx. destruct Hx as [k Hk].
    now apply (Hspecial k).
Qed.

(** ** Indexing the rooms that are not *)

Lemma topic_refresh_topic r t :
  server_topic r = Some t -> topic (refresh_topic r) = Some t.
Proof. intros H. unfold refresh_topic. now rewrite H. Qed.

Lemma map_room_run s x room :
  find_room x (rooms s) = Some room ->
  exists s',
    map_room x s = (Ok tt, s') /\ stable s s' /\
    topic_room_id_map s' =
      match topic (refresh_topic room) with
      | Some t => if Py.contains_char "@" t
                  then sset t (RoomId x) (topic_room_id_map s)
                  else topic_room_id_map s
      | None => topic_room_id_map s
      end.
Proof.
  intros Hroom. unfold map_room. unfold_client. unfold_monad. fields.
  rewrite (find_room_update _ _ _ _ room_id_refresh_topic Hroom).
  destruct (topic (refresh_topic room)) as [t|].
  - destruct (Py.contains_char "@" t); simpl;
      (eexists; split; [reflexivity|]; split; [stable_tac | reflexivity]).
  - eexists; split; [reflexivity|]; split; [stable_tac | reflexivity].
Qed.

Lemma by_id_sset s s' jid t x :
  frames s' = frames s ->
  topic_room_id_map s' = sset t (RoomId x) (topic_room_id_map s) ->
  In x (client_ids s) ->
  by_id s jid -> by_id s' jid.
Proof.
  intros Hf Hmap Hx (r & Hget & Hin).
  unfold by_id. rewrite Hmap, client_ids_frames, Hf, <- client_ids_frames.
  destruct (string_dec jid t) as [->|Hne].
  - exists x. split; [apply sget_sset_same | assumption].
  - exists r. split; [now rewrite sget_sset_other | assumption].
Qed.

Lemma map_rooms_by_topic_run s specials :
  ids_of (Dict.values (special_rooms s)) = Some specials ->
  exists s',
    map_rooms_by_topic s = (Ok tt, s') /\ stable s s' /\
    (forall k rid, In (k, RoomId rid) (topic_room_id_map s') ->
       In (k, RoomId rid) (topic_room_id_map s) \/ In rid (client_ids s)) /\
    (forall jid, by_id s jid -> by_id s' jid) /\
    (forall jid, Py.contains_char "@" jid = true -> by_obj s jid -> by_id s' jid).
Proof.
  intros Hids. unfold map_rooms_by_topic, bind.
  rewrite get_unmapped_rooms_run, Hids.
  set (U := unmapped_of (valid_refs s specials) (client_ids s)).
  set (I := fun (done : list nat) (st : State) =>
    stable s st /\
    (forall k rid, In (k, RoomId rid) (topic_room_id_map st) ->
       In (k, RoomId rid) (topic_room_id_map s) \/ In rid (client_ids s)) /\
    (forall jid, by_id s jid -> by_id st jid) /\
    (forall jid r f, Py.contains_char "@" jid = true ->
       find_frame r (frames s) = Some f -> f_topic f = Some jid ->
       In r done -> by_id st jid)).
  destruct (for_each_prefix_total I U map_room) with (s := s)
    as (s' & Hrun & Hst & Hentries & Hid & Hobj).
  - intros done x rest st HU (Hst & Hentries & Hid & Hobj).
    assert (In x (client_ids s)) as Hx.
    { assert (In x U) as HxU by (rewrite HU; apply in_app_iff; right; now left).
      unfold U, unmapped_of in HxU. now apply filter_In in HxU. }
    assert (In x (client_ids st)) as Hxst
      by (rewrite client_ids_frames, (st_frames _ _ Hst), <- client_ids_frames; exact Hx).
    destruct (find_room_some x (rooms st) (client_ids_in_rooms _ _ Hxst)) as [room Hroom].
    destruct (map_room_run st x room Hroom) as (st' & Hrun & Hst' & Hmap).
    exists st'. split; [assumption|].
    pose proof (stable_trans _ _ _ Hst Hst') as Hst2.
    assert (find_frame x (frames s) = Some (frame room)) as Hframe.
    { rewrite <- (st_frames _ _ Hst). unfold frames.
      rewrite <- find_room_frame, Hroom. reflexivity. }
    assert (forall jid, by_id st jid -> by_id st' jid) as Hkeep.
    { intros jid Hj. revert Hmap.
      destruct (topic (refresh_topic room)) as [t|];
        [destruct (Py.contains_char "@" t)|]; intros Hmap;
        try exact (by_id_stable st st' jid Hst' Hmap Hj).
      exact (by_id_sset st st' jid t x (st_frames _ _ Hst') Hmap Hxst Hj). }
    split; [assumption|]. split; [|split].
    + intros k rid Hin. rewrite Hmap in Hin. revert Hin.
      destruct (topic (refresh_topic room)) as [t|];
        [destruct (Py.contains_char "@" t)|]; intros Hin; auto.
      apply in_sset in Hin. destruct Hin as [Hin|[_ [= ->]]]; auto.
    + auto.
    + intros jid r f Hat Hf Htopic Hin. apply in_app_iff in Hin.
      destruct Hin as [Hin|[<-|[]]]; [eauto|].
      rewrite Hframe in Hf. injection Hf as <-. simpl in Htopic.
      rewrite (topic_refresh_topic _ _ Htopic), Hat in Hmap.
      exists x. rewrite Hmap. split; [apply sget_sset_same|].
      rewrite client_ids_frames, (st_frames _ _ Hst2), <- client_ids_frames. exact Hx.
  - split; [apply stable_refl|]. split; [auto|]. split; [auto|].
    intros ? ? ? _ _ _ [].
  - exists s'. do 4 (split; [assumption|]).
    intros jid Hat (r & f & Hget & Hf & Hlisted & Htopic & Hunref).
    apply (Hobj jid r f Hat Hf Htopic).
    unfold U, unmapped_of. apply filter_In. split.
    + rewrite client_ids_frames. eapply find_frame_listed; eassumption.
    + now rewrite (unreferenced_unmapped s r specials Hids Hunref).
Qed.

(** ** Creating the rooms that are missing *)

Lemma create_mapped_room_dangling s t nm r :
  Py.mem t (groupchat_jids s) = false ->
  sget t (topic_room_id_map s) = Some (RoomId r) ->
  existsb (Nat.eqb r) (client_ids s) = false ->
  create_mapped_room t nm s = (Raise KeyError, s).
Proof.
  intros Hmem Hget Hex. unfold create_mapped_room, Dict.mem. unfold_client.
  unfold_monad. fields. rewrite Hmem, Hget. fields. fold (client_ids s).
  now rewrite Hex.
Qed.

Lemma wf_fresh s : wf s -> ~ In (next_room_id s) (map f_id (frames s)).
Proof. intros Hwf Hin. apply (wf_rooms _ Hwf) in Hin. lia. Qed.

Lemma create_mapped_room_cases s t nm a s' :
  wf s ->
  create_mapped_room t nm s = (Ok a, s') ->
  (core_eq s s' /\ (Py.mem t (groupchat_jids s) = false -> by_id s' t))
  \/ adds_room s s' t.
Proof.
  intros Hwf Hrun.
  destruct (Py.mem t (groupchat_jids s)) eqn:Hmem.
  - destruct (create_mapped_room_skip s t nm Hmem) as (s1 & Hrun1 & Hst & Hmap).
    rewrite Hrun1 in Hrun. injection Hrun as _ <-.
    left. split; [now apply stable_core_eq | discriminate].
  - destruct (sget t (topic_room_id_map s)) as [[r|r]|] eqn:Hget.
    + destruct (existsb (Nat.eqb r) (client_ids s)) eqn:Hex.
      * assert (by_id s t) as Hid
          by (exists r; split; [assumption | now apply existsb_eqb_in]).
        destruct (create_mapped_room_reuse s t nm Hmem Hid)
          as (r' & s1 & Hrun1 & Hst & Hmap).
        rewrite Hrun1 in Hrun. injection Hrun as _ <-.
        left. split; [now apply stable_core_eq|]. intros _.
        now apply (by_id_stable s s1).
      * rewrite (create_mapped_room_dangling s t nm r Hmem Hget Hex) in Hrun.
        discriminate.
    + rewrite (create_mapped_room_object s t nm r Hmem Hget) in Hrun. discriminate.
    + destruct (create_mapped_room_new s t nm Hmem Hget)
        as (s1 & Hrun1 & H1 & H2 & H3 & H4 & H5 & H6 & _ & _ & H7).
      rewrite Hrun1 in Hrun. injection Hrun as _ <-.
      right. constructor; try assumption.
      apply H7. rewrite room_ids_frames. now apply wf_fresh.
Qed.

Lemma listed_ids_app fs fs' : listed_ids (fs ++ fs') = listed_ids fs ++ listed_ids fs'.
Proof. unfold listed_ids. now rewrite filter_app, map_app. Qed.

Section AddsRoom.
Variables (s s' : State) (t : string).
Hypothesis Hwf : wf s.
Hypothesis Hadd : adds_room s s' t.

Lemma adds_room_wf : wf s'.
Proof.
  destruct Hwf as [H1 H2 H3 H4]. destruct Hadd as [_ _ Hs _ _ Hn Hi Hf].
  constructor; rewrite ?Hf, ?Hn, ?Hs, ?Hi.
  - rewrite map_app. simpl.
    apply NoDup_app; [assumption | repeat constructor; simpl; tauto |].
    intros rid Hin [<-|[]]. apply H2 in Hin. lia.
  - intros rid Hin. rewrite map_app, in_app_iff in Hin. simpl in Hin.
    destruct Hin as [Hin|[<-|[]]]; [apply H2 in Hin|]; lia.
  - intros k rid Hin. apply in_sset in Hin.
    destruct Hin as [Hin|[_ [=]]]. apply H3 in Hin. lia.
  - intros k rid Hin. apply H4 in Hin. lia.
Qed.

Lemma adds_room_by_id jid : by_id s jid -> by_id s' jid.
Proof.
  intros (r & Hget & Hin). exists r.
  rewrite (ar_index _ _ _ Hadd), client_ids_frames, (ar_frames _ _ _ Hadd),
    listed_ids_app, <- client_ids_frames.
  split; [|apply in_app_iff; now left].
  rewrite sget_sset_other; [assumption|].
  intros ->. rewrite (ar_absent _ _ _ Hadd) in Hget. discriminate.
Qed.

Lemma adds_room_unreferenced r : unreferenced s r -> unreferenced s' r.
Proof.
  intros [H1 H2]. split.
  - intros k Hin. rewrite (ar_index _ _ _ Hadd) in Hin. apply in_sset in Hin.
    destruct Hin as [Hin|[_ [=]]]. now apply (H1 k).
  - intros k. rewrite (ar_specials _ _ _ Hadd). apply H2.
Qed.

Lemma adds_room_by_obj jid : by_obj s jid -> by_obj s' jid.
Proof.
  intros (r & f & Hget & Hf & Hl & Ht & Hu). exists r, f.
  rewrite (ar_index _ _ _ Hadd), (ar_frames _ _ _ Hadd).
  split; [|split; [now apply find_frame_app_l|]].
  - rewrite sget_sset_other; [assumption|].
    intros ->. rewrite (ar_absent _ _ _ Hadd) in Hget. discriminate.
  - auto using adds_room_unreferenced.
Qed.

Lemma adds_room_new : by_obj s' t.
Proof.
  exists (next_room_id s),
    (mkFrame (next_room_id s) (Some t) [bot_id (settings s)] true).
  rewrite (ar_index _ _ _ Hadd), (ar_frames _ _ _ Hadd).
  split; [apply sget_sset_same|]. split.
  - rewrite find_frame_app_r by now apply wf_fresh.
    unfold find_frame. simpl. now rewrite Nat.eqb_refl.
  - split; [reflexivity|]. split; [reflexivity|].
    apply adds_room_unreferenced. split.
    + intros k Hin. apply (wf_index _ Hwf) in Hin. lia.
    + intros k Hin. apply (wf_specials _ Hwf) in Hin. lia.
Qed.
End AddsRoom.

Lemma adds_room_core_eq s0 s s' t : core_eq s0 s -> adds_room s s' t -> adds_room s0 s' t.
Proof.
  intros [Hi Hf Hs Hn Hset Hj Hr] [A1 A2 A3 A4 A5 A6 A7 A8].
  constructor; try congruence.
Qed.

Lemma create_missing_room_cases s jid info s' :
  wf s ->
  create_missing_room (jid, info) s = (Ok tt, s') ->
  (core_eq s s' /\ (wanted s jid -> by_id s' jid)) \/ adds_room s s' jid.
Proof.
  intros Hwf. unfold create_missing_room, wanted.
  destruct (Py.contains_char "@" jid); simpl.
  - unfold bind at 1, cfg at 1, gets at 1.
    destruct (Py.mem jid (disabled_jids (settings s))).
    + unfold ret. intros [= <-]. left. split; [apply core_eq_refl|].
      intros (_ & [=] & _).
    + unfold bind at 1, modify at 1.
      set (sa := with_jid_nick_map _ s).
      assert (core_eq s sa) as Hsa by now constructor.
      unfold bind. destruct (create_mapped_room jid _ sa) as [[a|e] s1] eqn:Hrun;
        [|discriminate].
      unfold ret. intros [= <-].
      destruct (create_mapped_room_cases sa jid _ a s1 (wf_core_eq _ _ Hsa Hwf) Hrun)
        as [[Hcore Hid]|Hadd].
      * left. split; [eapply core_eq_trans; eassumption|].
        intros (_ & _ & Hmem). apply Hid. exact Hmem.
      * right. eapply adds_room_core_eq; eassumption.
  - unfold log, modify. intros [= <-]. left.
    split; [now constructor|]. intros ([=] & _).
Qed.

(** After a synchronisation's creation loop, each wanted address of the
    roster is indexed: by identity if its room was there, by object if
    the room was created. *)
Lemma create_missing_rooms_inv R s s' :
  wf s ->
  create_missing_rooms R s = (Ok tt, s') ->
  wf s' /\
  settings s' = settings s /\ special_rooms s' = special_rooms s /\
  groupchat_jids s' = groupchat_jids s /\ roster s' = roster s /\
  (forall jid info, In (jid, info) R -> wanted s jid -> by_id s' jid \/ by_obj s' jid).
Proof.
  intros Hwf. unfold create_missing_rooms.
  set (I := fun (done : list (string * RosterItem)) (st : State) =>
    wf st /\
    settings st = settings s /\ special_rooms st = special_rooms s /\
    groupchat_jids st = groupchat_jids s /\ roster st = roster s /\
    (forall jid info, In (jid, info) done -> wanted s jid ->
       by_id st jid \/ by_obj st jid)).
  apply (for_each_prefix_partial I).
  - intros done [jid info] rest st st' _ (Hwfst & Hset & Hsp & Hj & Hr & Hdone) Hrun.
    destruct (create_missing_room_cases st jid info st' Hwfst Hrun)
      as [[Hcore Hid]|Hadd].
    + split; [eapply wf_core_eq; eassumption|].
      destruct Hcore as [? ? ? ? ? ? ?].
      do 4 (split; [congruence|]).
      intros j i Hin Hw. apply in_app_iff in Hin.
      destruct Hin as [Hin|[[= <- <-]|[]]].
      * destruct (Hdone j i Hin Hw) as [H|H];
          [left; eapply by_id_core_eq | right; eapply by_obj_core_eq];
          try eassumption; now constructor.
      * left. apply Hid. unfold wanted in *. now rewrite Hset, Hj.
    + split; [eapply adds_room_wf; eassumption|].
      pose proof Hadd as [? ? ? ? ? ? ? ?].
      do 4 (split; [congruence|]).
      intros j i Hin Hw. apply in_app_iff in Hin.
      destruct Hin as [Hin|[[= <- <-]|[]]].
      * destruct (Hdone j i Hin Hw) as [H|H];
          [left; eapply adds_room_by_id | right; eapply adds_room_by_obj];
          eassumption.
      * right. eapply adds_room_new; eassumption.
  - unfold I. do 5 (split; [auto|]). intros ? ? [].
Qed.

(** When each wanted address is indexed by identity, the creation loop
    creates nothing. *)
Lemma create_missing_rooms_reuse R s :
  (forall jid info, In (jid, info) R -> wanted s jid -> by_id s jid) ->
  exists s', create_missing_rooms R s = (Ok tt, s') /\
             stable s s' /\ topic_room_id_map s' = topic_room_id_map s.
Proof.
  intros Hall. unfold create_missing_rooms.
  set (I := fun (done : list (string * RosterItem)) (st : State) =>
    stable s st /\ topic_room_id_map st = topic_room_id_map s).
  destruct (for_each_prefix_total I R create_missing_room) with (s := s)
    as (s' & Hrun & Hst & Hmap).
  - intros done [jid info] rest st HR (Hst & Hmap).
    unfold create_missing_room.
    destruct (Py.contains_char "@" jid) eqn:Hat; simpl.
    + unfold bind at 1, cfg at 1, gets at 1. rewrite (st_settings _ _ Hst).
      destruct (Py.mem jid (disabled_jids (settings s))) eqn:Hdis.
      * exists st. split; [reflexivity|]. now split.
      * unfold bind at 1, modify at 1.
        set (sa := with_jid_nick_map _ st).
        assert (stable st sa) as Hsa by (unfold sa; stable_tac).
        assert (topic_room_id_map sa = topic_room_id_map st) as Hma by reflexivity.
        assert (exists a s1, create_mapped_room jid (Some (item_name info)) sa = (Ok a, s1)
                  /\ stable sa s1 /\ topic_room_id_map s1 = topic_room_id_map sa)
          as (a & s1 & Hrun & Hst1 & Hm1).
        { destruct (Py.mem jid (groupchat_jids sa)) eqn:Hmem.
          - destruct (create_mapped_room_skip sa jid (Some (item_name info)) Hmem)
              as (s1 & ? & ? & ?). eauto.
          - assert (by_id sa jid) as Hid.
            { apply (by_id_stable s sa); [eapply stable_trans; eassumption | congruence |].
              apply (Hall jid info).
              + rewrite HR. apply in_app_iff. right. now left.
              + repeat split; try assumption.
                rewrite <- (st_jids _ _ Hst). exact Hmem. }
            destruct (create_mapped_room_reuse sa jid (Some (item_name info)) Hmem Hid)
              as (r & s1 & ? & ? & ?). eauto. }
        exists s1. unfold bind. rewrite Hrun. split; [reflexivity|].
        split; [|congruence].
        eapply stable_trans; [eassumption|]. eapply stable_trans; eassumption.
    + eexists. split; [reflexivity|]. split; [|exact Hmap].
      eapply stable_trans; [eassumption|]. stable_tac.
  - split; [apply stable_refl | reflexivity].
  - exists s'. auto.
Qed.

(** ** The snapshot of the roster *)

Lemma snapshot_roster_run s j R :
  roster s = [(j, R)] ->
  snapshot_roster s = (Ok R, with_roster_dict R s).
Proof.
  intros H. unfold snapshot_roster. unfold_monad. rewrite H. simpl.
  now rewrite String.eqb_refl.
Qed.

Lemma snapshot_roster_inv s R s' :
  snapshot_roster s = (Ok R, s') -> exists j, roster s = [(j, R)].
Proof.
  unfold snapshot_roster. unfold_monad.
  destruct (roster s) as [|[j R0] [|x l]]; simpl; try discriminate.
  rewrite String.eqb_refl. simpl. fields. intros [= <- _]. now exists j.
Qed.

(** ** One synchronisation after another *)

Lemma bind_inv {A B} (m : M A) (k : A -> M B) s b s' :
  bind m k s = (Ok b, s') ->
  exists a s1, m s = (Ok a, s1) /\ k a s1 = (Ok b, s').
Proof.
  unfold bind. destruct (m s) as [[a|e] s1]; [eauto | discriminate].
Qed.

Lemma bind_run {A B} (m : M A) (k : A -> M B) s a s1 :
  m s = (Ok a, s1) -> bind m k s = k a s1.
Proof. intros H. unfold bind. now rewrite H. Qed.

Lemma map_rooms_by_topic_inv s s' :
  map_rooms_by_topic s = (Ok tt, s') ->
  exists specials, ids_of (Dict.values (special_rooms s)) = Some specials.
Proof.
  unfold map_rooms_by_topic, bind. rewrite get_unmapped_rooms_run.
  destruct (ids_of (Dict.values (special_rooms s))); [eauto | discriminate].
Qed.

Lemma wf_nodup_rooms s : wf s -> NoDup (room_ids (rooms s)).
Proof. intros H. rewrite room_ids_frames. apply (wf_nodup _ H). Qed.

Lemma wanted_core_eq s s' jid : core_eq s s' -> wanted s' jid -> wanted s jid.
Proof.
  intros [_ _ _ _ Hs Hj _]. unfold wanted. now rewrite Hs, Hj.
Qed.

Lemma roster_update_synchronises s0 s1 :
  wf s0 ->
  xmpp_roster_update s0 = (Ok tt, s1) ->
  synchronised s1.
Proof.
  intros Hwf Hrun. unfold xmpp_roster_update in Hrun.
  apply bind_inv in Hrun. destruct Hrun as ([] & sa & Ha & Hrun).
  apply bind_inv in Hrun. destruct Hrun as (R & sb & Hb & Hrun).
  apply bind_inv in Hrun. destruct Hrun as ([] & sc & Hc & Hrun).
  apply bind_inv in Hrun. destruct Hrun as ([] & sd & Hd & Hrun).
  apply bind_inv in Hrun. destruct Hrun as ([] & se & He & Hrun).
  apply bind_inv in Hrun. destruct Hrun as ([] & sf & Hf & Hrun).
  (* the log record and the snapshot *)
  unfold log, modify in Ha. injection Ha as <-.
  destruct (snapshot_roster_inv _ _ _ Hb) as [j Hroster].
  rewrite (snapshot_roster_run _ j R Hroster) in Hb. injection Hb as <-.
  set (sb := with_roster_dict R _) in *.
  assert (core_eq s0 sb) as Hsb by now constructor.
  assert (wf sb) as Hwfb by (eapply wf_core_eq; eassumption).
  (* the rooms found by topic *)
  destruct (map_rooms_by_topic_inv _ _ Hc) as [specials Hids].
  destruct (map_rooms_by_topic_run sb specials Hids)
    as (sc' & Hc' & Hstc & Hentries & _ & _).
  rewrite Hc' in Hc. injection Hc as ->.
  assert (wf sc) as Hwfc.
  { destruct Hwfb as [H1 H2 H3 H4]. destruct Hstc as [? ? ? Hfr Hn ? ? ?].
    constructor; rewrite ?Hfr, ?Hn.
    - assumption.
    - assumption.
    - intros k rid Hin. destruct (Hentries k rid Hin) as [H|H]; [eauto|].
      apply H2. apply listed_ids_in. now rewrite <- client_ids_frames.
    - intros k rid Hin. apply (H4 k). congruence. }
  (* the rooms created *)
  destruct (create_missing_rooms_inv R sc sd Hwfc Hd)
    as (Hwfd & Hsetd & Hspd & Hjd & Hrd & Hall).
  (* the invitations *)
  unfold log, modify in He. injection He as <-.
  rewrite invite_to_all_rooms_run in Hf by (fields; now apply wf_nodup_rooms).
  injection Hf as <-.
  unfold log, modify in Hrun. injection Hrun as <-.
  match goal with |- synchronised ?s => assert (core_eq sd s) as Hend by now constructor end.
  split; [eapply wf_core_eq; eassumption|]. split.
  - exists specials. fields. rewrite Hspd, (st_specials _ _ Hstc). exact Hids.
  - exists j, R. split.
    + fields. rewrite Hrd, (st_roster _ _ Hstc). exact Hroster.
    + intros jid info Hin Hw.
      assert (wanted sc jid) as Hwc.
      { apply (wanted_core_eq _ _ _ Hend) in Hw. unfold wanted in *.
        now rewrite <- Hsetd, <- Hjd. }
      destruct (Hall jid info Hin Hwc) as [H|H];
        [left; eapply by_id_core_eq | right; eapply by_obj_core_eq]; eassumption.
Qed.

(** C3, as stated, fails: an invitee who was invited but has not joined is
    invited again by the next synchronisation. *)
Lemma second_sync_invites_again :
  ~ (forall (s0 s1 s2 : State),
       wf s0 ->
       xmpp_roster_update s0 = (Ok tt, s1) ->
       xmpp_roster_update s1 = (Ok tt, s2) ->
       invitations (calls s2) = invitations (calls s1)).
Proof.
  intros H.
  assert (wf Scenario.started) as Hwf.
  { constructor; vm_compute.
    - repeat constructor; simpl; intuition discriminate.
    - intros rid [<-|[<-|[]]]; lia.
    - intros k rid [].
    - intros k rid [[= _ <-]|[[= _ <-]|[]]]; lia. }
  assert (xmpp_roster_update Scenario.started
          = (Ok tt, state_after xmpp_roster_update Scenario.started)) as H1
    by (vm_compute; reflexivity).
  assert (xmpp_roster_update (state_after xmpp_roster_update Scenario.started)
          = (Ok tt, state_after xmpp_roster_update
                      (state_after xmpp_roster_update Scenario.started))) as H2
    by (vm_compute; reflexivity).
  specialize (H _ _ _ Hwf H1 H2).
  vm_compute in H. discriminate H.
Qed.

(** C3, amended.  A synchronisation run right after one that returned,
    on the state it left, returns too; it creates no room, and it sends
    one invitation for each listed room and each configured invitee who
    has not joined that room, and no other: none at all once every
    invitee has joined every room. *)
Theorem second_sync_creates_nothing :
  forall (s0 s1 : State),
    wf s0 ->
    xmpp_roster_update s0 = (Ok tt, s1) ->
    exists s2,
      xmpp_roster_update s1 = (Ok tt, s2) /\
      created (calls s2) = created (calls s1) /\
      room_ids (rooms s2) = room_ids (rooms s1) /\
      invitations (calls s2) = invitations (calls s1) ++ pending_invitations s1 /\
      (pending_invitations s1 = [] ->
       invitations (calls s2) = invitations (calls s1)).
Proof.
  intros s0 s1 Hwf0 Hfirst.
  destruct (roster_update_synchronises s0 s1 Hwf0 Hfirst)
    as (Hwf & [specials Hids] & j & R & Hroster & Hall).
  unfold xmpp_roster_update.
  (* the log record and the snapshot *)
  unfold bind at 1, log at 1, modify at 1.
  set (sa := with_logs _ s1).
  assert (stable s1 sa) as Hsa by (unfold sa; stable_tac).
  erewrite bind_run by (apply (snapshot_roster_run sa j R); exact Hroster).
  set (sb := with_roster_dict R sa).
  assert (stable s1 sb) as Hsb by (unfold sb, sa; stable_tac).
  assert (core_eq s1 sb) as Hcb by now constructor.
  (* the rooms found by topic: those created by the first run *)
  destruct (map_rooms_by_topic_run sb specials Hids)
    as (sc & Hc & Hstc & _ & Hid & Hobj).
  erewrite bind_run by exact Hc.
  (* nothing to create *)
  destruct (create_missing_rooms_reuse R sc) as (sd & Hd & Hstd & Hmapd).
  { intros jid info Hin Hw.
    assert (wanted s1 jid) as Hw1.
    { unfold wanted in *.
      now rewrite <- (st_settings _ _ Hsb), <- (st_jids _ _ Hsb),
        <- (st_settings _ _ Hstc), <- (st_jids _ _ Hstc). }
    destruct (Hall jid info Hin Hw1) as [H|H].
    - apply Hid. eapply by_id_core_eq; eassumption.
    - apply Hobj; [apply Hw1|]. eapply by_obj_core_eq; eassumption. }
  erewrite bind_run by exact Hd.
  (* the invitations *)
  unfold bind at 1, log at 1, modify at 1.
  set (se := with_logs _ sd).
  assert (stable s1 se) as Hse.
  { eapply stable_trans; [exact Hsb|]. eapply stable_trans; [exact Hstc|].
    eapply stable_trans; [exact Hstd|]. unfold se. stable_tac. }
  assert (NoDup (room_ids (rooms se))) as Hnd.
  { rewrite room_ids_frames. fold (frames se). rewrite (st_frames _ _ Hse).
    apply (wf_nodup _ Hwf). }
  erewrite bind_run by (apply invite_to_all_rooms_run; exact Hnd).
  assert (pending_invitations se = pending_invitations s1) as Hpending.
  { unfold pending_invitations. now rewrite (st_frames _ _ Hse), (st_settings _ _ Hse). }
  eexists. split; [reflexivity|]. fields.
  assert (invitations (calls se ++ invite_calls (pending_invitations se))
          = invitations (calls s1) ++ pending_invitations s1) as Hinv.
  { now rewrite invitations_app, invitations_invite_calls, (st_invited _ _ Hse), Hpending. }
  split; [|split; [|split]].
  - now rewrite created_app, created_invite_calls, app_nil_r, (st_created _ _ Hse).
  - rewrite !room_ids_frames. fold (frames se) (frames s1).
    now rewrite (st_frames _ _ Hse).
  - exact Hinv.
  - intros Hnone. rewrite Hinv, Hnone. apply app_nil_r.
Qed.

Lemma started_wf : wf Scenario.started.
Proof.
  constructor; vm_compute.
  - repeat constructor; simpl; intuition discriminate.
  - intros rid [<-|[<-|[]]]; lia.
  - intros k rid [].
  - intros k rid [[= _ <-]|[[= _ <-]|[]]]; lia.
Qed.

Lemma second_sync_creates_nothing_witness :
  let s1 := state_after xmpp_roster_update Scenario.started in
  exists s2,
    xmpp_roster_update s1 = (Ok tt, s2) /\
    created (calls s2) = created (calls s1) /\
    room_ids (rooms s2) = room_ids (rooms s1) /\
    invitations (calls s2) = invitations (calls s1) ++ pending_invitations s1 /\
    (pending_invitations s1 = [] ->
     invitations (calls s2) = invitations (calls s1)).
Proof.
  intros s1.
  apply (second_sync_creates_nothing Scenario.started s1).
  - exact started_wf.
  - vm_compute. reflexivity.
Defined.

(* ================================================================== *)
(** * What no handler does *)
(* ================================================================== *)

Section Respects.
Variable R : State -> State -> Prop.
Hypothesis R_refl : forall s, R s s.
Hypothesis R_trans : forall s1 s2 s3, R s1 s2 -> R s2 s3 -> R s1 s3.

Lemma respects_ret {A} (a : A) : respects R (ret a).
Proof. intros s. apply R_refl. Qed.

Lemma respects_raise {A} (e : exn) : respects R (@raise A e).
Proof. intros s. apply R_refl. Qed.

Lemma respects_gets {A} (f : State -> A) : respects R (gets f).
Proof. intros s. apply R_refl. Qed.

Lemma respects_modify (f : State -> State) :
  (forall s, R s (f s)) -> respects R (modify f).
Proof. intros H s. apply H. Qed.

Lemma respects_bind {A B} (m : M A) (k : A -> M B) :
  respects R m -> (forall a, respects R (k a)) -> respects R (bind m k).
Proof.
  intros Hm Hk s. unfold bind. specialize (Hm s).
  destruct (m s) as [[a|e] s']; simpl in *; [|assumption].
  eapply R_trans; [eassumption | apply Hk].
Qed.

Lemma respects_for_each {A} (l : list A) (body : A -> M unit) :
  (forall x, respects R (body x)) -> respects R (for_each l body).
Proof.
  intros H. induction l as [|x l IH]; simpl.
  - apply respects_ret.
  - apply respects_bind; auto.
Qed.

Lemma respects_map_m {A B} (f : A -> M B) (l : list A) :
  (forall x, respects R (f x)) -> respects R (map_m f l).
Proof.
  intros H. induction l as [|x l IH]; simpl.
  - apply respects_ret.
  - apply respects_bind; [apply H|]. intros y.
    apply respects_bind; [apply IH|]. intros ys. apply respects_ret.
Qed.

Lemma respects_room_attr {A} rid (f : MatrixRoom -> A) : respects R (room_attr rid f).
Proof.
  intros s. unfold room_attr. destruct (find_room rid (rooms s)); apply R_refl.
Qed.
End Respects.

(** Every function of the bot and of the room client, down to the
    operations of the monad. *)
Ltac unfold_bot :=
  unfold dispatch, matrix_control_message, matrix_all_chat_message, matrix_message,
    xmpp_message, xmpp_groupchat_message, xmpp_presence_available,
    xmpp_presence_unavailable, xmpp_roster_update, snapshot_roster,
    create_missing_rooms, create_missing_room, invite_to_all_rooms,
    map_rooms_by_topic, map_room, create_groupchat_room, create_mapped_room,
    setup_special_room, get_room_for_jid, get_unmapped_rooms, get_empty_rooms;
  unfold create_room, set_room_topic, set_room_name, update_room_topic,
    update_room_name, room_name, room_topic, get_joined_members,
    send_text, send_notice, invite_user, add_listener, leave,
    client_room, get_rooms, special_room;
  unfold mutate_room, cfg, when, log, emit, subscript.

(** [leaf] proves [R s (f s)] for the updates [f] met on the way. *)
Ltac respects_with refl trans leaf :=
  repeat match goal with
  | |- respects _ (bind _ _) => apply (respects_bind _ trans); [|intros]
  | |- respects _ (ret _) => apply (respects_ret _ refl)
  | |- respects _ (raise _) => apply (respects_raise _ refl)
  | |- respects _ (gets _) => apply (respects_gets _ refl)
  | |- respects _ (for_each _ _) => apply (respects_for_each _ refl trans); intros
  | |- respects _ (map_m _ _) => apply (respects_map_m _ refl trans); intros
  | |- respects _ (room_attr _ _) => apply (respects_room_attr _ refl)
  | |- respects _ (modify _) => apply respects_modify; intros; leaf
  | |- respects _ (if ?c then _ else _) => destruct c
  | |- respects _ (match ?x with _ => _ end) => destruct x
  end.

Lemma only_grows_refl s : only_grows s s.
Proof. split; auto. Qed.

Lemma only_grows_trans s1 s2 s3 :
  only_grows s1 s2 -> only_grows s2 s3 -> only_grows s1 s3.
Proof. intros [H1 H2] [H3 H4]. split; auto. Qed.

Lemma smem_sset_keeps {V} (d : list (string * V)) k k' v :
  smem k' d = true -> smem k' (sset k v d) = true.
Proof.
  unfold Dict.mem. destruct (string_dec k' k) as [->|Hne].
  - now rewrite sget_sset_same.
  - now rewrite sget_sset_other.
Qed.

Lemma mem_app_keeps j l l' : Py.mem j l = true -> Py.mem j (l ++ l') = true.
Proof. unfold Py.mem. rewrite existsb_app. now intros ->. Qed.

Lemma dispatch_only_grows ev : respects only_grows (dispatch ev).
Proof.
  destruct ev; unfold_bot;
    respects_with only_grows_refl only_grows_trans
      ltac:(split; intros; fields; auto using smem_sset_keeps, mem_app_keeps).
Qed.

(** X1.  No handler assigns a setting of the bot or a slot of the registry
    of special rooms, whether it returns or raises: what [load_config] and
    [__init__] set stays as it is for the life of the bot. *)
Theorem handlers_keep_settings_and_registry :
  forall (ev : event) (s : State),
    settings (state_after (dispatch ev) s) = settings s /\
    special_rooms (state_after (dispatch ev) s) = special_rooms s.
Proof. intros ev s. apply keeps_dispatch. Qed.

(** X2.  No handler takes a key out of the index or an address out of the
    list of group chats, whether it returns or raises: neither [purge] nor
    [leavemuc] forgets the rooms it leaves. *)
Theorem handlers_forget_nothing :
  forall (ev : event) (s : State) (k : string),
    (smem k (topic_room_id_map s) = true ->
     smem k (topic_room_id_map (state_after (dispatch ev) s)) = true) /\
    (Py.mem k (groupchat_jids s) = true ->
     Py.mem k (groupchat_jids (state_after (dispatch ev) s)) = true).
Proof.
  intros ev s k. destruct (dispatch_only_grows ev s) as [H1 H2].
  split; [apply H1 | apply H2].
Qed.

Lemma handlers_forget_nothing_witness :
  let s := Scenario.run [Scenario.say "joinmuc team@conf.x"; RosterUpdate]
             Scenario.started in
  let s' := state_after (dispatch (Scenario.say "leavemuc team@conf.x")) s in
  outcome_of (dispatch (Scenario.say "leavemuc team@conf.x")) s = Ok tt /\
  smem "#team@conf.x" (topic_room_id_map s') = true /\
  Py.mem "team@conf.x" (groupchat_jids s') = true.
Proof.
  intros s s'. split; [vm_compute; reflexivity|].
  destruct (handlers_forget_nothing (Scenario.say "leavemuc team@conf.x") s
              "#team@conf.x") as [H1 _].
  destruct (handlers_forget_nothing (Scenario.say "leavemuc team@conf.x") s
              "team@conf.x") as [_ H2].
  split; [apply H1 | apply H2]; vm_compute; reflexivity.
Defined.

(** ** The index and the special rooms *)

Lemma no_new_identity_refl s : no_new_identity s s.
Proof. split; auto. Qed.

Lemma no_new_identity_trans s1 s2 s3 :
  no_new_identity s1 s2 -> no_new_identity s2 s3 -> no_new_identity s1 s3.
Proof. intros [H1 H2] [H3 H4]. split; [congruence | auto]. Qed.

Lemma no_new_identity_but_refl x s : no_new_identity_but x s s.
Proof. split; auto. Qed.

Lemma no_new_identity_but_trans x s1 s2 s3 :
  no_new_identity_but x s1 s2 -> no_new_identity_but x s2 s3 ->
  no_new_identity_but x s1 s3.
Proof.
  intros [H1 H2] [H3 H4]. split; [congruence|].
  intros k r Hin. destruct (H4 k r Hin) as [H|H]; auto.
Qed.

Lemma in_sset_obj (d : list (string * room_ref)) k x k0 r :
  In (k0, RoomId r) (sset k (RoomObj x) d) -> In (k0, RoomId r) d.
Proof. intros H. apply in_sset in H. destruct H as [H|[_ [=]]]. exact H. Qed.

Lemma in_sset_id (d : list (string * room_ref)) k x k0 r :
  In (k0, RoomId r) (sset k (RoomId x) d) -> In (k0, RoomId r) d \/ r = x.
Proof. intros H. apply in_sset in H. destruct H as [H|[_ [= ->]]]; auto. Qed.

Ltac identity_leaf :=
  split; [reflexivity|]; intros ? ? ?; fields;
  eauto using in_sset_obj, in_sset_id.

Lemma respects_preserves_clear {A} (m : M A) :
  respects no_new_identity m -> preserves index_clear_of_specials m.
Proof.
  intros H s Hclear k r Hin. destruct (H s) as [Hs Hsub].
  rewrite Hs. apply (Hclear k r). now apply Hsub.
Qed.

Lemma preserves_for_each_in (I : State -> Prop) {A} (l : list A) (body : A -> M unit) :
  (forall x, In x l -> preserves I (body x)) -> preserves I (for_each l body).
Proof.
  induction l as [|x l IH]; intros H; simpl.
  - intros s HI. assumption.
  - apply preserves_bind; [apply H; now left|].
    intros _. apply IH. intros y Hy. apply H. now right.
Qed.

Lemma map_room_identity x : respects (no_new_identity_but x) (map_room x).
Proof.
  unfold_bot.
  respects_with (no_new_identity_but_refl x) (no_new_identity_but_trans x)
    identity_leaf.
Qed.

Lemma ids_of_complete l ids rid : ids_of l = Some ids -> In (Some rid) l -> In rid ids.
Proof.
  revert ids. induction l as [|[x|] l IH]; simpl; intros ids.
  - intros _ [].
  - destruct (ids_of l) as [ids'|]; [|discriminate].
    intros [= <-] [[= ->]|H]; [now left | right; eauto].
  - discriminate.
Qed.

Lemma preserves_map_rooms_by_topic :
  preserves index_clear_of_specials map_rooms_by_topic.
Proof.
  intros s Hclear. unfold map_rooms_by_topic, bind.
  rewrite get_unmapped_rooms_run.
  destruct (ids_of (Dict.values (special_rooms s))) as [specials|] eqn:Hids;
    [|assumption].
  set (U := unmapped_of (valid_refs s specials) (client_ids s)).
  set (I := fun st => index_clear_of_specials st /\ special_rooms st = special_rooms s).
  assert (I (snd (for_each U map_room s))) as [H _]; [|exact H].
  apply (preserves_for_each_in I); [|now split].
  intros x Hx st [Hst Hsp].
  destruct (map_room_identity x st) as [Hsame Hsub].
  split; [|congruence].
  intros k r Hin. rewrite Hsame.
  destruct (Hsub k r Hin) as [Hold| ->]; [now apply (Hst k r)|].
  rewrite Hsp. intros Hspecial.
  apply (ids_of_complete _ _ _ Hids) in Hspecial.
  unfold U, unmapped_of in Hx. apply filter_In in Hx. destruct Hx as [_ Hvalid].
  apply negb_true_iff in Hvalid.
  assert (existsb (is_room_id x) (valid_refs s specials) = true) as Hyes;
    [|congruence].
  apply existsb_exists. exists (RoomId x). split.
  - unfold valid_refs. apply in_app_iff. right. now apply in_map.
  - simpl. apply Nat.eqb_refl.
Qed.

Lemma dispatch_identity ev :
  ev <> RosterUpdate -> respects no_new_identity (dispatch ev).
Proof.
  intros Hev. destruct ev; try congruence; unfold_bot;
    respects_with no_new_identity_refl no_new_identity_trans identity_leaf.
Qed.

Lemma event_eq_roster ev : ev = RosterUpdate \/ ev <> RosterUpdate.
Proof. destruct ev; (now left) || (right; discriminate). Qed.

Lemma preserves_dispatch_clear ev : preserves index_clear_of_specials (dispatch ev).
Proof.
  destruct (event_eq_roster ev) as [->|Hne].
  - simpl. unfold xmpp_roster_update.
    apply preserves_bind; [|intros _].
    { apply respects_preserves_clear. unfold_bot.
      respects_with no_new_identity_refl no_new_identity_trans identity_leaf. }
    apply preserves_bind; [|intros roster0].
    { apply respects_preserves_clear. unfold_bot.
      respects_with no_new_identity_refl no_new_identity_trans identity_leaf. }
    apply preserves_bind; [apply preserves_map_rooms_by_topic|intros _].
    apply respects_preserves_clear. unfold_bot.
    respects_with no_new_identity_refl no_new_identity_trans identity_leaf.
  - apply respects_preserves_clear. now apply dispatch_identity.
Qed.

Lemma same_index_refl s : same_index s s.
Proof. reflexivity. Qed.

Lemma same_index_trans s1 s2 s3 : same_index s1 s2 -> same_index s2 s3 -> same_index s1 s3.
Proof. unfold same_index. congruence. Qed.

Ltac same_index_leaf :=
  unfold same_index; try reflexivity;
  repeat match goal with |- context [if ?c then _ else _] => destruct c end;
  reflexivity.

Lemma init_attributes_index config s :
  topic_room_id_map (snd (init_attributes config s)) = [].
Proof.
  unfold init_attributes.
  unfold bind at 1 2. unfold modify at 1 2. fields.
  match goal with
  | |- topic_room_id_map (snd (?m ?s0)) = [] =>
      assert (respects same_index m) as H; [|exact (H s0)]
  end.
  unfold load_config. unfold_bot.
  respects_with same_index_refl same_index_trans same_index_leaf.
Qed.

(** Construction leaves the index empty: the rooms of the account are
    indexed by the first synchronisation of the roster, not before. *)
Lemma init_index_empty config s :
  topic_room_id_map (state_after (__init__ config) s) = [].
Proof.
  unfold state_after, __init__. unfold bind at 1.
  pose proof (init_attributes_index config s) as H0.
  destruct (init_attributes config s) as [[[]|e] s0]; simpl in H0; [|exact H0].
  match goal with
  | |- topic_room_id_map (snd (?m ?s0)) = [] =>
      assert (respects same_index m) as H; [|rewrite (H s0); exact H0]
  end.
  unfold recover_rooms, setup_special_rooms, invite_to_special_rooms, start_xmpp.
  unfold_bot.
  respects_with same_index_refl same_index_trans same_index_leaf.
Qed.

(** X3.  In every state a bot goes through, no entry of the index names a
    special room by its identity: neither the control room nor the
    all-chat room is ever mapped to an address. *)
Theorem index_never_names_a_special_room :
  forall (config : Config) (s : State) (k : string) (r : nat),
    reachable config s ->
    In (k, RoomId r) (topic_room_id_map s) ->
    ~ In (Some r) (Dict.values (special_rooms s)).
Proof.
  intros config s k r Hreach. revert k r.
  change (index_clear_of_specials s).
  induction Hreach as [l next ro | s ev _ IH | s s' _ IH Hsame].
  - intros k r. rewrite init_index_empty. intros [].
  - now apply preserves_dispatch_clear.
  - destruct Hsame as (_ & Hi & Hr & _). intros k r. rewrite Hi, Hr. apply IH.
Qed.

Lemma index_never_names_a_special_room_witness :
  let s := state_after (dispatch RosterUpdate)
             (state_after (__init__ Scenario.config)
                (new_bot [Purge.bobs_room] 1 [("bot@x", [("bob@x", mkItem "Bob")])])) in
  In ("bob@x", RoomId 0) (topic_room_id_map s) /\
  ~ In (Some 0) (Dict.values (special_rooms s)).
Proof.
  intros s.
  assert (In ("bob@x", RoomId 0) (topic_room_id_map s)) as Hin
    by (vm_compute; now left).
  split; [exact Hin|].
  refine (index_never_names_a_special_room Scenario.config s "bob@x" 0 _ Hin).
  exact (reach_event _ _ RosterUpdate (reach_init _ _ _ _)).
Defined.

(* ================================================================== *)
(** * Commands the control room does not know *)
(* ================================================================== *)

(** [str.split] breaks at the blanks beyond the ASCII range as well: a
    no-break space (U+00A0) or an ideographic space (U+3000) after the
    command word ends it. *)
Lemma split_at_wide_blanks :
  Py.split ("purge" ++ String "194" (String "160" "now")) = ["purge"; "now"] /\
  Py.split ("joinmuc" ++ String "227" (String "128" (String "128" "team@conf.x")))
    = ["joinmuc"; "team@conf.x"] /\
  recognised (Py.split ("purge" ++ String "194" (String "160" "now"))) = true.
Proof. repeat split; reflexivity. Qed.

(** X4.  A text typed into the control room that is not one of the four
    commands (blank text, an unknown first word, or [joinmuc] and
    [leavemuc] without an address) is ignored: the handler returns, calls
    neither network and changes nothing but the log.  The words are those
    of [str.split], which breaks at every blank of [str.isspace]. *)
Theorem unknown_command_is_ignored :
  forall (s : State) (room : MatrixRoom) (e : MatrixEvent),
    sender e <> bot_id (settings s) ->
    msgtype e = "m.text" ->
    recognised (Py.split (body e)) = false ->
    exists l, matrix_control_message room e s = (Ok tt, with_logs l s).
Proof.
  intros s room e Hsender Hty Hrec.
  apply String.eqb_neq in Hsender.
  unfold matrix_control_message. unfold_monad. fields.
  rewrite Hsender. fields. rewrite Hty. cbn [String.eqb Ascii.eqb Bool.eqb]. fields.
  unfold recognised in Hrec.
  destruct (Py.split (body e)) as [|word rest]; [eexists; reflexivity|].
  cbv zeta in Hrec.
  destruct (String.eqb (Py.lower word) "refresh"); [discriminate|].
  destruct (String.eqb (Py.lower word) "purge"); [discriminate|].
  destruct rest as [|arg rest]; [eexists; reflexivity|].
  destruct (String.eqb (Py.lower word) "joinmuc"); [discriminate|].
  destruct (String.eqb (Py.lower word) "leavemuc"); [discriminate|].
  eexists; reflexivity.
Qed.

Lemma unknown_command_is_ignored_witness :
  (exists l, matrix_control_message Scenario.control_room
               (Scenario.text "@admin:x" "JoinMUC") Scenario.started
             = (Ok tt, with_logs l Scenario.started)) /\
  (exists l, matrix_control_message Scenario.control_room
               (Scenario.text "@admin:x" "  ") Scenario.started
             = (Ok tt, with_logs l Scenario.started)).
Proof.
  split;
    (apply unknown_command_is_ignored; [discriminate | reflexivity | reflexivity]).
Defined.

(* ================================================================== *)
(** * Synchronising without exactly one roster *)
(* ================================================================== *)

(** X5.  A roster update on an account that exposes no roster raises
    [IndexError], and on one that exposes more than one raises the
    exception of line 476; in both cases before anything is done: no room
    is indexed or created, nobody is invited, and the state is as it was
    with one more log record. *)
Theorem roster_update_needs_one_roster :
  forall (s : State),
    List.length (roster s) <> 1 ->
    exists e,
      xmpp_roster_update s =
        (Raise e,
         with_logs (logs s ++ [(DEBUG, "######### ROSTER UPDATE ###########")]) s) /\
      (roster s = [] -> e = IndexError) /\
      (roster s <> [] ->
       e = Exception "Not sure what to do with more than one roster...").
Proof.
  intros s Hlen. unfold xmpp_roster_update, snapshot_roster. unfold_monad. fields.
  unfold Dict.keys.
  destruct (roster s) as [|[j R] [|x l]]; simpl in *.
  - eexists. split; [reflexivity|]. split; [reflexivity | congruence].
  - congruence.
  - eexists. split; [reflexivity|]. split; [discriminate | reflexivity].
Qed.

Lemma roster_update_needs_one_roster_witness :
  let s := state_after (__init__ Scenario.config) (new_bot [] 0 []) in
  exists e,
    xmpp_roster_update s =
      (Raise e,
       with_logs (logs s ++ [(DEBUG, "######### ROSTER UPDATE ###########")]) s) /\
    (roster s = [] -> e = IndexError) /\
    (roster s <> [] ->
     e = Exception "Not sure what to do with more than one roster...").
Proof.
  intros s. apply (roster_update_needs_one_roster s). discriminate.
Defined.

(* ================================================================== *)
(** * Rooms made and rooms renamed *)
(* ================================================================== *)

Lemma in_room_ids_app_new l rid r : room_id r = rid -> In rid (room_ids (l ++ [r])).
Proof.
  intros <-. unfold room_ids. rewrite map_app, in_app_iff. right. now left.
Qed.

Lemma name_refresh_with_name n r : name (refresh_name (with_name n r)) = Some n.
Proof. reflexivity. Qed.

(** The calls and the outcome of the creating branch, exactly. *)
Lemma create_mapped_room_new_exact s t nm :
  Py.mem t (groupchat_jids s) = false ->
  sget t (topic_room_id_map s) = None ->
  exists s' room,
    create_mapped_room t nm s = (Ok (Some (next_room_id s)), s') /\
    calls s' = calls s ++ [CreateRoom (next_room_id s);
                           SetRoomTopic (next_room_id s) t;
                           SetRoomName (next_room_id s) (expected_name t nm)] /\
    find_room (next_room_id s) (rooms s') = Some room /\
    topic room = Some t /\
    name room = Some (expected_name t nm) /\
    settings s' = settings s /\
    groupchat_jids s' = groupchat_jids s /\
    topic_room_id_map s' =
      sset t (RoomObj (next_room_id s)) (topic_room_id_map s).
Proof.
  intros Hmem Hget.
  set (n := next_room_id s).
  set (fresh := mkRoom n None None None None [bot_id (settings s)] true).
  destruct (find_room_some n (rooms s ++ [fresh])) as [y Hy];
    [now apply in_room_ids_app_new|].
  pose proof (find_room_update n (with_topic t) _ _ (fun r => eq_refl) Hy) as H1.
  pose proof (find_room_update n (with_name (expected_name t nm)) _ _
                (fun r => eq_refl) H1) as H2.
  pose proof (find_room_update n refresh_name _ _ room_id_refresh_name H2) as H3.
  unfold create_mapped_room, Dict.mem. unfold_client. unfold_monad. fields.
  rewrite Hmem, Hget. fields.
  fold n. fold fresh. fold (expected_name t nm).
  rewrite H3. fields. rewrite name_refresh_with_name, String.eqb_refl.
  rewrite andb_false_r. fields.
  eexists. eexists. split; [reflexivity|]. fields.
  split; [now rewrite <- !app_assoc|].
  split; [exact H3|]. repeat split.
Qed.

Lemma create_groupchat_room_new s addr :
  Py.mem (groupchat_flag (settings s) ++ addr) (groupchat_jids s) = false ->
  sget (groupchat_flag (settings s) ++ addr)%string (topic_room_id_map s) = None ->
  let t := (groupchat_flag (settings s) ++ addr)%string in
  let n := next_room_id s in
  exists s' room,
    create_groupchat_room addr s = (Ok tt, s') /\
    calls s' = calls s
               ++ [CreateRoom n; SetRoomTopic n t; SetRoomName n t]
               ++ map (InviteUser n) (users_to_invite (settings s)) /\
    Py.mem addr (groupchat_jids s') = true /\
    topic_room_id_map s' = sset t (RoomObj n) (topic_room_id_map s) /\
    settings s' = settings s /\
    find_room n (rooms s') = Some room /\ topic room = Some t /\ name room = Some t.
Proof.
  intros Hmem Hget t n.
  destruct (create_mapped_room_new_exact s t None Hmem Hget)
    as (sb & r & Hrun & Hcalls & Hfind & Htopic & Hname & Hset & Hjids & Hmap).
  unfold create_groupchat_room.
  unfold bind at 1. unfold cfg at 1, gets at 1. fold t.
  erewrite bind_run by exact Hrun.
  unfold bind at 1. unfold gets at 1.
  assert (exists sc, when (negb (Py.mem addr (groupchat_jids sb)))
                       (modify (fun s0 => with_groupchat_jids
                                            (groupchat_jids s0 ++ [addr]) s0)) sb
                     = (Ok tt, sc)
                     /\ Py.mem addr (groupchat_jids sc) = true
                     /\ calls sc = calls sb /\ rooms sc = rooms sb
                     /\ settings sc = settings sb
                     /\ topic_room_id_map sc = topic_room_id_map sb)
    as (sc & Hwhen & Hin & Hc & Hr & Hs & Hm).
  { destruct (Py.mem addr (groupchat_jids sb)) eqn:E; simpl.
    - exists sb. repeat split; auto.
    - eexists. split; [reflexivity|]. fields. repeat split.
      unfold Py.mem. rewrite existsb_app. simpl. rewrite String.eqb_refl.
      now rewrite orb_true_r. }
  erewrite bind_run by exact Hwhen.
  unfold bind at 1. unfold cfg at 1, gets at 1.
  unfold invite_user, emit, modify. cbv beta iota.
  rewrite (for_each_emit (InviteUser (next_room_id s))).
  eexists. exists r. split; [reflexivity|]. fields.
  rewrite Hs, Hset, Hc, Hcalls, Hr, Hm, Hmap.
  split; [now rewrite <- !app_assoc|]. auto 10.
Qed.

(** X6.  [joinmuc <address>], when the flag followed by the address is
    neither a key of the index nor itself a member of [groupchat_jids]
    (the test [create_mapped_room] makes on its topic), creates one room
    with the flag followed by the address as topic and as name, invites
    every configured invitee to it, records the address among the group
    chats, indexes the room under its topic, and then joins the group chat
    with the configured nickname: these calls, in this order, and no
    other.  Whether the address alone is in [groupchat_jids] already makes
    no difference. *)
Theorem joinmuc_creates_the_room :
  forall (s : State) (room : MatrixRoom) (e : MatrixEvent)
         (word addr : string) (rest : list string),
    sender e <> bot_id (settings s) ->
    msgtype e = "m.text" ->
    Py.split (body e) = word :: addr :: rest ->
    Py.lower word = "joinmuc" ->
    Py.mem (groupchat_flag (settings s) ++ addr) (groupchat_jids s) = false ->
    sget (groupchat_flag (settings s) ++ addr)%string (topic_room_id_map s) = None ->
    let t := (groupchat_flag (settings s) ++ addr)%string in
    let n := next_room_id s in
    let s' := state_after (matrix_control_message room e) s in
    outcome_of (matrix_control_message room e) s = Ok tt /\
    calls s' = calls s
               ++ [CreateRoom n; SetRoomTopic n t; SetRoomName n t]
               ++ map (InviteUser n) (users_to_invite (settings s))
               ++ [JoinMUC addr (xmpp_groupchat_nick (settings s))] /\
    Py.mem addr (groupchat_jids s') = true /\
    smem t (topic_room_id_map s') = true /\
    (exists r, find_room n (rooms s') = Some r /\ topic r = Some t /\ name r = Some t).
Proof.
  intros s room e word addr rest Hsender Hty Hsplit Hword Hmem Hget t n s'.
  apply String.eqb_neq in Hsender.
  set (sa := with_logs (logs s ++ [(DEBUG, "matrix_control_message: {}  {}");
                                   (INFO, ("Matrix received control message: "
                                           ++ body e)%string);
                                   (INFO, ("XMPP MUC join: " ++ addr)%string)]) s).
  destruct (create_groupchat_room_new sa addr Hmem Hget)
    as (sc & r & Hrun & Hcalls & Hin & Hmap & Hset & Hfind & Htopic & Hname).
  assert (matrix_control_message room e s =
          (Ok tt, with_calls (calls sc ++ [JoinMUC addr (xmpp_groupchat_nick (settings s))])
                    sc)) as Hfinal.
  { unfold matrix_control_message. unfold bind at 1. unfold cfg at 1, gets at 1.
    rewrite Hsender. unfold bind at 1. unfold log at 1, modify at 1.
    rewrite Hty. cbn [String.eqb Ascii.eqb Bool.eqb when].
    unfold bind at 1. unfold log at 1, modify at 1. fields.
    rewrite Hsplit, Hword. cbn [String.eqb Ascii.eqb Bool.eqb].
    unfold bind at 1. unfold log at 1, modify at 1. fields.
    rewrite <- !app_assoc. cbn [app]. fold sa.
    erewrite bind_run by exact Hrun.
    unfold bind, cfg, gets, emit, modify. now rewrite Hset. }
  unfold s', outcome_of, state_after. rewrite Hfinal. fields.
  split; [reflexivity|]. split; [rewrite Hcalls; now rewrite <- !app_assoc|].
  split; [exact Hin|]. split.
  - rewrite Hmap. unfold Dict.mem. now rewrite sget_sset_same.
  - exists r. auto.
Qed.

Lemma joinmuc_creates_the_room_witness :
  let s := Scenario.started in
  let ev := Scenario.text "@admin:x" "joinmuc team@conf.x" in
  let s' := state_after (matrix_control_message Scenario.control_room ev) s in
  outcome_of (matrix_control_message Scenario.control_room ev) s = Ok tt /\
  calls s' = calls s
             ++ [CreateRoom 2; SetRoomTopic 2 "#team@conf.x";
                 SetRoomName 2 "#team@conf.x"]
             ++ map (InviteUser 2) ["@admin:x"]
             ++ [JoinMUC "team@conf.x" "bridge"] /\
  Py.mem "team@conf.x" (groupchat_jids s') = true /\
  smem "#team@conf.x" (topic_room_id_map s') = true /\
  (exists r, find_room 2 (rooms s') = Some r /\
             topic r = Some "#team@conf.x" /\ name r = Some "#team@conf.x").
Proof.
  intros s ev.
  refine (joinmuc_creates_the_room s Scenario.control_room ev
            "joinmuc" "team@conf.x" [] _ _ _ _ _ _);
    [discriminate | reflexivity ..].
Defined.

(** The reuse branch, exactly: the one call it can make is the renaming. *)
Lemma create_mapped_room_reuse_exact s t nm r0 :
  Py.mem t (groupchat_jids s) = false ->
  sget t (topic_room_id_map s) = Some (RoomId r0) ->
  In r0 (client_ids s) ->
  exists s' room0 room,
    find_room r0 (rooms s) = Some room0 /\
    create_mapped_room t nm s = (Ok (Some r0), s') /\
    find_room r0 (rooms s') = Some room /\
    calls s' =
      calls s ++
      (if restore_room_topic (settings s) &&
          negb (match name (refresh_name room0) with
                | Some n => String.eqb n (expected_name t nm)
                | None => false
                end)
       then [SetRoomName r0 (expected_name t nm)] else []) /\
    (restore_room_topic (settings s) = true ->
     name room = Some (expected_name t nm)) /\
    topic_room_id_map s' = topic_room_id_map s.
Proof.
  intros Hmem Hget Hin.
  pose proof (proj2 (existsb_eqb_in r0 _) Hin) as Hex.
  destruct (find_room_some r0 (rooms s) (client_ids_in_rooms _ _ Hin)) as [room0 Hroom].
  pose proof (find_room_update r0 refresh_name _ _ room_id_refresh_name Hroom) as H1.
  pose proof (find_room_update r0 (with_name (expected_name t nm)) _ _
                (fun r => eq_refl) H1) as H2.
  unfold create_mapped_room, Dict.mem. unfold_client. unfold_monad. fields.
  rewrite Hmem, Hget. fields. fold (client_ids s). rewrite Hex. fields.
  fold (expected_name t nm). rewrite H1.
  remember (restore_room_topic (settings s) &&
            negb (match name (refresh_name room0) with
                  | Some n => String.eqb n (expected_name t nm)
                  | None => false
                  end)) as cond eqn:Hcond.
  symmetry in Hcond. destruct cond.
  - eexists. exists room0. eexists. split; [exact Hroom|].
    split; [reflexivity|]. fields. rewrite Hcond. split; [exact H2|].
    split; [reflexivity|]. split; [reflexivity | reflexivity].
  - eexists. exists room0. eexists. split; [exact Hroom|].
    split; [reflexivity|]. fields. rewrite Hcond. split; [exact H1|].
    rewrite app_nil_r. split; [reflexivity|]. split; [|reflexivity].
    intros Hrestore. rewrite Hrestore in Hcond.
    cbn [andb] in Hcond. apply negb_false_iff in Hcond.
    destruct (name (refresh_name room0)) as [n0|]; [|discriminate].
    apply String.eqb_eq in Hcond. now subst.
Qed.

(** X7.  With [restore_room_topic] on, the room [create_mapped_room]
    returns, whether it made it or found it in the index, carries the
    expected name when the call returns: the name asked for, or the topic
    when none or an empty one was given. *)
Theorem returned_room_has_the_expected_name :
  forall (s s' : State) (t : string) (nm : option string) (r : nat),
    restore_room_topic (settings s) = true ->
    create_mapped_room t nm s = (Ok (Some r), s') ->
    exists room, find_room r (rooms s') = Some room /\
                 name room = Some (expected_name t nm).
Proof.
  intros s s' t nm r Hrestore Hrun.
  destruct (Py.mem t (groupchat_jids s)) eqn:Hmem.
  { destruct (create_mapped_room_skip s t nm Hmem) as (s1 & Hrun1 & _).
    rewrite Hrun1 in Hrun. discriminate. }
  destruct (sget t (topic_room_id_map s)) as [[r0|r0]|] eqn:Hget.
  - destruct (existsb (Nat.eqb r0) (client_ids s)) eqn:Hex.
    + apply existsb_eqb_in in Hex.
      destruct (create_mapped_room_reuse_exact s t nm r0 Hmem Hget Hex)
        as (s1 & room0 & room & _ & Hrun1 & Hfind & _ & Hname & _).
      rewrite Hrun1 in Hrun. injection Hrun as <- <-. eauto.
    + rewrite (create_mapped_room_dangling s t nm r0 Hmem Hget Hex) in Hrun.
      discriminate.
  - rewrite (create_mapped_room_object s t nm r0 Hmem Hget) in Hrun. discriminate.
  - destruct (create_mapped_room_new_exact s t nm Hmem Hget)
      as (s1 & room & Hrun1 & _ & Hfind & _ & Hname & _).
    rewrite Hrun1 in Hrun. injection Hrun as <- <-. eauto.
Qed.

Lemma returned_room_has_the_expected_name_witness :
  let s := state_after (dispatch RosterUpdate)
             (state_after (__init__ Scenario.config)
                (new_bot [Purge.bobs_room] 1 [("bot@x", [("bob@x", mkItem "Bob")])])) in
  let s' := state_after (create_mapped_room "bob@x" (Some "Robert")) s in
  exists room, find_room 0 (rooms s') = Some room /\
               name room = Some (expected_name "bob@x" (Some "Robert")).
Proof.
  intros s s'.
  apply (returned_room_has_the_expected_name s s' "bob@x" (Some "Robert") 0).
  - reflexivity.
  - vm_compute. reflexivity.
Defined.



(* ================================================================== *)
(** * Messages relayed *)
(* ================================================================== *)

Lemma startswith_app p s : Py.startswith (p ++ s) p = true.
Proof.
  unfold Py.startswith. induction p as [|c p IH]; simpl.
  - now destruct s.
  - destruct (ascii_dec c c) as [_|Hne]; [assumption | congruence].
Qed.

Lemma slice_from_app p s : Py.slice_from (String.length p) (p ++ s) = s.
Proof. induction p as [|c p IH]; simpl; [now destruct s | assumption]. Qed.

(** Running a handler down to the updates of the state. *)
Ltac run_handler :=
  unfold_monad; unfold_client; unfold_monad; fields.

(** X9.  A text message written in a room whose topic is the group-chat
    flag followed by an address goes to that address, flag stripped, as a
    [groupchat] message with its body unchanged; when mirroring is on, a
    notice "To <name> : <body>" follows in the all-chat room. *)
Theorem room_message_reaches_the_group_chat :
  forall (s : State) (room : MatrixRoom) (e : MatrixEvent)
         (addr nick : string) (all_chat : nat),
    sender e <> bot_id (settings s) ->
    msgtype e = "m.text" ->
    topic room = Some (groupchat_flag (settings s) ++ addr)%string ->
    sget addr (jid_nick_map s) = Some nick ->
    (send_messages_to_all_chat (settings s) = true ->
     sget "all_chat" (special_rooms s) = Some (Some all_chat)) ->
    outcome_of (matrix_message room e) s = Ok tt /\
    calls (state_after (matrix_message room e) s) =
      calls s ++
      SendMessage addr (body e) "groupchat" ::
      (if send_messages_to_all_chat (settings s)
       then [SendNotice all_chat ("To " ++ nick ++ " : " ++ body e)]
       else []).
Proof.
  intros s room e addr nick all_chat Hsender Hty Htopic Hnick Hmirror.
  apply String.eqb_neq in Hsender.
  unfold matrix_message. run_handler.
  rewrite Hsender, Htopic. fields.
  destruct (smem (groupchat_flag (settings s) ++ addr)%string (special_rooms s)); fields;
    rewrite Hty; cbn [String.eqb Ascii.eqb Bool.eqb]; fields;
    rewrite startswith_app, slice_from_app; fields;
    rewrite Hnick; fields;
    (destruct (send_messages_to_all_chat (settings s)); fields;
     [rewrite (Hmirror eq_refl); fields; split;
        [reflexivity | now rewrite <- app_assoc]
     | split; reflexivity]).
Qed.

Lemma room_message_reaches_the_group_chat_witness :
  let s := with_jid_nick_map [("team@conf.x", "Team")]
             (Scenario.run [Scenario.say "joinmuc team@conf.x"] Scenario.started) in
  let room := mkRoom 2 (Some "#team@conf.x") (Some "#team@conf.x")
                (Some "#team@conf.x") (Some "#team@conf.x") ["@bot:x"; "@admin:x"] true in
  let e := Scenario.text "@admin:x" "good morning" in
  outcome_of (matrix_message room e) s = Ok tt /\
  calls (state_after (matrix_message room e) s) =
    calls s ++
    SendMessage "team@conf.x" "good morning" "groupchat" ::
    (if send_messages_to_all_chat (settings s)
     then [SendNotice 1 ("To " ++ "Team" ++ " : " ++ "good morning")]
     else []).
Proof.
  intros s room e.
  refine (room_message_reaches_the_group_chat s room e "team@conf.x" "Team" 1 _ _ _ _ _);
    [ vm_compute; discriminate | reflexivity | vm_compute; reflexivity
    | vm_compute; reflexivity | intros _; vm_compute; reflexivity ].
Defined.

(** X10.  A text message written in a room whose topic does not start
    with the group-chat flag goes to the topic, taken as the contact's
    address, as a [chat] message with its body unchanged; when mirroring
    is on, a notice "To <name> : <body>" follows in the all-chat room. *)
Theorem room_message_reaches_the_contact :
  forall (s : State) (room : MatrixRoom) (e : MatrixEvent)
         (jid nick : string) (all_chat : nat),
    sender e <> bot_id (settings s) ->
    msgtype e = "m.text" ->
    topic room = Some jid ->
    Py.startswith jid (groupchat_flag (settings s)) = false ->
    sget jid (jid_nick_map s) = Some nick ->
    (send_messages_to_all_chat (settings s) = true ->
     sget "all_chat" (special_rooms s) = Some (Some all_chat)) ->
    outcome_of (matrix_message room e) s = Ok tt /\
    calls (state_after (matrix_message room e) s) =
      calls s ++
      SendMessage jid (body e) "chat" ::
      (if send_messages_to_all_chat (settings s)
       then [SendNotice all_chat ("To " ++ nick ++ " : " ++ body e)]
       else []).
Proof.
  intros s room e jid nick all_chat Hsender Hty Htopic Hflag Hnick Hmirror.
  apply String.eqb_neq in Hsender.
  unfold matrix_message. run_handler.
  rewrite Hsender, Htopic. fields.
  destruct (smem jid (special_rooms s)); fields;
    rewrite Hty; cbn [String.eqb Ascii.eqb Bool.eqb]; fields;
    rewrite Hflag; fields;
    rewrite Hnick; fields;
    (destruct (send_messages_to_all_chat (settings s)); fields;
     [rewrite (Hmirror eq_refl); fields; split;
        [reflexivity | now rewrite <- app_assoc]
     | split; reflexivity]).
Qed.

Lemma room_message_reaches_the_contact_witness :
  let s := state_after xmpp_roster_update Scenario.started in
  let room := mkRoom 2 (Some "alice@x") (Some "Alice") (Some "alice@x") (Some "Alice")
                ["@bot:x"; "@admin:x"] true in
  let e := Scenario.text "@admin:x" "hello Alice" in
  outcome_of (matrix_message room e) s = Ok tt /\
  calls (state_after (matrix_message room e) s) =
    calls s ++
    SendMessage "alice@x" "hello Alice" "chat" ::
    (if send_messages_to_all_chat (settings s)
     then [SendNotice 1 ("To " ++ "Alice" ++ " : " ++ "hello Alice")]
     else []).
Proof.
  intros s room e.
  refine (room_message_reaches_the_contact s room e "alice@x" "Alice" 1 _ _ _ _ _ _);
    [ vm_compute; discriminate | reflexivity | reflexivity | vm_compute; reflexivity
    | vm_compute; reflexivity | intros _; vm_compute; reflexivity ].
Defined.

(** X11.  A text message written in a mapped room is sent only if its
    target address has a name in the roster snapshot: otherwise the
    handler raises [KeyError] at the lookup of the name and nothing is
    sent or mirrored.  The roster synchronisation is the only place of
    this file that writes names, and it writes them for roster contacts;
    the witness is a group-chat room right after [joinmuc] and a
    synchronisation. *)
Theorem room_message_without_name_is_not_sent :
  forall (s : State) (room : MatrixRoom) (e : MatrixEvent) (t : string),
    sender e <> bot_id (settings s) ->
    msgtype e = "m.text" ->
    topic room = Some t ->
    sget (if Py.startswith t (groupchat_flag (settings s))
          then Py.slice_from (String.length (groupchat_flag (settings s))) t
          else t) (jid_nick_map s) = None ->
    outcome_of (matrix_message room e) s = Raise KeyError /\
    calls (state_after (matrix_message room e) s) = calls s.
Proof.
  intros s room e t Hsender Hty Htopic Hnick.
  apply String.eqb_neq in Hsender.
  unfold matrix_message. run_handler.
  rewrite Hsender, Htopic. fields.
  destruct (smem t (special_rooms s)); fields;
    rewrite Hty; cbn [String.eqb Ascii.eqb Bool.eqb]; fields;
    (destruct (Py.startswith t (groupchat_flag (settings s))); fields;
     rewrite Hnick; split; reflexivity).
Qed.

Lemma room_message_without_name_is_not_sent_witness :
  let s := Scenario.run [Scenario.say "joinmuc team@conf.x"; RosterUpdate]
             Scenario.started in
  let room := mkRoom 2 (Some "#team@conf.x") (Some "#team@conf.x")
                (Some "#team@conf.x") (Some "#team@conf.x") ["@bot:x"; "@admin:x"] true in
  let e := Scenario.text "@admin:x" "good morning" in
  outcome_of (matrix_message room e) s = Raise KeyError /\
  calls (state_after (matrix_message room e) s) = calls s.
Proof.
  intros s room e.
  refine (room_message_without_name_is_not_sent s room e "#team@conf.x" _ _ _ _);
    [ vm_compute; discriminate | reflexivity | reflexivity | vm_compute; reflexivity ].
Defined.

Lemma get_room_for_jid_listed s jid r :
  sget jid (topic_room_id_map s) = Some (RoomId r) ->
  In r (client_ids s) ->
  get_room_for_jid jid s = (Ok r, s).
Proof.
  intros Hidx Hin. apply existsb_eqb_in in Hin. unfold client_ids in Hin.
  unfold get_room_for_jid, client_room, get_rooms. unfold_monad.
  now rewrite Hidx, Hin.
Qed.

(** X12.  A [chat] or [normal] message from a contact that has a roster
    name, is no group chat and is indexed by the identity of a room the
    client lists is posted in that room as a text with its body
    unchanged; when mirroring is on, the text "From <name>: <body>"
    follows in the all-chat room.  Nothing else is called. *)
Theorem contact_message_reaches_its_room :
  forall (s : State) (m : Message) (name : string) (r all_chat : nat),
    msg_type m = "chat" \/ msg_type m = "normal" ->
    sget (bare (msg_from m)) (jid_nick_map s) = Some name ->
    Py.mem (bare (msg_from m)) (groupchat_jids s) = false ->
    sget (bare (msg_from m)) (topic_room_id_map s) = Some (RoomId r) ->
    In r (client_ids s) ->
    (send_messages_to_all_chat (settings s) = true ->
     sget "all_chat" (special_rooms s) = Some (Some all_chat)) ->
    outcome_of (xmpp_message m) s = Ok tt /\
    calls (state_after (xmpp_message m) s) =
      calls s ++
      SendText r (msg_body m) ::
      (if send_messages_to_all_chat (settings s)
       then [SendText all_chat ("From " ++ name ++ ": " ++ msg_body m)]
       else []).
Proof.
  intros s m name r all_chat Hty Hname Hmuc Hidx Hin Hmirror.
  assert (String.eqb (msg_type m) "normal" || String.eqb (msg_type m) "chat" = true)
    as Hty' by (destruct Hty as [-> | ->]; reflexivity).
  apply existsb_eqb_in in Hin. unfold client_ids in Hin.
  unfold xmpp_message, get_room_for_jid, client_room, get_rooms, outcome_of, state_after.
  run_handler.
  rewrite Hty'. fields. rewrite Hname. fields. rewrite Hmuc. fields.
  rewrite Hidx. fields. rewrite Hin. fields.
  destruct (send_messages_to_all_chat (settings s)); fields;
    [rewrite (Hmirror eq_refl); fields; split;
       [reflexivity | now rewrite <- app_assoc]
    | split; reflexivity].
Qed.

Lemma contact_message_reaches_its_room_witness :
  let s := Scenario.run [RosterUpdate; RosterUpdate] Scenario.started in
  let m := mkMessage (mkJID "alice@x/phone" "alice@x") "chat" "hello" "" in
  outcome_of (xmpp_message m) s = Ok tt /\
  calls (state_after (xmpp_message m) s) =
    calls s ++
    SendText 2 "hello" ::
    (if send_messages_to_all_chat (settings s)
     then [SendText 1 ("From " ++ "Alice" ++ ": " ++ "hello")]
     else []).
Proof.
  intros s m.
  refine (contact_message_reaches_its_room s m "Alice" 2 1 _ _ _ _ _ _);
    [ left; reflexivity | vm_compute; reflexivity | vm_compute; reflexivity
    | vm_compute; reflexivity | vm_compute; auto
    | intros _; vm_compute; reflexivity ].
Defined.

(** X13.  A [groupchat] message whose sender's nick is not muted, from a
    group chat indexed, under the flag and its address, by the identity of
    a room the client lists, is posted in that room as the text
    "<nick>: <body>"; when mirroring is on, the text
    "Room <address>, from <nick>: <body>" follows in the all-chat room.
    Nothing else is called. *)
Theorem group_message_reaches_its_room :
  forall (s : State) (m : Message) (r all_chat : nat),
    msg_type m = "groupchat" ->
    groupchat_mute_own_nick (settings s) = false \/
    msg_mucnick m <> xmpp_groupchat_nick (settings s) ->
    sget (groupchat_flag (settings s) ++ bare (msg_from m))%string (topic_room_id_map s)
      = Some (RoomId r) ->
    In r (client_ids s) ->
    (send_messages_to_all_chat (settings s) = true ->
     sget "all_chat" (special_rooms s) = Some (Some all_chat)) ->
    outcome_of (xmpp_groupchat_message m) s = Ok tt /\
    calls (state_after (xmpp_groupchat_message m) s) =
      calls s ++
      SendText r (msg_mucnick m ++ ": " ++ msg_body m) ::
      (if send_messages_to_all_chat (settings s)
       then [SendText all_chat
               ("Room " ++ bare (msg_from m) ++ ", from " ++ msg_mucnick m ++ ": "
                ++ msg_body m)]
       else []).
Proof.
  intros s m r all_chat Hty Hmute Hidx Hin Hmirror.
  assert (groupchat_mute_own_nick (settings s) &&
          String.eqb (msg_mucnick m) (xmpp_groupchat_nick (settings s)) = false)
    as Hmute'.
  { destruct Hmute as [-> | Hne]; [reflexivity|].
    apply String.eqb_neq in Hne. rewrite Hne. apply andb_false_r. }
  apply existsb_eqb_in in Hin. unfold client_ids in Hin.
  unfold xmpp_groupchat_message, get_room_for_jid, client_room, get_rooms,
    outcome_of, state_after.
  run_handler.
  rewrite Hty. cbn [String.eqb Ascii.eqb Bool.eqb]. fields.
  rewrite Hmute'. fields. rewrite Hidx. fields. rewrite Hin. fields.
  destruct (send_messages_to_all_chat (settings s)); fields;
    [rewrite (Hmirror eq_refl); fields; split;
       [reflexivity | now rewrite <- app_assoc]
    | split; reflexivity].
Qed.

Lemma group_message_reaches_its_room_witness :
  let s := Scenario.run [Scenario.say "joinmuc team@conf.x"; RosterUpdate]
             Scenario.started in
  let m := mkMessage (mkJID "team@conf.x/carol" "team@conf.x") "groupchat"
             "good morning" "carol" in
  outcome_of (xmpp_groupchat_message m) s = Ok tt /\
  calls (state_after (xmpp_groupchat_message m) s) =
    calls s ++
    SendText 2 ("carol" ++ ": " ++ "good morning") ::
    (if send_messages_to_all_chat (settings s)
     then [SendText 1
             ("Room " ++ "team@conf.x" ++ ", from " ++ "carol" ++ ": "
              ++ "good morning")]
     else []).
Proof.
  intros s m.
  refine (group_message_reaches_its_room s m 2 1 _ _ _ _ _);
    [ reflexivity | right; vm_compute; discriminate | vm_compute; reflexivity
    | vm_compute; auto | intros _; vm_compute; reflexivity ].
Defined.

(* ================================================================== *)
(** * Addresses left out of the bridge *)
(* ================================================================== *)

Lemma mem_set_add x j l :
  Py.mem x (set_add j l) = String.eqb x j || Py.mem x l.
Proof.
  unfold set_add. destruct (Py.mem j l) eqn:Hj.
  - destruct (String.eqb_spec x j) as [->|_]; [now rewrite Hj | reflexivity].
  - unfold Py.mem. rewrite existsb_app. simpl.
    rewrite orb_false_r. apply orb_comm.
Qed.

Lemma mem_set_remove x k l :
  Py.mem x (set_remove k l) = Py.mem x l && negb (String.eqb x k).
Proof.
  unfold set_remove, Py.mem. induction l as [|y l IH]; [reflexivity|].
  simpl. destruct (String.eqb_spec k y) as [->|Hky]; simpl.
  - rewrite IH. destruct (String.eqb_spec x y) as [_|_]; simpl;
      [now rewrite andb_false_r | reflexivity].
  - rewrite IH. destruct (String.eqb_spec x y) as [->|_]; simpl; [|reflexivity].
    destruct (String.eqb_spec y k) as [->|_]; [congruence | reflexivity].
Qed.

Lemma same_disabled_refl s : same_disabled s s.
Proof. reflexivity. Qed.

Lemma same_disabled_trans s1 s2 s3 :
  same_disabled s1 s2 -> same_disabled s2 s3 -> same_disabled s1 s3.
Proof. unfold same_disabled. congruence. Qed.

Ltac same_disabled_leaf :=
  unfold same_disabled; try reflexivity;
  repeat match goal with |- context [if ?c then _ else _] => destruct c end;
  reflexivity.

Lemma init_attributes_disabled config s l :
  cfg_disabled_jids config = Some l ->
  disabled_jids (settings (snd (init_attributes config s))) =
    if Py.mem "xmpp_login_jid" l
    then set_remove "xmpp_login_jid" (set_add (cfg_xmpp_jid config) l)
    else l.
Proof.
  intros Hl. unfold init_attributes.
  unfold bind at 1 2 3 4 5. unfold modify at 1 2 3 4. unfold load_config, modify at 1.
  cbv beta iota.
  match goal with
  | |- disabled_jids (settings (snd (?m ?s0))) = _ =>
      assert (respects same_disabled m) as H; [|rewrite (H s0)]
  end.
  - unfold_bot.
    respects_with same_disabled_refl same_disabled_trans same_disabled_leaf.
  - simpl. now rewrite Hl.
Qed.

Lemma init_disabled config s :
  disabled_jids (settings (state_after (__init__ config) s)) =
  disabled_jids (settings (snd (init_attributes config s))).
Proof.
  unfold state_after, __init__. unfold bind at 1.
  destruct (init_attributes config s) as [[[]|e] s0]; simpl; [|reflexivity].
  match goal with
  | |- disabled_jids (settings (snd (?m ?s0))) = _ =>
      assert (respects same_disabled m) as H; [|exact (H s0)]
  end.
  unfold recover_rooms, setup_special_rooms, invite_to_special_rooms, start_xmpp.
  unfold_bot.
  respects_with same_disabled_refl same_disabled_trans same_disabled_leaf.
Qed.

(** X14.  When the configured list of disabled addresses contains the
    word [xmpp_login_jid], the word stands for the account's own address:
    in every state the bot goes through, the disabled addresses are those
    configured and the account's address, without the word itself. *)
Theorem sentinel_stands_for_the_login_address :
  forall (config : Config) (s : State) (l : list string) (x : string),
    reachable config s ->
    cfg_disabled_jids config = Some l ->
    Py.mem "xmpp_login_jid" l = true ->
    Py.mem x (disabled_jids (settings s)) =
      (String.eqb x (cfg_xmpp_jid config) || Py.mem x l) &&
      negb (String.eqb x "xmpp_login_jid").
Proof.
  intros config s l x Hreach Hl Hword.
  induction Hreach as [rooms0 next ro | s ev _ IH | s s' _ IH Hsame].
  - rewrite init_disabled, (init_attributes_disabled _ _ l Hl), Hword.
    now rewrite mem_set_remove, mem_set_add.
  - destruct (keeps_dispatch ev s) as [Hset _].
    unfold state_after. now rewrite Hset.
  - destruct Hsame as (Hset & _). now rewrite Hset.
Qed.

Lemma sentinel_stands_for_the_login_address_witness :
  let l := ["spam@x"; "xmpp_login_jid"] in
  let config :=
    mkConfig ["@admin:x"] "#" None "@bot:x" "bot@x" "bridge" true true None true
      (Some l) in
  let s := state_after (dispatch RosterUpdate)
             (state_after (__init__ config)
                (new_bot [] 0 [("bot@x", [("bot@x", mkItem "Me")])])) in
  Py.mem "bot@x" (disabled_jids (settings s)) =
    (String.eqb "bot@x" (cfg_xmpp_jid config) || Py.mem "bot@x" l) &&
    negb (String.eqb "bot@x" "xmpp_login_jid").
Proof.
  intros l config s.
  refine (sentinel_stands_for_the_login_address config s l "bot@x" _ _ _);
    [ exact (reach_event _ _ RosterUpdate (reach_init _ _ _ _))
    | reflexivity | reflexivity ].
Defined.

(* ================================================================== *)
(** * From the roster to a conversation *)
(* ================================================================== *)










(* ================================================================== *)
(** * Purging *)
(* ================================================================== *)

Lemma room_id_left done r : room_id (left done r) = room_id r.
Proof. unfold left. now destruct (existsb _ done). Qed.

Lemma topic_left done r : topic (left done r) = topic r.
Proof. unfold left. now destruct (existsb _ done). Qed.

Lemma find_room_left x done l :
  find_room x (map (left done) l) = option_map (left done) (find_room x l).
Proof.
  unfold find_room. induction l as [|r l IH]; [reflexivity|].
  simpl. rewrite room_id_left. now destruct (Nat.eqb (room_id r) x).
Qed.

Lemma left_nil l : map (left []) l = l.
Proof. induction l as [|r l IH]; simpl; [reflexivity | now rewrite IH]. Qed.

Lemma update_left x done l :
  update_room x unlisted (map (left done) l) = map (left (done ++ [x])) l.
Proof.
  unfold update_room. rewrite map_map. apply map_ext. intros r.
  rewrite room_id_left. unfold left. rewrite existsb_app. simpl.
  rewrite orb_false_r.
  destruct (existsb (Nat.eqb (room_id r)) done), (Nat.eqb (room_id r) x); reflexivity.
Qed.

Lemma client_ids_left done l r :
  In r (room_ids (filter in_client (map (left done) l))) <->
  In r (room_ids (filter in_client l)) /\ ~ In r done.
Proof.
  unfold room_ids. rewrite !in_map_iff. split.
  - intros (x & <- & Hx). apply filter_In in Hx. destruct Hx as [Hx Hc].
    apply in_map_iff in Hx. destruct Hx as (y & <- & Hy).
    rewrite room_id_left. unfold left in Hc.
    destruct (existsb (Nat.eqb (room_id y)) done) eqn:E; [discriminate|].
    split.
    + exists y. split; [reflexivity|]. apply filter_In. now split.
    + intros Hin. apply existsb_eqb_in in Hin. congruence.
  - intros [(y & <- & Hy) Hout]. apply filter_In in Hy. destruct Hy as [Hy Hc].
    assert (left done y = y) as Hleft.
    { unfold left. destruct (existsb (Nat.eqb (room_id y)) done) eqn:E; [|reflexivity].
      apply existsb_eqb_in in E. contradiction. }
    exists y. split; [reflexivity|]. apply filter_In. split; [|assumption].
    apply in_map_iff. exists y. now split.
Qed.

(** The loop of [purge] over rooms that each have a topic. *)
Lemma purge_loop_run s targets :
  (forall r, In r targets -> cached_topic s r <> None) ->
  exists s',
    for_each targets (fun room =>
      log INFO "Leaving room {r.room_id} ({r.name}) [{r.topic}]" ;;
      t <- room_topic room ;;
      flag <- cfg groupchat_flag ;;
      match t with
      | None => raise AttributeError
      | Some t =>
          when (Py.startswith t flag)
               (emit (LeaveMUC (Py.slice_from (String.length flag) t) None))
      end ;;
      leave room) s = (Ok tt, s') /\
    settings s' = settings s /\
    special_rooms s' = special_rooms s /\
    topic_room_id_map s' = topic_room_id_map s /\
    groupchat_jids s' = groupchat_jids s /\
    calls s' = calls s ++ flat_map (leave_calls s) targets /\
    rooms s' = map (left targets) (rooms s).
Proof.
  intros Htopics.
  set (I := fun (done : list nat) (st : State) =>
    settings st = settings s /\
    special_rooms st = special_rooms s /\
    topic_room_id_map st = topic_room_id_map s /\
    groupchat_jids st = groupchat_jids s /\
    calls st = calls s ++ flat_map (leave_calls s) done /\
    rooms st = map (left done) (rooms s)).
  apply (for_each_prefix_total I).
  - intros done x rest st Hl (Hset & Hsp & Hidx & Hj & Hcalls & Hrooms).
    assert (In x targets) as Hx by (rewrite Hl; apply in_elt).
    specialize (Htopics x Hx). unfold cached_topic in Htopics.
    unfold leave, room_topic, room_attr, mutate_room. unfold_monad. fields.
    rewrite Hrooms, find_room_left.
    destruct (find_room x (rooms s)) as [room|] eqn:Hfind; [|congruence].
    simpl. rewrite topic_left.
    destruct (topic room) as [t|] eqn:Ht; [|congruence].
    assert (leave_calls s x =
            (if Py.startswith t (groupchat_flag (settings s))
             then [LeaveMUC (Py.slice_from (String.length (groupchat_flag (settings s))) t)
                     None]
             else []) ++ [LeaveRoom x]) as Hleave.
    { unfold leave_calls, cached_topic. now rewrite Hfind, Ht. }
    rewrite Hset.
    destruct (Py.startswith t (groupchat_flag (settings s))); fields;
      (eexists; split; [reflexivity|]; unfold I; fields;
       rewrite Hrooms, update_left, flat_map_app; simpl;
       rewrite Hleave, Hcalls, app_nil_r; simpl; rewrite <- ?app_assoc; simpl;
       auto 10).
  - unfold I. rewrite left_nil. simpl. rewrite app_nil_r. auto 10.
Qed.

Lemma purge_run s room e word rest specials control :
  sender e <> bot_id (settings s) ->
  msgtype e = "m.text" ->
  Py.split (body e) = word :: rest ->
  Py.lower word = "purge" ->
  sget "control" (special_rooms s) = Some (Some control) ->
  ids_of (Dict.values (special_rooms s)) = Some specials ->
  (forall r, In r (purge_targets s specials) -> cached_topic s r <> None) ->
  exists s',
    matrix_control_message room e s = (Ok tt, s') /\
    special_rooms s' = special_rooms s /\
    topic_room_id_map s' = topic_room_id_map s /\
    groupchat_jids s' = groupchat_jids s /\
    calls s' = calls s ++ SendText control "Purging unused rooms" ::
               flat_map (leave_calls s) (purge_targets s specials) /\
    rooms s' = map (left (purge_targets s specials)) (rooms s).
Proof.
  intros Hsender Hty Hsplit Hword Hcontrol Hids Htopics.
  apply String.eqb_neq in Hsender.
  unfold matrix_control_message.
  unfold bind at 1, cfg at 1, gets at 1. rewrite Hsender.
  unfold bind at 1, log at 1, modify at 1. rewrite Hty.
  cbn [String.eqb Ascii.eqb Bool.eqb]. unfold when.
  unfold bind at 1, log at 1, modify at 1. rewrite Hsplit. cbv zeta.
  rewrite Hword. cbn [String.eqb Ascii.eqb Bool.eqb].
  unfold bind at 1, special_room at 1. unfold bind at 1, gets at 1. fields.
  unfold bind at 1, subscript at 1. rewrite Hcontrol. unfold ret at 1 2.
  unfold bind at 1, send_text at 1, emit at 1, modify at 1.
  unfold bind at 1. rewrite get_unmapped_rooms_run. fields. rewrite Hids.
  unfold bind at 1, get_empty_rooms at 1, get_rooms at 1.
  unfold bind at 1, gets at 1, ret at 1. fields.
  match goal with
  | |- exists s', for_each _ _ ?s0 = _ /\ _ => set (sa := s0)
  end.
  assert (purge_targets sa specials = purge_targets s specials) as Htargets
    by reflexivity.
  assert (forall r, cached_topic sa r = cached_topic s r) as Hcached
    by reflexivity.
  destruct (purge_loop_run sa (purge_targets s specials)) as (s' & Hrun & H).
  { intros r Hr. rewrite Hcached. now apply Htopics. }
  exists s'. split; [exact Hrun|].
  destruct H as (Hset & Hsp & Hidx & Hj & Hcalls & Hrooms).
  unfold sa in Hsp, Hidx, Hj, Hcalls, Hrooms. revert Hsp Hidx Hj Hcalls Hrooms.
  fields. intros Hsp Hidx Hj Hcalls Hrooms.
  do 3 (split; [assumption|]). split; [|exact Hrooms].
  rewrite Hcalls, <- app_assoc. reflexivity.
Qed.

(** X16.  [purge], when every special slot holds a room, each room it
    goes through has a topic and none is both unmapped and empty (so that
    no room is left twice): the handler returns; it posts "Purging unused
    rooms" in the control room and then, for the unmapped rooms followed
    by the rooms with fewer than two joined members, leaves the group chat
    when the topic carries the flag and leaves the room, and calls nothing
    else; the client then lists the rooms it listed before but for those;
    the index and the list of group chats are as before. *)
Theorem purge_leaves_the_unused_rooms :
  forall (s : State) (room : MatrixRoom) (e : MatrixEvent)
         (word : string) (rest : list string) (specials : list nat) (control : nat),
    sender e <> bot_id (settings s) ->
    msgtype e = "m.text" ->
    Py.split (body e) = word :: rest ->
    Py.lower word = "purge" ->
    sget "control" (special_rooms s) = Some (Some control) ->
    ids_of (Dict.values (special_rooms s)) = Some specials ->
    NoDup (purge_targets s specials) ->
    (forall r, In r (purge_targets s specials) -> cached_topic s r <> None) ->
    outcome_of (matrix_control_message room e) s = Ok tt /\
    calls (state_after (matrix_control_message room e) s) =
      calls s ++ SendText control "Purging unused rooms" ::
      flat_map (leave_calls s) (purge_targets s specials) /\
    (forall r, In r (client_ids (state_after (matrix_control_message room e) s)) <->
               In r (client_ids s) /\ ~ In r (purge_targets s specials)) /\
    topic_room_id_map (state_after (matrix_control_message room e) s) =
      topic_room_id_map s /\
    groupchat_jids (state_after (matrix_control_message room e) s) = groupchat_jids s.
Proof.
  intros s room e word rest specials control Hsender Hty Hsplit Hword Hcontrol Hids
    _ Htopics.
  destruct (purge_run s room e word rest specials control
              Hsender Hty Hsplit Hword Hcontrol Hids Htopics)
    as (s' & Hrun & _ & Hidx & Hj & Hcalls & Hrooms).
  unfold outcome_of, state_after. rewrite Hrun. simpl.
  split; [reflexivity|]. split; [exact Hcalls|].
  split; [|split; assumption].
  intros r. unfold client_ids. rewrite Hrooms. apply client_ids_left.
Qed.

Lemma purge_leaves_the_unused_rooms_witness :
  let s0 := Scenario.run [Scenario.say "joinmuc team@conf.x"; RosterUpdate; RosterUpdate]
              Scenario.started in
  let s := with_rooms
             (map (fun r =>
                     if Nat.ltb (room_id r) 2
                     then mkRoom (room_id r) (topic r) (name r) (server_topic r)
                            (server_name r) (joined_members r ++ ["@admin:x"])
                            (in_client r)
                     else r)
                  (rooms s0))
             (next_room_id s0) s0 in
  let room := Scenario.control_room in
  let e := Scenario.text "@admin:x" "Purge now" in
  purge_targets s [0; 1] = [2; 3] /\
  outcome_of (matrix_control_message room e) s = Ok tt /\
  calls (state_after (matrix_control_message room e) s) =
    calls s ++ SendText 0 "Purging unused rooms" ::
    flat_map (leave_calls s) (purge_targets s [0; 1]) /\
  (forall r, In r (client_ids (state_after (matrix_control_message room e) s)) <->
             In r (client_ids s) /\ ~ In r (purge_targets s [0; 1])) /\
  topic_room_id_map (state_after (matrix_control_message room e) s) =
    topic_room_id_map s /\
  groupchat_jids (state_after (matrix_control_message room e) s) = groupchat_jids s.
Proof.
  intros s0 s room e.
  assert (purge_targets s [0; 1] = [2; 3]) as Htargets by (vm_compute; reflexivity).
  split; [exact Htargets|].
  refine (purge_leaves_the_unused_rooms s room e "Purge" ["now"] [0; 1] 0 _ _ _ _ _ _ _ _).
  - vm_compute; discriminate.
  - reflexivity.
  - vm_compute; reflexivity.
  - vm_compute; reflexivity.
  - vm_compute; reflexivity.
  - vm_compute; reflexivity.
  - rewrite Htargets. repeat constructor; simpl; intuition discriminate.
  - rewrite Htargets. intros r [<-|[<-|[]]]; vm_compute; discriminate.
Defined.

(** X17.  [purge] does not spare the special rooms: under the conditions
    of X16, a special room that the client lists and that fewer than two
    members have joined (the all-chat room nobody but the bot is in) is
    left, and the registry of special rooms still holds it afterwards. *)
Theorem purge_leaves_an_unattended_special_room :
  forall (s : State) (room : MatrixRoom) (e : MatrixEvent)
         (word : string) (rest : list string) (specials : list nat) (control : nat)
         (k : string) (r : nat) (ro : MatrixRoom),
    sender e <> bot_id (settings s) ->
    msgtype e = "m.text" ->
    Py.split (body e) = word :: rest ->
    Py.lower word = "purge" ->
    sget "control" (special_rooms s) = Some (Some control) ->
    ids_of (Dict.values (special_rooms s)) = Some specials ->
    NoDup (purge_targets s specials) ->
    (forall r, In r (purge_targets s specials) -> cached_topic s r <> None) ->
    sget k (special_rooms s) = Some (Some r) ->
    find_room r (rooms s) = Some ro ->
    in_client ro = true ->
    List.length (joined_members ro) < 2 ->
    In (LeaveRoom r) (calls (state_after (matrix_control_message room e) s)) /\
    ~ In r (client_ids (state_after (matrix_control_message room e) s)) /\
    sget k (special_rooms (state_after (matrix_control_message room e) s))
      = Some (Some r).
Proof.
  intros s room e word rest specials control k r ro Hsender Hty Hsplit Hword Hcontrol
    Hids _ Htopics Hslot Hfind Hlisted Hfew.
  destruct (purge_run s room e word rest specials control
              Hsender Hty Hsplit Hword Hcontrol Hids Htopics)
    as (s' & Hrun & Hsp & _ & _ & Hcalls & Hrooms).
  unfold state_after. rewrite Hrun. simpl.
  assert (In r (purge_targets s specials)) as Htarget.
  { unfold purge_targets. apply in_or_app. right.
    unfold empty_ids, room_ids. apply in_map_iff. exists ro.
    split; [exact (find_room_id _ _ _ Hfind)|].
    apply filter_In. split.
    - apply filter_In. split; [exact (find_room_in _ _ _ Hfind) | exact Hlisted].
    - now apply Nat.ltb_lt. }
  split; [|split].
  - rewrite Hcalls. apply in_or_app. right. right.
    apply in_flat_map. exists r. split; [exact Htarget|].
    specialize (Htopics r Htarget). unfold leave_calls.
    destruct (cached_topic s r); [|congruence].
    apply in_or_app. right. now left.
  - unfold client_ids. rewrite Hrooms, client_ids_left. intros [_ Hout]. now apply Hout.
  - now rewrite Hsp.
Qed.

Lemma purge_leaves_an_unattended_special_room_witness :
  let s0 := Scenario.run [RosterUpdate; RosterUpdate] Scenario.started in
  let s := with_rooms
             (map (fun r =>
                     if Nat.eqb (room_id r) 1 then r
                     else mkRoom (room_id r) (topic r) (name r) (server_topic r)
                            (server_name r) (joined_members r ++ ["@admin:x"])
                            (in_client r))
                  (rooms s0))
             (next_room_id s0) s0 in
  let room := Scenario.control_room in
  let e := Scenario.text "@admin:x" "purge" in
  In (LeaveRoom 1) (calls (state_after (matrix_control_message room e) s)) /\
  ~ In 1 (client_ids (state_after (matrix_control_message room e) s)) /\
  sget "all_chat" (special_rooms (state_after (matrix_control_message room e) s))
    = Some (Some 1).
Proof.
  intros s0 s room e.
  assert (purge_targets s [0; 1] = [1]) as Htargets by (vm_compute; reflexivity).
  refine (purge_leaves_an_unattended_special_room s room e "purge" [] [0; 1] 0
            "all_chat" 1
            (mkRoom 1 (Some "all_chat") (Some "XMPP All Chat") (Some "all_chat")
               (Some "XMPP All Chat") ["@bot:x"] true)
            _ _ _ _ _ _ _ _ _ _ _ _).
  - vm_compute; discriminate.
  - reflexivity.
  - vm_compute; reflexivity.
  - vm_compute; reflexivity.
  - vm_compute; reflexivity.
  - vm_compute; reflexivity.
  - rewrite Htargets. repeat constructor; simpl; intuition.
  - rewrite Htargets. intros r [<-|[]]; vm_compute; discriminate.
  - vm_compute; reflexivity.
  - vm_compute; reflexivity.
  - reflexivity.
  - simpl; lia.
Defined.

(* ================================================================== *)
(** * Leaving a group chat *)
(* ================================================================== *)


Lemma leavemuc_run s room e word addr rest r :
  sender e <> bot_id (settings s) ->
  msgtype e = "m.text" ->
  Py.split (body e) = word :: addr :: rest ->
  Py.lower word = "leavemuc" ->
  sget (groupchat_flag (settings s) ++ addr)%string (topic_room_id_map s)
    = Some (RoomId r) ->
  In r (client_ids s) ->
  exists s',
    matrix_control_message room e s = (Ok tt, s') /\
    settings s' = settings s /\
    topic_room_id_map s' = topic_room_id_map s /\
    groupchat_jids s' = groupchat_jids s /\
    calls s' = calls s ++ [LeaveMUC addr (Some (xmpp_groupchat_nick (settings s)));
                           LeaveRoom r] /\
    rooms s' = map (left [r]) (rooms s).
Proof.
  intros Hsender Hty Hsplit Hword Hidx Hin.
  apply String.eqb_neq in Hsender.
  apply existsb_eqb_in in Hin. unfold client_ids in Hin.
  unfold matrix_control_message, get_room_for_jid, client_room, get_rooms, leave,
    mutate_room.
  run_handler.
  rewrite Hsender. fields. rewrite Hty. cbn [String.eqb Ascii.eqb Bool.eqb]. fields.
  rewrite Hsplit. cbv zeta. rewrite Hword. cbn [String.eqb Ascii.eqb Bool.eqb]. fields.
  rewrite Hidx. fields. rewrite Hin. fields.
  eexists. split; [reflexivity|]. fields.
  do 3 (split; [reflexivity|]). split.
  - now rewrite <- app_assoc.
  - rewrite <- (left_nil (rooms s)) at 1. apply (update_left r []).
Qed.

(** X18.  [leavemuc <address>], when the address under the flag is
    indexed by the identity of a room the client lists: the handler
    returns and makes exactly two calls, leaving the group chat with the
    configured nick and leaving the room; the client no longer lists the
    room, while the index still has the entry and the address is still in
    the list of group chats. *)
Theorem leavemuc_leaves_the_room :
  forall (s : State) (room : MatrixRoom) (e : MatrixEvent)
         (word addr : string) (rest : list string) (r : nat),
    sender e <> bot_id (settings s) ->
    msgtype e = "m.text" ->
    Py.split (body e) = word :: addr :: rest ->
    Py.lower word = "leavemuc" ->
    sget (groupchat_flag (settings s) ++ addr)%string (topic_room_id_map s)
      = Some (RoomId r) ->
    In r (client_ids s) ->
    outcome_of (matrix_control_message room e) s = Ok tt /\
    calls (state_after (matrix_control_message room e) s) =
      calls s ++ [LeaveMUC addr (Some (xmpp_groupchat_nick (settings s))); LeaveRoom r] /\
    ~ In r (client_ids (state_after (matrix_control_message room e) s)) /\
    sget (groupchat_flag (settings s) ++ addr)%string
         (topic_room_id_map (state_after (matrix_control_message room e) s))
      = Some (RoomId r) /\
    groupchat_jids (state_after (matrix_control_message room e) s) = groupchat_jids s.
Proof.
  intros s room e word addr rest r Hsender Hty Hsplit Hword Hidx Hin.
  destruct (leavemuc_run s room e word addr rest r Hsender Hty Hsplit Hword Hidx Hin)
    as (s' & Hrun & _ & Hidx' & Hj & Hcalls & Hrooms).
  unfold outcome_of, state_after. rewrite Hrun. simpl.
  split; [reflexivity|]. split; [exact Hcalls|]. split; [|split].
  - unfold client_ids. rewrite Hrooms, client_ids_left. intros [_ Hout].
    apply Hout. now left.
  - now rewrite Hidx'.
  - exact Hj.
Qed.

Lemma leavemuc_leaves_the_room_witness :
  let s := Scenario.run [Scenario.say "joinmuc team@conf.x"; RosterUpdate]
             Scenario.started in
  let room := Scenario.control_room in
  let e := Scenario.text "@admin:x" "LeaveMUC team@conf.x" in
  outcome_of (matrix_control_message room e) s = Ok tt /\
  calls (state_after (matrix_control_message room e) s) =
    calls s ++ [LeaveMUC "team@conf.x" (Some (xmpp_groupchat_nick (settings s)));
                LeaveRoom 2] /\
  ~ In 2 (client_ids (state_after (matrix_control_message room e) s)) /\
  sget (groupchat_flag (settings s) ++ "team@conf.x")%string
       (topic_room_id_map (state_after (matrix_control_message room e) s))
    = Some (RoomId 2) /\
  groupchat_jids (state_after (matrix_control_message room e) s) = groupchat_jids s.
Proof.
  intros s room e.
  refine (leavemuc_leaves_the_room s room e "LeaveMUC" "team@conf.x" [] 2 _ _ _ _ _ _).
  - vm_compute; discriminate.
  - reflexivity.
  - vm_compute; reflexivity.
  - vm_compute; reflexivity.
  - vm_compute; reflexivity.
  - vm_compute; auto.
Defined.



(* ================================================================== *)
(** * Rooms a synchronisation makes *)
(* ================================================================== *)











(* ================================================================== *)
(** * The special rooms of a bot that started *)
(* ================================================================== *)

Lemma keeps_preserves_slots {A} (m : M A) : keeps m -> preserves slots m.
Proof.
  intros H s Hs. destruct (H s) as [Hset Hsp]. unfold slots. now rewrite Hset, Hsp.
Qed.

Lemma keeps_preserves_complete {A} (m : M A) : keeps m -> preserves registry_complete m.
Proof.
  intros H s Hs. destruct (H s) as [Hset Hsp]. unfold registry_complete.
  now rewrite Hset, Hsp.
Qed.

Lemma init_attributes_slots config s :
  exists sa, init_attributes config s = (Ok tt, sa) /\ slots sa.
Proof.
  unfold init_attributes, load_config, slots. unfold_monad. fields.
  cbn [disable_all_chat_room].
  destruct (cfg_send_messages_to_all_chat config),
           (cfg_disable_all_chat_room config) as [[|]|];
    cbn [negb]; fields; eexists; (split; [reflexivity|]); reflexivity.
Qed.

Lemma preserves_slots_recover_rooms : preserves slots recover_rooms.
Proof.
  unfold recover_rooms.
  apply preserves_bind; [apply keeps_preserves_slots; auto with keeps_db|]. intros l.
  apply preserves_for_each. intros room.
  apply preserves_bind; [apply keeps_preserves_slots; auto with keeps_db|]. intros _.
  apply preserves_bind; [apply keeps_preserves_slots; auto with keeps_db|]. intros t.
  apply preserves_gets_bind. intros s HI.
  destruct t as [t|]; [|assumption].
  destruct (smem t (special_rooms s)) eqn:Hmem.
  - unfold bind, log, modify. fields. unfold slots in *. fields.
    now rewrite keys_sset_present.
  - apply keeps_preserves_slots; [keeps_tac | assumption].
Qed.

(** One turn of the loop that sets up the special rooms. *)
Lemma setup_slot_run k v st st' :
  bind (match v with
        | None => create_room
        | Some rid => ret rid
        end) (fun room => setup_special_room room k) st = (Ok tt, st') ->
  settings st' = settings st /\
  exists r, special_rooms st' = sset k (Some r) (special_rooms st).
Proof.
  unfold setup_special_room, create_room, set_room_topic, set_room_name, mutate_room.
  unfold_monad.
  destruct v as [rid|]; fields;
    (destruct (sget k (special_room_names (settings st))); [|discriminate]);
    intros [= <-]; fields; eauto.
Qed.

Lemma setup_special_rooms_complete sb sc :
  slots sb ->
  setup_special_rooms sb = (Ok tt, sc) ->
  registry_complete sc.
Proof.
  intros Hslots Hrun. unfold setup_special_rooms in Hrun.
  unfold bind at 1, gets at 1 in Hrun.
  apply bind_inv in Hrun. destruct Hrun as ([] & sx & Hloop & Htail).
  assert (registry_complete sx) as Hsx.
  { unfold slots in Hslots. unfold registry_complete.
    destruct (disable_all_chat_room (settings sb)) eqn:Hdis.
    - destruct (special_rooms sb) as [|[k1 v1] [|x d]] eqn:Hsp; try discriminate.
      simpl in Hslots. injection Hslots as ->.
      cbn [for_each] in Hloop.
      apply bind_inv in Hloop. destruct Hloop as ([] & s1 & Hbody & Hret).
      unfold ret in Hret. injection Hret as <-.
      apply setup_slot_run in Hbody. destruct Hbody as (Hset & r & Hr).
      rewrite Hsp in Hr. simpl in Hr.
      exists r. now rewrite Hset, Hdis.
    - destruct (special_rooms sb) as [|[k1 v1] [|[k2 v2] [|x d]]] eqn:Hsp;
        try discriminate.
      simpl in Hslots. injection Hslots as -> ->.
      cbn [for_each] in Hloop.
      apply bind_inv in Hloop. destruct Hloop as ([] & s1 & Hbody1 & Hloop).
      apply bind_inv in Hloop. destruct Hloop as ([] & s2 & Hbody2 & Hret).
      unfold ret in Hret. injection Hret as <-.
      apply setup_slot_run in Hbody1. destruct Hbody1 as (Hset1 & r1 & Hr1).
      apply setup_slot_run in Hbody2. destruct Hbody2 as (Hset2 & r2 & Hr2).
      rewrite Hsp in Hr1. simpl in Hr1. rewrite Hr1 in Hr2. simpl in Hr2.
      exists r1. rewrite Hset2, Hset1, Hdis. now exists r2. }
  match type of Htail with
  | ?m sx = _ => assert (keeps m) as Hkeeps by (unfold add_listener; keeps_auto)
  end.
  pose proof (keeps_preserves_complete _ Hkeeps sx Hsx) as H.
  now rewrite Htail in H.
Qed.

Lemma init_complete config s0 s1 :
  __init__ config s0 = (Ok tt, s1) -> registry_complete s1.
Proof.
  intros Hrun. unfold __init__ in Hrun.
  destruct (init_attributes_slots config s0) as (sa & Ha & Hsa).
  unfold bind at 1 in Hrun. rewrite Ha in Hrun.
  apply bind_inv in Hrun. destruct Hrun as ([] & sb & Hb & Hrun).
  apply bind_inv in Hrun. destruct Hrun as ([] & sc & Hc & Hrun).
  assert (slots sb) as Hsb.
  { pose proof (preserves_slots_recover_rooms sa Hsa) as H. now rewrite Hb in H. }
  pose proof (setup_special_rooms_complete sb sc Hsb Hc) as Hsc.
  match type of Hrun with
  | ?m sc = _ =>
      assert (keeps m) as Hkeeps
        by (unfold invite_to_special_rooms, start_xmpp, invite_user; keeps_auto)
  end.
  pose proof (keeps_preserves_complete _ Hkeeps sc Hsc) as H.
  now rewrite Hrun in H.
Qed.

(** X21.  A bot whose construction returned has its special rooms for
    good: after any events handled since, whether their handlers returned
    or raised, the registry holds a room under [control] and, unless the
    all-chat room is disabled, a room under [all_chat], and has no other
    slot.  So no handler fails to find the control room or the all-chat
    room it posts to. *)
Theorem started_bot_has_its_special_rooms :
  forall (config : Config) (s0 s1 : State) (evs : list event),
    __init__ config s0 = (Ok tt, s1) ->
    exists control,
      if disable_all_chat_room (settings s1)
      then special_rooms (Scenario.run evs s1) = [("control", Some control)]
      else exists all_chat,
             special_rooms (Scenario.run evs s1)
               = [("control", Some control); ("all_chat", Some all_chat)].
Proof.
  intros config s0 s1 evs Hrun.
  pose proof (init_complete config s0 s1 Hrun) as Hs1.
  assert (forall s, settings (Scenario.run evs s) = settings s /\
                    special_rooms (Scenario.run evs s) = special_rooms s) as Hkeep.
  { induction evs as [|ev evs IH]; intros s; simpl; [now split|].
    destruct (IH (state_after (dispatch ev) s)) as [H1 H2].
    destruct (keeps_dispatch ev s) as [H3 H4]. unfold state_after in *.
    split; congruence. }
  destruct (Hkeep s1) as [_ Hsp]. rewrite Hsp. exact Hs1.
Qed.

Lemma started_bot_has_its_special_rooms_witness :
  let evs := [RosterUpdate; Scenario.say "purge"; Scenario.say "leavemuc nobody@conf.x"] in
  exists control,
    if disable_all_chat_room (settings Scenario.started)
    then special_rooms (Scenario.run evs Scenario.started) = [("control", Some control)]
    else exists all_chat,
           special_rooms (Scenario.run evs Scenario.started)
             = [("control", Some control); ("all_chat", Some all_chat)].
Proof.
  intros evs.
  refine (started_bot_has_its_special_rooms Scenario.config
            (new_bot [] 0 [("bot@x", [("alice@x", mkItem "Alice")])])
            Scenario.started evs _).
  vm_compute; reflexivity.
Defined.

(* ================================================================== *)
(** * Starting in a room without a topic *)
(* ================================================================== *)

Lemma find_room_update_gen x y f l :
  (forall r, room_id (f r) = room_id r) ->
  find_room x (update_room y f l) =
  option_map (fun r => if Nat.eqb (room_id r) y then f r else r) (find_room x l).
Proof.
  intros Hf. unfold find_room, update_room.
  induction l as [|r l IH]; simpl; [reflexivity|].
  destruct (Nat.eqb (room_id r) y) eqn:Ey; simpl.
  - rewrite Hf. destruct (Nat.eqb (room_id r) x); simpl; [now rewrite Ey | exact IH].
  - destruct (Nat.eqb (room_id r) x); simpl; [now rewrite Ey | exact IH].
Qed.

Lemma topicless_refresh s x y :
  topicless s x ->
  topicless (with_rooms (update_room y refresh_topic (rooms s)) (next_room_id s) s) x.
Proof.
  intros (ro & Hfind & Ht & Hst). unfold topicless. fields.
  rewrite find_room_update_gen by apply room_id_refresh_topic.
  rewrite Hfind. simpl.
  assert (refresh_topic ro = ro) as Hsame by (unfold refresh_topic; now rewrite Hst).
  exists ro. destruct (Nat.eqb (room_id ro) y); rewrite ?Hsame; auto.
Qed.

(** One turn of the loop of [__init__] over the rooms of the account,
    while the room [x] has no topic: it raises [AttributeError], at [x]
    in any case, or goes on with [x] as it was. *)
Lemma recover_turn s x y :
  In y (room_ids (rooms s)) ->
  topicless s x ->
  let turn :=
    (update_room_topic y ;;
     t <- room_topic y ;;
     specials <- gets special_rooms ;;
     match t with
     | Some t =>
         if smem t specials then
           log DEBUG ("Recovering special room: " ++ t) ;;
           modify (fun s => with_special_rooms (sset t (Some y) (special_rooms s)) s)
         else
           flag <- cfg groupchat_flag ;;
           when (Py.startswith t flag)
                (modify (fun s =>
                   with_groupchat_jids
                     (groupchat_jids s ++ [Py.slice_from (String.length flag) t]) s))
     | None => raise AttributeError
     end) in
  fst (turn s) = Raise AttributeError \/
  (y <> x /\ fst (turn s) = Ok tt /\
   room_ids (rooms (snd (turn s))) = room_ids (rooms s) /\
   topicless (snd (turn s)) x).
Proof.
  intros Hy Hx turn. subst turn.
  pose proof (topicless_refresh s x y Hx) as Hx'.
  assert (room_ids (update_room y refresh_topic (rooms s)) = room_ids (rooms s)) as Hids
    by (apply room_ids_update, room_id_refresh_topic).
  destruct (find_room_some y (update_room y refresh_topic (rooms s))) as [r Hr];
    [now rewrite Hids|].
  unfold update_room_topic, room_topic, room_attr, mutate_room. unfold_monad. fields.
  rewrite Hr.
  destruct (topic r) as [t|] eqn:Ht; [|now left].
  assert (y <> x) as Hne.
  { intros ->. destruct Hx' as (ro & Hfind & Hnone & _). revert Hfind. fields.
    rewrite Hr. intros [= <-]. congruence. }
  right. split; [exact Hne|].
  repeat match goal with
         | |- context [if ?c then _ else _] => destruct c
         end; fields;
    (split; [reflexivity|]; split; [exact Hids | exact Hx']).
Qed.

Lemma recover_loop_raises x ids :
  In x ids ->
  forall s,
    (forall y, In y ids -> In y (room_ids (rooms s))) ->
    topicless s x ->
    fst (for_each ids (fun room =>
           update_room_topic room ;;
           t <- room_topic room ;;
           specials <- gets special_rooms ;;
           match t with
           | Some t =>
               if smem t specials then
                 log DEBUG ("Recovering special room: " ++ t) ;;
                 modify (fun s =>
                   with_special_rooms (sset t (Some room) (special_rooms s)) s)
               else
                 flag <- cfg groupchat_flag ;;
                 when (Py.startswith t flag)
                      (modify (fun s =>
                         with_groupchat_jids
                           (groupchat_jids s ++ [Py.slice_from (String.length flag) t]) s))
           | None => raise AttributeError
           end) s) = Raise AttributeError.
Proof.
  induction ids as [|y ids IH]; intros Hin s Hids Hx; [destruct Hin|].
  cbn [for_each]. unfold bind at 1.
  destruct (recover_turn s x y (Hids y (or_introl eq_refl)) Hx)
    as [Hraise|(Hne & Hok & Hsame & Hx')]; cbv zeta in *.
  - match goal with
    | |- fst (match ?t s with _ => _ end) = _ => destruct (t s) as [[[]|e] s1]
    end; simpl in *; [discriminate | exact Hraise].
  - match goal with
    | |- fst (match ?t s with _ => _ end) = _ => destruct (t s) as [[[]|e] s1]
    end; simpl in *; [|discriminate].
    apply IH.
    + destruct Hin as [->|Hin]; [congruence | exact Hin].
    + intros z Hz. rewrite Hsame. apply Hids. now right.
    + exact Hx'.
Qed.

(** X22.  The bot cannot be constructed while its account is in a room
    without a topic: when the client lists a room that has no cached
    topic and none on the server, [__init__] raises [AttributeError] in
    its loop over the rooms of the account, whatever the configuration
    and the other rooms are. *)
Theorem init_raises_on_a_room_without_topic :
  forall (config : Config) (l : list MatrixRoom) (next : nat)
         (r : list (string * list (string * RosterItem))) (room : MatrixRoom),
    find_room (room_id room) l = Some room ->
    in_client room = true ->
    topic room = None ->
    server_topic room = None ->
    outcome_of (__init__ config) (new_bot l next r) = Raise AttributeError.
Proof.
  intros config l next r room Hfind Hlisted Ht Hst.
  unfold outcome_of, __init__.
  destruct (init_attributes_slots config (new_bot l next r)) as (sa & Ha & _).
  assert (rooms sa = l) as Hrooms.
  { assert (forall s, rooms (snd (init_attributes config s)) = rooms s) as H.
    { intros s. unfold init_attributes, load_config. unfold_monad. fields.
      repeat match goal with |- context [if ?c then _ else _] => destruct c end;
        reflexivity. }
    specialize (H (new_bot l next r)). now rewrite Ha in H. }
  unfold bind at 1. rewrite Ha.
  unfold bind at 1.
  assert (fst (recover_rooms sa) = Raise AttributeError) as Hraise.
  { unfold recover_rooms, get_rooms. unfold bind at 1, gets at 1.
    apply (recover_loop_raises (room_id room)).
    - rewrite Hrooms. unfold room_ids. apply in_map. apply filter_In.
      split; [exact (find_room_in _ _ _ Hfind) | exact Hlisted].
    - intros y Hy. unfold room_ids in *. apply in_map_iff in Hy.
      destruct Hy as (ro & <- & Hro). apply filter_In in Hro.
      apply in_map. apply Hro.
    - exists room. rewrite Hrooms. auto. }
  destruct (recover_rooms sa) as [[[]|e] sb]; simpl in *; [discriminate | exact Hraise].
Qed.

Lemma init_raises_on_a_room_without_topic_witness :
  outcome_of (__init__ Scenario.config)
    (new_bot [Purge.bobs_room; mkRoom 1 None None None None ["@bot:x"; "@eve:x"] true]
       2 [("bot@x", [])])
    = Raise AttributeError.
Proof.
  refine (init_raises_on_a_room_without_topic Scenario.config _ 2 _
            (mkRoom 1 None None None None ["@bot:x"; "@eve:x"] true) _ _ _ _);
    reflexivity.
Defined.

(* ================================================================== *)
(** * Presences *)
(* ================================================================== *)

Lemma sget_some_keys {V} (d : list (string * V)) k v :
  sget k d = Some v -> Py.mem k (Dict.keys d) = true.
Proof.
  intros H. destruct (Py.mem k (Dict.keys d)) eqn:E; [reflexivity|].
  apply sget_none_keys in E. congruence.
Qed.

(** X23.  When presences are relayed, a contact that is not disabled and
    has a name in the roster snapshot is announced in the control room by
    exactly one notice: "<name> available (<address>)" when it comes,
    "<name> unavailable (<address>)" when it goes, the address being the
    bare one. *)
Theorem presence_is_announced :
  forall (s : State) (p : Presence) (name : string) (control : nat),
    Py.mem (bare (pres_from p)) (disabled_jids (settings s)) = false ->
    sget (bare (pres_from p)) (jid_nick_map s) = Some name ->
    send_presences_to_control (settings s) = true ->
    sget "control" (special_rooms s) = Some (Some control) ->
    (outcome_of (xmpp_presence_available p) s = Ok tt /\
     calls (state_after (xmpp_presence_available p) s) =
       calls s ++ [SendNotice control
                     (name ++ " available (" ++ bare (pres_from p) ++ ")")]) /\
    (outcome_of (xmpp_presence_unavailable p) s = Ok tt /\
     calls (state_after (xmpp_presence_unavailable p) s) =
       calls s ++ [SendNotice control
                     (name ++ " unavailable (" ++ bare (pres_from p) ++ ")")]).
Proof.
  intros s p name control Hdis Hname Hrelay Hcontrol.
  pose proof (sget_some_keys _ _ _ Hname) as Hkey.
  split.
  - unfold xmpp_presence_available. run_handler.
    rewrite Hdis. fields. rewrite Hkey. cbn [negb]. fields.
    rewrite Hrelay. fields. rewrite Hname. fields. rewrite Hcontrol. fields.
    split; reflexivity.
  - unfold xmpp_presence_unavailable. run_handler.
    rewrite Hdis. fields. rewrite Hrelay. fields. rewrite Hname. fields.
    rewrite Hcontrol. fields. split; reflexivity.
Qed.

Lemma presence_is_announced_witness :
  let s := state_after xmpp_roster_update Scenario.started in
  let p := mkPresence (mkJID "alice@x/phone" "alice@x") in
  (outcome_of (xmpp_presence_available p) s = Ok tt /\
   calls (state_after (xmpp_presence_available p) s) =
     calls s ++ [SendNotice 0 ("Alice" ++ " available (" ++ bare (pres_from p) ++ ")")]) /\
  (outcome_of (xmpp_presence_unavailable p) s = Ok tt /\
   calls (state_after (xmpp_presence_unavailable p) s) =
     calls s ++ [SendNotice 0 ("Alice" ++ " unavailable (" ++ bare (pres_from p) ++ ")")]).
Proof.
  intros s p.
  refine (presence_is_announced s p "Alice" 0 _ _ _ _); vm_compute; reflexivity.
Defined.

(** X24.  The presence of a disabled address is dropped, coming or going:
    the handler returns, calls neither network and changes nothing but
    the log, whether or not the address is in the roster. *)
Theorem presence_of_a_disabled_address_is_dropped :
  forall (s : State) (p : Presence),
    Py.mem (bare (pres_from p)) (disabled_jids (settings s)) = true ->
    (exists l, xmpp_presence_available p s = (Ok tt, with_logs l s)) /\
    (exists l, xmpp_presence_unavailable p s = (Ok tt, with_logs l s)).
Proof.
  intros s p Hdis. split.
  - unfold xmpp_presence_available. run_handler. rewrite Hdis. eexists; reflexivity.
  - unfold xmpp_presence_unavailable. run_handler. rewrite Hdis. eexists; reflexivity.
Qed.

Lemma presence_of_a_disabled_address_is_dropped_witness :
  let config :=
    mkConfig ["@admin:x"] "#" None "@bot:x" "bot@x" "bridge" true true None true
      (Some ["spam@x"]) in
  let s := state_after (__init__ config)
             (new_bot [] 0 [("bot@x", [("spam@x", mkItem "Spam")])]) in
  let p := mkPresence (mkJID "spam@x/laptop" "spam@x") in
  (exists l, xmpp_presence_available p s = (Ok tt, with_logs l s)) /\
  (exists l, xmpp_presence_unavailable p s = (Ok tt, with_logs l s)).
Proof.
  intros config s p.
  refine (presence_of_a_disabled_address_is_dropped s p _).
  vm_compute; reflexivity.
Defined.
